(** * Seismic cube processor: a shallow embedding of [app.py]

    The development follows [SeismicCubeProcessor], the [get_slice] and
    [get_cube_info] routes and the two helpers on file names and
    archives of [src/3d visualization/app.py]:

    - the decoded SEG-Y file (what [segyio.open] hands to the code) is a
      record of the sample axis and the trace list;
    - the processor object is a record of its attributes, threaded through
      a state-and-exception monad, so that an attribute assigned before an
      exception stays assigned, as in Python;
    - NumPy arrays carry their shape next to their nested contents;
    - floating-point values are either a finite number (a rational) or
      one of the three special values [nan], [+inf], [-inf]; sums,
      products and quotients are rounded to binary64, to the nearest
      value with ties to even, and overflow to an infinity; the two zeros
      are not told apart, and a square root is kept as its radicand;
    - what is printed is not modelled: the standard output is taken to
      accept every message.  *)

From Stdlib Require Import ZArith QArith Qround Qabs Lqa.
From stdpp Require Import gmap strings list fin_maps sorting.

Set Default Proof Using "Type".

(** ** Floating-point values *)

Inductive float : Type :=
  | Fin (q : Q)
  | PInf
  | NInf
  | NaN.

Definition isfinite (x : float) : bool :=
  match x with Fin _ => true | _ => false end.

Definition isnan (x : float) : bool :=
  match x with NaN => true | _ => false end.

(** Sign of a value that is not [nan]: -1, 0 or 1. *)
Definition fsgn (x : float) : Z :=
  match x with
  | Fin q => Z.sgn (Qnum q)
  | PInf => 1
  | NInf => -1
  | NaN => 0
  end.

Definition inf_of_sign (s : Z) : float :=
  match s with
  | Z0 => NaN
  | Zpos _ => PInf
  | Zneg _ => NInf
  end.

Definition fneg (x : float) : float :=
  match x with
  | Fin q => Fin (- q)
  | PInf => NInf
  | NInf => PInf
  | NaN => NaN
  end.

(** *** Rounding to binary64 *)

(** [floor(log2 q)] for a rational [q > 0]. *)
Definition ilog2 (q : Q) : Z :=
  let k := (Z.log2 (Qnum q) - Z.log2 (Zpos (Qden q)))%Z in
  if Qle_bool (2 ^ k) q then k else (k - 1)%Z.

(** The nearest integer, a tie going to the even one. *)
Definition round_half_even (q : Q) : Z :=
  let f := Qfloor q in
  match Qcompare (q - inject_Z f) (1 # 2) with
  | Lt => f
  | Gt => (f + 1)%Z
  | Eq => if Z.even f then f else (f + 1)%Z
  end.

(** The binary64 value of a rational: 53 significant bits, the exponent
    of the last bit not below -1074 (subnormal numbers), ties to even,
    and an infinity when the rounded magnitude reaches [2^1024]. *)
Definition round64 (q : Q) : float :=
  if Qeq_bool q 0 then Fin 0
  else
    let e := Z.max (ilog2 (Qabs q) - 52) (-1074) in
    let m := round_half_even (q / 2 ^ e) in
    let r := Qred (inject_Z m * 2 ^ e) in
    if Qle_bool (2 ^ 1024) (Qabs r)
    then (if (0 <? m)%Z then PInf else NInf)
    else Fin r.

(** *** Arithmetic *)

Definition fadd (x y : float) : float :=
  match x, y with
  | NaN, _ | _, NaN => NaN
  | Fin a, Fin b => round64 (a + b)
  | PInf, NInf | NInf, PInf => NaN
  | PInf, _ | _, PInf => PInf
  | NInf, _ | _, NInf => NInf
  end.

Definition fsub (x y : float) : float := fadd x (fneg y).

Definition fmul (x y : float) : float :=
  match x, y with
  | NaN, _ | _, NaN => NaN
  | Fin a, Fin b => round64 (a * b)
  | _, _ => inf_of_sign (fsgn x * fsgn y)
  end.

Definition fdiv (x y : float) : float :=
  match x, y with
  | NaN, _ | _, NaN => NaN
  | Fin a, Fin b =>
      if Qeq_bool b 0 then inf_of_sign (fsgn x) else round64 (a / b)
  | Fin _, _ => Fin 0
  | _, Fin b => inf_of_sign (fsgn x * (if Qeq_bool b 0 then 1 else fsgn y))
  | _, _ => NaN
  end.

(** [x <= y] as the comparison operator: false as soon as one side is
    [nan]. *)
Definition fle (x y : float) : bool :=
  match x, y with
  | NaN, _ | _, NaN => false
  | Fin a, Fin b => Qle_bool a b
  | NInf, _ | _, PInf => true
  | _, _ => false
  end.

(** The order [np.sort] uses: [fle], with [nan] after everything else. *)
Definition sort_le (x y : float) : Prop :=
  match x, y with
  | _, NaN => True
  | NaN, _ => False
  | _, _ => fle x y = true
  end.

Global Instance sort_le_dec : RelDecision sort_le.
Proof.
  intros x y. unfold sort_le.
  destruct x, y; try apply _.
Defined.

(** The result of [np.sqrt]: the square root of a rational is not a
    rational, so the value is kept as its radicand. *)
Inductive root : Type :=
  | Sqrt (radicand : float).


(** ** The NumPy operations the code calls *)

Module np.

(** [np.nan_to_num(x, nan=0.0, posinf=0.0, neginf=0.0)] on one value. *)
Definition nan_to_num1 (x : float) : float :=
  match x with
  | Fin q => Fin q
  | PInf | NInf | NaN => Fin 0
  end.

(** ... on a vector. *)
Definition nan_to_num (v : list float) : list float := nan_to_num1 <$> v.

(** [np.minimum] and [np.maximum]: a [nan] operand wins. *)
Definition minimum (x y : float) : float :=
  match x, y with
  | NaN, _ | _, NaN => NaN
  | _, _ => if fle x y then x else y
  end.

Definition maximum (x y : float) : float :=
  match x, y with
  | NaN, _ | _, NaN => NaN
  | _, _ => if fle x y then y else x
  end.

(** [np.min] and [np.max] over the flattened array; [None] is the
    [ValueError] raised on a zero-size array. *)
Definition min (a : list float) : option float :=
  match a with
  | [] => None
  | x :: a' => Some (foldl minimum x a')
  end.

Definition max (a : list float) : option float :=
  match a with
  | [] => None
  | x :: a' => Some (foldl maximum x a')
  end.

(** [np.sum] over the flattened array, in the order of memory, with the
    pairwise summation of [np.add.reduce]: fewer than 8 values are added
    one after the other; up to 128 values are added in eight running
    sums, which are then added in pairs, and the values after the last
    full row of eight one after the other; a longer array is cut in two
    at a multiple of eight. *)
Fixpoint add_rows (r a : list float) (rows : nat)
  : list float * list float :=
  match rows with
  | O => (r, a)
  | S rows' => add_rows (zip_with fadd r (take 8 a)) (drop 8 a) rows'
  end.

Definition sum_block (a : list float) : float :=
  let '(r, rest) := add_rows (take 8 a) (drop 8 a) (length a / 8 - 1) in
  match r with
  | [r0; r1; r2; r3; r4; r5; r6; r7] =>
      foldl fadd
            (fadd (fadd (fadd r0 r1) (fadd r2 r3))
                  (fadd (fadd r4 r5) (fadd r6 r7)))
            rest
  | _ => NaN                   (* not reached: [a] has 8 values or more *)
  end.

(** [fuel] bounds the depth of the recursion; the length of the array
    is more than enough. *)
Fixpoint pairwise_sum (fuel : nat) (a : list float) : float :=
  let n := length a in
  if (n <? 8)%nat then foldl fadd (Fin 0) a
  else if (n <=? 128)%nat then sum_block a
  else
    match fuel with
    | O => NaN                 (* not reached *)
    | S fuel' =>
        let n2 := (n / 2 - (n / 2) mod 8)%nat in
        fadd (pairwise_sum fuel' (take n2 a)) (pairwise_sum fuel' (drop n2 a))
    end.

Definition sum (a : list float) : float := pairwise_sum (length a) a.

Definition count (a : list float) : float :=
  Fin (inject_Z (Z.of_nat (length a))).

(** [np.mean]: the sum divided by the number of elements. *)
Definition mean (a : list float) : float := fdiv (sum a) (count a).

(** [np.std]: the square root of the mean of the squared deviations
    from the mean (population standard deviation). *)
Definition var (a : list float) : float :=
  let m := mean a in
  mean ((fun x => fmul (fsub x m) (fsub x m)) <$> a).

Definition std (a : list float) : root := Sqrt (var a).

(** *** Arrays

    A two- or three-dimensional [ndarray]: its [shape] and its contents
    as nested lists (what [tolist()] returns).  The shape is kept apart
    because a zero-length axis leaves no trace in the nested lists. *)
Record ndarray2 : Type := mk_ndarray2 {
  shape2 : nat * nat;
  rows : list (list float)
}.

Record ndarray3 : Type := mk_ndarray3 {
  shape3 : nat * nat * nat;
  cells : list (list (list float))
}.

(** The array [np.zeros((n0, n1, n2))] returns. *)
Definition zeros (shape : nat * nat * nat) : ndarray3 :=
  let '(n0, n1, n2) := shape in
  {| shape3 := shape;
     cells := replicate n0 (replicate n1 (replicate n2 (Fin 0))) |}.

(** [nbytes] of an array of 8-byte floats of that shape. *)
Definition nbytes (shape : nat * nat * nat) : N :=
  let '(n0, n1, n2) := shape in
  (N.of_nat n0 * N.of_nat n1 * N.of_nat n2 * 8)%N.

(** The call [np.zeros(shape)] on a machine that can give [memory] bytes
    to the array: [None] is the [MemoryError] of an array that does not
    fit. *)
Definition new_zeros (memory : N) (shape : nat * nat * nat)
  : option ndarray3 :=
  if (nbytes shape <=? memory)%N then Some (zeros shape) else None.

(** The flattened contents, in C order. *)
Definition ravel3 (d : ndarray3) : list float := concat (concat (cells d)).

Definition ravel2 (a : ndarray2) : list float := concat (rows a).

Definition nan_to_num3 (d : ndarray3) : ndarray3 :=
  {| shape3 := shape3 d;
     cells := (fun plane : list (list float) => nan_to_num <$> plane)
                <$> cells d |}.

Definition nan_to_num2 (a : ndarray2) : ndarray2 :=
  {| shape2 := shape2 a; rows := nan_to_num <$> rows a |}.

(** An integer index along an axis of length [dim]: a negative index
    counts from the end; [None] is the [IndexError]. *)
Definition normalize_index (dim : nat) (index : Z) : option nat :=
  if decide (0 ≤ index < Z.of_nat dim)%Z then Some (Z.to_nat index)
  else if decide (- Z.of_nat dim ≤ index < 0)%Z
       then Some (Z.to_nat (index + Z.of_nat dim))
       else None.

(** [d[index, :, :]] *)
Definition take0 (d : ndarray3) (index : Z) : option ndarray2 :=
  let '(n0, n1, n2) := shape3 d in
  i ← normalize_index n0 index;
  plane ← cells d !! i;
  Some {| shape2 := (n1, n2); rows := plane |}.

(** [d[:, index, :]] *)
Definition take1 (d : ndarray3) (index : Z) : option ndarray2 :=
  let '(n0, n1, n2) := shape3 d in
  j ← normalize_index n1 index;
  rs ← mapM (fun plane : list (list float) => plane !! j) (cells d);
  Some {| shape2 := (n0, n2); rows := rs |}.

(** [d[:, :, index]] *)
Definition take2 (d : ndarray3) (index : Z) : option ndarray2 :=
  let '(n0, n1, n2) := shape3 d in
  k ← normalize_index n2 index;
  rs ← mapM (mapM (fun row : list float => row !! k)) (cells d);
  Some {| shape2 := (n0, n1); rows := rs |}.

(** [a.T] *)
Definition transpose (a : ndarray2) : ndarray2 :=
  let '(r, c) := shape2 a in
  {| shape2 := (c, r);
     rows := (fun j => (fun row : list float => default (Fin 0) (row !! j))
                         <$> rows a) <$> seq 0 c |}.

(** Broadcasting a vector to length [n] for an assignment: a vector of
    that length is taken as it is, a vector of length one is repeated,
    any other raises [ValueError] ([None]). *)
Definition broadcast (n : nat) (v : list float) : option (list float) :=
  if decide (length v = n) then Some v
  else match v with
       | [x] => Some (replicate n x)
       | _ => None
       end.

(** [d[a, b, :] = v]; [None] when the assignment raises. *)
Definition setitem_row (d : ndarray3) (a b : nat) (v : list float)
  : option ndarray3 :=
  let '(n0, n1, n2) := shape3 d in
  if decide (a < n0 ∧ b < n1) then
    row ← broadcast n2 v;
    Some {| shape3 := shape3 d;
            cells := alter (fun plane => <[b := row]> plane) a (cells d) |}
  else None.

(** *** Percentiles

    [np.percentile(a, q)] with the default linear method, as NumPy 1.22
    and later compute it. *)

(** [_lerp(a, b, t)] *)
Definition lerp (a b t : float) : float :=
  let diff_b_a := fsub b a in
  if fle (Fin (1 # 2)) t
  then fsub b (fmul diff_b_a (fsub (Fin 1) t))
  else fadd a (fmul diff_b_a t).

(** [_get_indexes]: the index below the virtual index and the one after
    it; both are -1, the last element, for a virtual index at or above
    [values_count - 1] or [nan], and 0 for a negative one. *)
Definition previous_index (values_count : nat) (virtual_index : float) : Z :=
  match virtual_index with
  | Fin v =>
      if Qle_bool (inject_Z (Z.of_nat values_count - 1)) v then (-1)%Z
      else if Qle_bool 0 v then Qfloor v else 0%Z
  | PInf | NaN => (-1)%Z
  | NInf => 0%Z
  end.

Definition next_index (values_count : nat) (virtual_index : float) : Z :=
  match virtual_index with
  | Fin v =>
      if Qle_bool (inject_Z (Z.of_nat values_count - 1)) v then (-1)%Z
      else if Qle_bool 0 v then (Qfloor v + 1)%Z else 0%Z
  | PInf | NaN => (-1)%Z
  | NInf => 0%Z
  end.

(** [arr[index]] *)
Definition item (arr : list float) (index : Z) : option float :=
  i ← normalize_index (length arr) index; arr !! i.

(** The array is sorted as far as the two indices need it ([partition]);
    the weight of the upper value is the virtual index less the lower
    index; an array containing [nan] gives [nan]. *)
Definition percentile (a : list float) (q : nat) : float :=
  let quantile := fdiv (Fin (inject_Z (Z.of_nat q))) (Fin 100) in
  let arr := merge_sort sort_le a in
  let values_count := length arr in
  let virtual_index :=
    fmul (Fin (inject_Z (Z.of_nat values_count - 1))) quantile in
  let previous_index := previous_index values_count virtual_index in
  let next_index := next_index values_count virtual_index in
  match item arr previous_index, item arr next_index with
  | Some previous, Some next =>
      let gamma := fsub virtual_index (Fin (inject_Z previous_index)) in
      if existsb isnan a then NaN else lerp previous next gamma
  | _, _ => NaN              (* an empty array: [np.min] has raised before *)
  end.

End np.

(** ** Python built-ins *)

(** [sorted(list(set(l)))] *)
Definition sorted_set (l : list Z) : list Z :=
  merge_sort Z.le (remove_dups l).

(** [min(l)] and [max(l)]; [None] is the [ValueError] of an empty
    sequence. *)
Definition py_min (l : list Z) : option Z :=
  match l with
  | [] => None
  | x :: l' => Some (foldl Z.min x l')
  end.

Definition py_max (l : list Z) : option Z :=
  match l with
  | [] => None
  | x :: l' => Some (foldl Z.max x l')
  end.

(** A dict built by a comprehension over [(key, value)] pairs: a later
    pair replaces an earlier one with the same key. *)
Definition dict_of `{Countable K} {V : Type} (kvs : list (K * V)) : gmap K V :=
  foldl (fun m kv => <[kv.1 := kv.2]> m) ∅ kvs.

(** [{v: idx for idx, v in enumerate(l)}] *)
Definition index_map (l : list Z) : gmap Z nat :=
  dict_of (imap (fun idx v => (v, idx)) l).

(** ** The decoded SEG-Y file

    What [segyio] exposes to the code.  A header field is [None] when
    reading it raises; a header is [None] when [f.header[i]] raises. *)

Record trace_header : Type := mk_trace_header {
  INLINE_3D : option Z;
  CROSSLINE_3D : option Z;
  CDP_X : option Z;
  CDP_Y : option Z;
  SourceX : option Z;
  SourceY : option Z
}.

Record trace : Type := mk_trace {
  header : option trace_header;
  trace_samples : list float
}.

Record segy_file : Type := mk_segy_file {
  samples : list float;       (* f.samples *)
  traces : list trace         (* f.trace / f.header, by ordinal position *)
}.

(** ** Trace Locator (lines 118-153) *)

Record placement : Type := mk_placement {
  p_inline : Z;
  p_xline : Z;
  p_x : Z;
  p_y : Z
}.

(** Lines 125-134: the primary pair, the secondary pair when the primary
    one is (0, 0), and (0, 0) when a field cannot be read. *)
Definition read_coords (h : trace_header) : Z * Z :=
  match CDP_X h, CDP_Y h with
  | Some x_coord, Some y_coord =>
      if (x_coord =? 0)%Z && (y_coord =? 0)%Z then
        match SourceX h, SourceY h with
        | Some x_coord', Some y_coord' => (x_coord', y_coord')
        | _, _ => (0, 0)%Z
        end
      else (x_coord, y_coord)
  | _, _ => (0, 0)%Z
  end.

(** [int(np.sqrt(n_traces))] *)
Definition grid_size (n_traces : nat) : Z := Z.sqrt (Z.of_nat n_traces).

(** Lines 142-146 and 149-153. *)
Definition fallback_placement (n_traces i : nat) : placement :=
  {| p_inline := Z.of_nat i / grid_size n_traces + 1;
     p_xline := Z.of_nat i mod grid_size n_traces + 1;
     p_x := 0;
     p_y := 0 |}.

(** One iteration of the header loop. *)
Definition locate (n_traces i : nat) (t : trace) : placement :=
  match header t with
  | None => fallback_placement n_traces i
  | Some h =>
      match INLINE_3D h, CROSSLINE_3D h with
      | Some inline, Some xline =>
          let '(x_coord, y_coord) := read_coords h in
          if negb (inline =? 0)%Z && negb (xline =? 0)%Z then
            {| p_inline := inline; p_xline := xline;
               p_x := x_coord; p_y := y_coord |}
          else fallback_placement n_traces i
      | _, _ => fallback_placement n_traces i
      end
  end.

(** The header loop: the placement of every trace, in input order. *)
Definition read_trace_headers (f : segy_file) : list placement :=
  imap (locate (length (traces f))) (traces f).

(** ** Geometry Estimator (lines 243-313) *)

(** An azimuth: a number of degrees, or the bearing of a displacement.
    [(np.degrees(np.arctan2(dx, dy)) + 360) % 360] is [0.0] when the
    displacement is null or points north ([atan2(0, y) = 0] for [y >= 0]);
    for any other displacement the arc tangent is not computed and the
    value is kept as the displacement it is the bearing of. *)
Inductive azimuth : Type :=
  | Degrees (d : Z)
  | Bearing (dx dy : Z).

Definition bearing (dx dy : Z) : azimuth :=
  if (dx =? 0)%Z && (0 <=? dy)%Z then Degrees 0 else Bearing dx dy.

Record geometry_info : Type := mk_geometry_info {
  inline_azimuth : azimuth;
  xline_azimuth : azimuth;
  has_coordinates : bool
}.

Definition default_geometry : geometry_info :=
  {| inline_azimuth := Degrees 0;
     xline_azimuth := Degrees 90;
     has_coordinates := false |}.

(** Line 247: the traces zipped with their coordinates, those with
    [x != 0 and y != 0] kept, as a dict from (inline, xline) to (x, y). *)
Definition zip_coords (inlines xlines x_coords y_coords : list Z)
  : list ((Z * Z) * (Z * Z)) :=
  zip (zip inlines xlines) (zip x_coords y_coords).

Definition has_xy (kv : (Z * Z) * (Z * Z)) : Prop :=
  kv.2.1 ≠ 0%Z ∧ kv.2.2 ≠ 0%Z.

Global Instance has_xy_dec kv : Decision (has_xy kv).
Proof. unfold has_xy. apply _. Defined.

Definition build_coord_map (inlines xlines x_coords y_coords : list Z)
  : gmap (Z * Z) (Z * Z) :=
  dict_of (filter has_xy (zip_coords inlines xlines x_coords y_coords)).

(** [p1 and p2]: both lookups returned a point. *)
Definition both_found (p : option (Z * Z) * option (Z * Z)) : bool :=
  match p with
  | (Some _, Some _) => true
  | _ => false
  end.

(** The fallback loops of lines 265-269 and 280-284: the two lookups are
    redone for each value in turn and the loop stops at the first value
    where both succeed; without such a value the variables are left as
    the last iteration set them. *)
Fixpoint scan_pairs (coord_map : gmap (Z * Z) (Z * Z))
    (key1 key2 : Z → Z * Z) (vals : list Z)
    (p : option (Z * Z) * option (Z * Z))
  : option (Z * Z) * option (Z * Z) :=
  match vals with
  | [] => p
  | v :: vals' =>
      let p' := (coord_map !! key1 v, coord_map !! key2 v) in
      if both_found p' then p' else scan_pairs coord_map key1 key2 vals' p'
  end.

(** The corner lookup followed by the fallback loop. *)
Definition find_pair (coord_map : gmap (Z * Z) (Z * Z))
    (key1 key2 : Z → Z * Z) (first : Z) (vals : list Z)
  : option (Z * Z) * option (Z * Z) :=
  let p := (coord_map !! key1 first, coord_map !! key2 first) in
  if both_found p then p else scan_pairs coord_map key1 key2 vals p.

(** Lines 287-297. *)
Definition azimuth_of (default : azimuth)
    (p : option (Z * Z) * option (Z * Z)) : azimuth :=
  match p with
  | (Some p1, Some p2) => bearing (p2.1 - p1.1) (p2.2 - p1.2)
  | _ => default
  end.

Definition calculate_survey_geometry
    (inlines xlines x_coords y_coords unique_inlines unique_xlines : list Z)
  : geometry_info :=
  let coord_map := build_coord_map inlines xlines x_coords y_coords in
  if decide (size coord_map < 4) then default_geometry
  else
    match py_min unique_inlines, py_max unique_inlines,
          py_min unique_xlines, py_max unique_xlines with
    | Some min_il, Some max_il, Some min_xl, Some max_xl =>
        let p_il :=
          find_pair coord_map (fun xl => (min_il, xl)) (fun xl => (max_il, xl))
                    min_xl unique_xlines in
        let p_xl :=
          find_pair coord_map (fun il => (il, min_xl)) (fun il => (il, max_xl))
                    min_il unique_inlines in
        {| inline_azimuth := azimuth_of (Degrees 0) p_il;
           xline_azimuth := azimuth_of (Degrees 90) p_xl;
           has_coordinates := true |}
    | _, _, _, _ => default_geometry      (* the [except] branch *)
    end.

(** ** Cube Assembler (lines 167-188) *)

(** One iteration of the scatter loop.  The trace is written when its
    placement is in both lookup tables; an iteration that raises is
    skipped ([except Exception: continue]). *)
Definition scatter_step (f : segy_file) (inlines xlines : list Z)
    (inline_map xline_map : gmap Z nat) (data : np.ndarray3) (i : nat)
  : np.ndarray3 :=
  default data
    (inline ← inlines !! i;
     xline ← xlines !! i;
     inline_idx ← inline_map !! inline;
     xline_idx ← xline_map !! xline;
     t ← traces f !! i;
     let trace_data := np.nan_to_num (trace_samples t) in
     np.setitem_row data inline_idx xline_idx trace_data).

Definition scatter (f : segy_file) (inlines xlines : list Z)
    (inline_map xline_map : gmap Z nat) (data : np.ndarray3)
  : np.ndarray3 :=
  foldl (scatter_step f inlines xlines inline_map xline_map) data
        (seq 0 (Nat.min (length (traces f)) (length inlines))).

(** ** Statistics Engine (lines 195-220) *)

Record amplitude_stats : Type := mk_amplitude_stats {
  actual_min : float;
  actual_max : float;
  display_min : float;
  display_max : float;
  mean : float;
  std : root;
  p1 : float;
  p99 : float;
  p5 : float;
  p95 : float
}.

(** [None] is the [ValueError] of [np.min] on a zero-size array. *)
Definition amplitude_statistics (data : np.ndarray3) : option amplitude_stats :=
  let clean_data := np.ravel3 (np.nan_to_num3 data) in
  data_min ← np.min clean_data;
  data_max ← np.max clean_data;
  let data_mean := np.mean clean_data in
  let data_std := np.std clean_data in
  let p1 := np.percentile clean_data 1 in
  let p99 := np.percentile clean_data 99 in
  let p5 := np.percentile clean_data 5 in
  let p95 := np.percentile clean_data 95 in
  Some {| actual_min := data_min; actual_max := data_max;
          display_min := p5; display_max := p95;
          mean := data_mean; std := data_std;
          p1 := p1; p99 := p99; p5 := p5; p95 := p95 |}.

(** ** The processor object

    The attributes of [SeismicCubeProcessor]; [None] is Python's [None],
    and for [geometry], which [__init__] does not create, the absence of
    the attribute. *)

Record processor : Type := mk_processor {
  data : option np.ndarray3;
  inline_range : option (list Z);
  xline_range : option (list Z);
  sample_range : option (list float);
  amplitude_range : option amplitude_stats;
  current_inline_idx : nat;
  current_xline_idx : nat;
  current_sample_idx : nat;
  inline_coords : option (list Z);
  xline_coords : option (list Z);
  sample_coords : option (list float);
  session_id : option string;
  cube_id : option string;
  geometry : option geometry_info
}.

(** [SeismicCubeProcessor()] *)
Definition init : processor :=
  {| data := None; inline_range := None; xline_range := None;
     sample_range := None; amplitude_range := None;
     current_inline_idx := 0; current_xline_idx := 0; current_sample_idx := 0;
     inline_coords := None; xline_coords := None; sample_coords := None;
     session_id := None; cube_id := None; geometry := None |}.

Definition set_data (v : np.ndarray3) (self : processor) : processor :=
  let 'mk_processor _ a2 a3 a4 a5 a6 a7 a8 a9 a10 a11 a12 a13 a14 := self in
  mk_processor (Some v) a2 a3 a4 a5 a6 a7 a8 a9 a10 a11 a12 a13 a14.

Definition set_inline_range (v : list Z) (self : processor) : processor :=
  let 'mk_processor a1 _ a3 a4 a5 a6 a7 a8 a9 a10 a11 a12 a13 a14 := self in
  mk_processor a1 (Some v) a3 a4 a5 a6 a7 a8 a9 a10 a11 a12 a13 a14.

Definition set_xline_range (v : list Z) (self : processor) : processor :=
  let 'mk_processor a1 a2 _ a4 a5 a6 a7 a8 a9 a10 a11 a12 a13 a14 := self in
  mk_processor a1 a2 (Some v) a4 a5 a6 a7 a8 a9 a10 a11 a12 a13 a14.

Definition set_sample_range (v : option (list float)) (self : processor)
  : processor :=
  let 'mk_processor a1 a2 a3 _ a5 a6 a7 a8 a9 a10 a11 a12 a13 a14 := self in
  mk_processor a1 a2 a3 v a5 a6 a7 a8 a9 a10 a11 a12 a13 a14.

Definition set_amplitude_range (v : amplitude_stats) (self : processor)
  : processor :=
  let 'mk_processor a1 a2 a3 a4 _ a6 a7 a8 a9 a10 a11 a12 a13 a14 := self in
  mk_processor a1 a2 a3 a4 (Some v) a6 a7 a8 a9 a10 a11 a12 a13 a14.

Definition set_current_idx (i j k : nat) (self : processor) : processor :=
  let 'mk_processor a1 a2 a3 a4 a5 _ _ _ a9 a10 a11 a12 a13 a14 := self in
  mk_processor a1 a2 a3 a4 a5 i j k a9 a10 a11 a12 a13 a14.

Definition set_inline_coords (v : list Z) (self : processor) : processor :=
  let 'mk_processor a1 a2 a3 a4 a5 a6 a7 a8 _ a10 a11 a12 a13 a14 := self in
  mk_processor a1 a2 a3 a4 a5 a6 a7 a8 (Some v) a10 a11 a12 a13 a14.

Definition set_xline_coords (v : list Z) (self : processor) : processor :=
  let 'mk_processor a1 a2 a3 a4 a5 a6 a7 a8 a9 _ a11 a12 a13 a14 := self in
  mk_processor a1 a2 a3 a4 a5 a6 a7 a8 a9 (Some v) a11 a12 a13 a14.

Definition set_sample_coords (v : list float) (self : processor) : processor :=
  let 'mk_processor a1 a2 a3 a4 a5 a6 a7 a8 a9 a10 _ a12 a13 a14 := self in
  mk_processor a1 a2 a3 a4 a5 a6 a7 a8 a9 a10 (Some v) a12 a13 a14.

Definition set_geometry (v : geometry_info) (self : processor) : processor :=
  let 'mk_processor a1 a2 a3 a4 a5 a6 a7 a8 a9 a10 a11 a12 a13 _ := self in
  mk_processor a1 a2 a3 a4 a5 a6 a7 a8 a9 a10 a11 a12 a13 (Some v).

(** ** Methods: state and exceptions

    A method body runs on the processor and either returns a value or
    raises; either way the processor comes out with every assignment made
    so far. *)

Inductive exn : Type :=
  | SegyOpenError      (* [segyio.open] could not read the file *)
  | MemoryError        (* [np.zeros] could not allocate the volume *)
  | ValueError.        (* [min] of an empty sequence, [np.min] of a
                          zero-size array *)

Inductive outcome (A : Type) : Type :=
  | Returns (a : A)
  | Raises (e : exn).
Arguments Returns {A} a.
Arguments Raises {A} e.

Definition method (A : Type) : Type := processor → outcome A * processor.

Definition ret {A} (a : A) : method A := fun self => (Returns a, self).

Definition bind {A B} (m : method A) (k : A → method B) : method B :=
  fun self =>
    match m self with
    | (Returns a, self') => k a self'
    | (Raises e, self') => (Raises e, self')
    end.

Definition raise {A} (e : exn) : method A := fun self => (Raises e, self).

(** [self.attr = v], given the setter of [attr]. *)
Definition assign (setter : processor → processor) : method unit :=
  fun self => (Returns tt, setter self).

(** Reading an attribute. *)
Definition attr {A} (get : processor → A) : method A :=
  fun self => (Returns (get self), self).

(** A library call that returns or raises. *)
Definition call {A} (e : exn) (r : option A) : method A :=
  match r with
  | Some a => ret a
  | None => raise e
  end.

(** [try: body / except Exception: handler] *)
Definition try_except {A} (body : method A) (handler : exn → method A)
  : method A :=
  fun self =>
    match body self with
    | (Returns a, self') => (Returns a, self')
    | (Raises e, self') => handler e self'
    end.

Global Instance method_ret : MRet method := @ret.
Global Instance method_bind : MBind method := fun A B k m => bind m k.

(** ** [load_segy_file] (lines 97-241)

    [opened] is the file at [filepath] as [segyio] decodes it, or [None]
    when it cannot be read; [memory] is the number of bytes the machine
    can give to the volume. *)

(** [segyio.open(filepath, ignore_geometry=True)]: it raises on a file
    that cannot be read, and on one without traces. *)
Definition segyio_open (opened : option segy_file) : option segy_file :=
  f ← opened;
  if decide (traces f = []) then None else Some f.

Definition load_segy_file_body (memory : N) (opened : option segy_file)
  : method bool :=
  (f ← call SegyOpenError (segyio_open opened);
   let n_traces := length (traces f) in
   let n_samples := length (samples f) in
   assign (set_sample_coords (samples f));;
   let placements := read_trace_headers f in
   let inlines := p_inline <$> placements in
   let xlines := p_xline <$> placements in
   let x_coords := p_x <$> placements in
   let y_coords := p_y <$> placements in
   let unique_inlines := sorted_set inlines in
   let unique_xlines := sorted_set xlines in
   (* lines 158-159: the ranges are printed *)
   call ValueError (py_min unique_inlines);;
   call ValueError (py_max unique_inlines);;
   call ValueError (py_min unique_xlines);;
   call ValueError (py_max unique_xlines);;
   assign (set_inline_coords unique_inlines);;
   assign (set_xline_coords unique_xlines);;
   let geometry_info :=
     calculate_survey_geometry inlines xlines x_coords y_coords
                               unique_inlines unique_xlines in
   zeros ← call MemoryError
             (np.new_zeros memory (length unique_inlines,
                                   length unique_xlines, n_samples));
   assign (set_data zeros);;
   let inline_map := index_map unique_inlines in
   let xline_map := index_map unique_xlines in
   assign (set_data (scatter f inlines xlines inline_map xline_map zeros));;
   assign (set_inline_range unique_inlines);;
   assign (set_xline_range unique_xlines);;
   sample_coords ← attr sample_coords;
   assign (set_sample_range sample_coords);;
   assign (set_geometry geometry_info);;
   self_data ← attr data;
   stats ← call ValueError (self_data ≫= amplitude_statistics);
   assign (set_amplitude_range stats);;
   assign (set_current_idx (length unique_inlines / 2)
                           (length unique_xlines / 2)
                           (n_samples / 2));;
   mret true).

Definition load_segy_file (memory : N) (opened : option segy_file)
  : method bool :=
  try_except (load_segy_file_body memory opened) (fun _ => mret false).

(** ** Slice Extractor: [get_slice_data] (lines 413-468) *)

(** A coordinate axis as [tolist()] returns it: line numbers are
    integers, sample positions are floats. *)
Inductive axis : Type :=
  | IntAxis (l : list Z)
  | FloatAxis (l : list float).

Record slice_stats : Type := mk_slice_stats {
  s_min : float;
  s_max : float;
  s_mean : float;
  s_std : root
}.

Record slice_data : Type := mk_slice_data {
  sd_data : list (list float);       (* 'data': data.tolist() *)
  sd_x : axis;                       (* 'coordinates': {'x': ..., *)
  sd_y : axis;                       (*                 'y': ...} *)
  sd_amplitude_stats : slice_stats
}.

(** Lines 420-441: the plane and its two axes.  The outer [None] is the
    [return None] of an unknown slice type; the inner one is an exception
    (an index out of range, [tolist] on a missing axis). *)
Definition select_plane (self : processor) (d : np.ndarray3)
    (slice_type : string) (index : Z)
  : option (option (np.ndarray2 * axis * axis)) :=
  if decide (slice_type = "inline") then
    Some (plane ← np.take0 d index;
          x ← xline_coords self;
          y ← sample_coords self;
          Some (plane, IntAxis x, FloatAxis y))
  else if decide (slice_type = "xline") then
    Some (plane ← np.take1 d index;
          x ← inline_coords self;
          y ← sample_coords self;
          Some (plane, IntAxis x, FloatAxis y))
  else if decide (slice_type = "sample") then
    Some (plane ← np.take2 d index;
          x ← inline_coords self;
          y ← xline_coords self;
          Some (plane, IntAxis x, IntAxis y))
  else None.

(** [None] is the method's [return None]: no cube, an unknown slice
    type, or an exception caught by the [except] clause. *)
Definition get_slice_data (self : processor) (slice_type : string) (index : Z)
  : option slice_data :=
  d ← data self;
  selected ← select_plane self d slice_type index;
  '(plane, x, y) ← selected;
  let cleaned := np.nan_to_num2 plane in
  let oriented :=
    if decide (slice_type = "inline" ∨ slice_type = "xline")
    then np.transpose cleaned else cleaned in
  let flat := np.ravel2 oriented in
  (* the transposed array is a view: the sums run over the values in the
     order of memory, that of the array before [.T] *)
  let in_memory := np.ravel2 cleaned in
  s_min ← np.min flat;
  s_max ← np.max flat;
  Some {| sd_data := np.rows oriented;
          sd_x := x; sd_y := y;
          sd_amplitude_stats :=
            {| s_min := s_min; s_max := s_max;
               s_mean := np.mean in_memory; s_std := np.std in_memory |} |}.

(** ** The [/api/slice/<slice_type>/<int:index>] route (lines 621-643) *)

Inductive api_error : Type :=
  | EndpointNotFound                 (* 'Endpoint not found' *)
  | InvalidSliceType                 (* 'Invalid slice type. Must be ...' *)
  | NoCubeDataLoaded                 (* 'No cube data loaded' *)
  | IndexOutOfBounds (index : Z) (slice_type : string) (max_index : Z)
                                     (* 'Index .. out of bounds for ..' *)
  | FailedToGetSliceData.            (* 'Failed to get slice data' *)

Inductive response : Type :=
  | Json (body : slice_data)                     (* status 200 *)
  | Error (status : nat) (error : api_error).

(** [max_indices[slice_type]] *)
Definition max_index (d : np.ndarray3) (slice_type : string) : Z :=
  let '(n0, n1, n2) := np.shape3 d in
  if decide (slice_type = "inline") then Z.of_nat n0 - 1
  else if decide (slice_type = "xline") then Z.of_nat n1 - 1
  else Z.of_nat n2 - 1.

(** [index] is the integer written in the URL.  The converter
    [<int:index>] of line 621 matches unsigned numerals only: a URL with
    a negative index matches no route, and the handler of error 404
    (lines 725-727) answers. *)
Definition get_slice (processor : processor) (slice_type : string) (index : Z)
  : response :=
  if decide (index < 0)%Z then Error 404 EndpointNotFound
  else if decide (slice_type ∉ ["inline"; "xline"; "sample"]) then
    Error 400 InvalidSliceType
  else
    match data processor with
    | None => Error 400 NoCubeDataLoaded
    | Some d =>
        let max := max_index d slice_type in
        if decide (index < 0 ∨ index > max)%Z then
          Error 400 (IndexOutOfBounds index slice_type max)
        else
          match get_slice_data processor slice_type index with
          | Some body => Json body
          | None => Error 500 FailedToGetSliceData
          end
    end.

(** ** [get_cube_info] (lines 470-507) *)

Record int_range : Type := mk_int_range {
  ir_min : Z;
  ir_max : Z;
  ir_count : nat
}.

Record float_range : Type := mk_float_range {
  fr_min : float;
  fr_max : float;
  fr_count : nat
}.

Record cube_info : Type := mk_cube_info {
  ci_shape : list nat;
  ci_inline_range : int_range;
  ci_xline_range : int_range;
  ci_sample_range : float_range;
  ci_amplitude_range : option amplitude_stats;
  ci_memory_usage_mb : float;
  ci_geometry : geometry_info
}.

(** [a.min()], [a.max()] and [len(a)] of an integer array; [None] when
    the array is empty and the reduction raises. *)
Definition int_range_of (a : list Z) : option int_range :=
  lo ← py_min a;
  hi ← py_max a;
  Some {| ir_min := lo; ir_max := hi; ir_count := length a |}.

Definition float_range_of (a : list float) : option float_range :=
  lo ← np.min a;
  hi ← np.max a;
  Some {| fr_min := lo; fr_max := hi; fr_count := length a |}.

(** [data.nbytes / (1024**2)] for an array of 8-byte floats. *)
Definition memory_usage_mb (d : np.ndarray3) : float :=
  let '(n0, n1, n2) := np.shape3 d in
  Fin (inject_Z (Z.of_nat (n0 * n1 * n2 * 8)) / inject_Z (1024 ^ 2)).

(** [None] is the method's [return None]: no volume, or an exception (an
    attribute that is still [None], an empty axis). *)
Definition get_cube_info (self : processor) : option cube_info :=
  d ← data self;
  let '(n0, n1, n2) := np.shape3 d in
  inline_range ← inline_range self ≫= int_range_of;
  xline_range ← xline_range self ≫= int_range_of;
  sample_range ← sample_range self ≫= float_range_of;
  Some {| ci_shape := [n0; n1; n2];
          ci_inline_range := inline_range;
          ci_xline_range := xline_range;
          ci_sample_range := sample_range;
          ci_amplitude_range := amplitude_range self;
          ci_memory_usage_mb := memory_usage_mb d;
          ci_geometry := default default_geometry (geometry self) |}.

(** ** The [/api/cube-info] route (lines 612-619) *)

Inductive info_response : Type :=
  | InfoJson (body : cube_info)                  (* status 200 *)
  | InfoError (status : nat) (error : api_error).

Definition get_cube_info_route (processor : processor) : info_response :=
  match get_cube_info processor with
  | Some cube_info => InfoJson cube_info
  | None => InfoError 400 NoCubeDataLoaded
  end.

(** ** File names: [allowed_file] (lines 511-512)

    A [str] is taken as the string of its UTF-8 bytes.  [lower] changes
    the ASCII capitals only: no other character has a lowercase made of
    letters of the extensions below, so the tests on extensions are
    those of Python. *)

Definition lower_ascii (c : Ascii.ascii) : Ascii.ascii :=
  let n := Ascii.nat_of_ascii c in
  if (65 <=? n)%nat && (n <=? 90)%nat then Ascii.ascii_of_nat (n + 32) else c.

(** [s.lower()] *)
Fixpoint lower (s : string) : string :=
  match s with
  | EmptyString => EmptyString
  | String c s' => String (lower_ascii c) (lower s')
  end.

(** [s.rsplit('.', 1)[1]]: what follows the last dot; [None] when [s] has
    no dot. *)
Fixpoint after_last_dot (s : string) : option string :=
  match s with
  | EmptyString => None
  | String c s' =>
      match after_last_dot s' with
      | Some ext => Some ext
      | None => if String.eqb (String c "") "." then Some s' else None
      end
  end.

(** Line 27. *)
Definition ALLOWED_EXTENSIONS : gset string := {["segy"; "sgy"; "zip"]}.

Definition allowed_file (filename : string) : bool :=
  match after_last_dot filename with
  | Some ext => bool_decide (lower ext ∈ ALLOWED_EXTENSIONS)
  | None => false              (* ['.' in filename] is false *)
  end.

(** ** Archives: [extract_segy_files] (lines 514-528) *)

(** [s.endswith(suffix)]: [suffix] is [s] or the end of its tail. *)
Fixpoint endswith (s suffix : string) : bool :=
  String.eqb s suffix ||
  match s with
  | EmptyString => false
  | String _ s' => endswith s' suffix
  end.

(** [os.path.join(a, b)] (POSIX). *)
Definition os_path_join (a b : string) : string :=
  if String.prefix "/" b then b
  else if String.eqb a "" || endswith a "/" then a +:+ b
  else a +:+ "/" +:+ b.

(** A member of the archive: its name, and whether [extract] succeeds on
    it (or raises). *)
Record zip_member : Type := mk_zip_member {
  zm_filename : string;
  zm_extracts : bool
}.

Definition is_segy_name (filename : string) : bool :=
  endswith (lower filename) ".segy" || endswith (lower filename) ".sgy".

(** The loop over [infolist()]; an exception leaves the loop with the
    paths collected so far. *)
Fixpoint extract_members (members : list zip_member) (extract_to : string)
    (segy_files : list string) : list string :=
  match members with
  | [] => segy_files
  | file_info :: members' =>
      if is_segy_name (zm_filename file_info) then
        if zm_extracts file_info then
          let extracted_path := os_path_join extract_to (zm_filename file_info) in
          extract_members members' extract_to (segy_files ++ [extracted_path])
        else segy_files
      else extract_members members' extract_to segy_files
  end.

(** [archive] is [None] when the file cannot be opened as a ZIP archive. *)
Definition extract_segy_files (archive : option (list zip_member))
    (extract_to : string) : list string :=
  match archive with
  | Some members => extract_members members extract_to []
  | None => []
  end.

(** * Specification vocabulary

    The predicates and abbreviations the statements below are written
    with.  None of them is used by the code above. *)

(** ** Numbers *)

Definition finite (x : float) : Prop := isfinite x = true.

(** ** Arrays *)

(** The nested lists have the lengths the shape announces. *)
Definition wf2 (a : np.ndarray2) : Prop :=
  let '(r, c) := np.shape2 a in
  length (np.rows a) = r ∧ Forall (fun row => length row = c) (np.rows a).

Definition wf3 (d : np.ndarray3) : Prop :=
  let '(n0, n1, n2) := np.shape3 d in
  length (np.cells d) = n0 ∧
  Forall (fun plane => length plane = n1 ∧
                       Forall (fun row : list float => length row = n2) plane)
         (np.cells d).

Definition finite3 (d : np.ndarray3) : Prop :=
  Forall (Forall (Forall finite)) (np.cells d).

(** [d[a][b]], [d[i][j][k]] and [rows[a][b]] for indices that are
    natural numbers; [None] out of range. *)
Definition row_at (d : np.ndarray3) (a b : nat) : option (list float) :=
  plane ← np.cells d !! a; plane !! b.

Definition item3 (d : np.ndarray3) (i j k : nat) : option float :=
  row ← row_at d i j; row !! k.

Definition item2 (rows : list (list float)) (a b : nat) : option float :=
  row ← rows !! a; row !! b.

(** The length of the axis a slice type indexes. *)
Definition dimension_length (d : np.ndarray3) (slice_type : string) : Z :=
  let '(n0, n1, n2) := np.shape3 d in
  if decide (slice_type = "inline") then Z.of_nat n0
  else if decide (slice_type = "xline") then Z.of_nat n1
  else Z.of_nat n2.

(** ** Assembly *)

(** The sample vector with its non-finite entries replaced by 0.0. *)
Definition sanitize (v : list float) : list float :=
  (fun x => if isfinite x then x else Fin 0) <$> v.

(** The cell trace [i] is written to, when its placement is in both
    lookup tables. *)
Definition target (inlines xlines : list Z) (inline_map xline_map : gmap Z nat)
    (i : nat) : option (nat * nat) :=
  inline ← inlines !! i;
  xline ← xlines !! i;
  inline_idx ← inline_map !! inline;
  xline_idx ← xline_map !! xline;
  Some (inline_idx, xline_idx).

(** What [load_segy_file] computes from a file, named after the local
    variables of the method. *)
Definition inlines_of (f : segy_file) : list Z :=
  p_inline <$> read_trace_headers f.

Definition xlines_of (f : segy_file) : list Z :=
  p_xline <$> read_trace_headers f.

Definition inline_axis (f : segy_file) : list Z := sorted_set (inlines_of f).

Definition xline_axis (f : segy_file) : list Z := sorted_set (xlines_of f).

(** The shape of the volume, and whether the machine has room for it. *)
Definition volume_shape (f : segy_file) : nat * nat * nat :=
  (length (inline_axis f), length (xline_axis f), length (samples f)).

Definition volume_fits (memory : N) (f : segy_file) : bool :=
  (np.nbytes (volume_shape f) <=? memory)%N.

Definition assemble (f : segy_file) : np.ndarray3 :=
  scatter f (inlines_of f) (xlines_of f)
          (index_map (inline_axis f)) (index_map (xline_axis f))
          (np.zeros (length (inline_axis f), length (xline_axis f),
                     length (samples f))).

Definition survey_geometry (f : segy_file) : geometry_info :=
  calculate_survey_geometry (inlines_of f) (xlines_of f)
    (p_x <$> read_trace_headers f) (p_y <$> read_trace_headers f)
    (inline_axis f) (xline_axis f).

(** The processor after the assignments of lines 110-162 ... *)
Definition located_state (f : segy_file) (self : processor) : processor :=
  set_xline_coords (xline_axis f)
    (set_inline_coords (inline_axis f)
       (set_sample_coords (samples f) self)).

(** ... after those of lines 168-193 ... *)
Definition assembled_state (f : segy_file) (self : processor) : processor :=
  {| data := Some (assemble f);
     inline_range := Some (inline_axis f);
     xline_range := Some (xline_axis f);
     sample_range := Some (samples f);
     amplitude_range := amplitude_range self;
     current_inline_idx := current_inline_idx self;
     current_xline_idx := current_xline_idx self;
     current_sample_idx := current_sample_idx self;
     inline_coords := Some (inline_axis f);
     xline_coords := Some (xline_axis f);
     sample_coords := Some (samples f);
     session_id := session_id self;
     cube_id := cube_id self;
     geometry := Some (survey_geometry f) |}.

(** ... and after the remaining ones, lines 209-224. *)
Definition loaded_state (f : segy_file) (stats : amplitude_stats)
    (self : processor) : processor :=
  set_current_idx (length (inline_axis f) / 2) (length (xline_axis f) / 2)
                  (length (samples f) / 2)
    (set_amplitude_range stats (assembled_state f self)).

(** The processors no run has succeeded on yet: the fresh one, and the
    ones failed runs leave behind. *)
Inductive before_first_success : processor → Prop :=
  | bfs_init : before_first_success init
  | bfs_failed memory opened self self' :
      before_first_success self →
      load_segy_file memory opened self = (Returns false, self') →
      before_first_success self'.

(** Before the first successful run a slice request is answered with
    'No cube data loaded'. *)
Definition not_loaded_before_success (self : processor)
    (slice_type : string) (index : Z) : Prop :=
  before_first_success self →
  get_slice self slice_type index = Error 400 NoCubeDataLoaded.

(** A failed run leaves the processor as it was. *)
Definition failed_ingestion_preserves_state (memory : N)
    (opened : option segy_file) (self : processor) : Prop :=
  ∀ self', load_segy_file memory opened self = (Returns false, self') →
           self' = self.

(** ** Statistics *)



(** ** Geometry *)

(** A coordinate pair with a zero component, replaced by (0, 0). *)
Definition blank_partial (xy : Z * Z) : Z * Z :=
  if decide (xy.1 = 0%Z ∨ xy.2 = 0%Z) then (0, 0)%Z else xy.

(** Two mapped points on one crossline with different inlines, and two
    mapped points on one inline with different crosslines. *)
Definition inline_pair_exists (coord_map : gmap (Z * Z) (Z * Z)) : Prop :=
  ∃ il1 il2 xl, il1 ≠ il2 ∧ is_Some (coord_map !! (il1, xl))
                ∧ is_Some (coord_map !! (il2, xl)).

Definition xline_pair_exists (coord_map : gmap (Z * Z) (Z * Z)) : Prop :=
  ∃ il xl1 xl2, xl1 ≠ xl2 ∧ is_Some (coord_map !! (il, xl1))
                ∧ is_Some (coord_map !! (il, xl2)).

(** With four mapped points or more, an axis without such a pair keeps
    its default azimuth, and [has_coordinates] tells whether one of the
    two axes has a pair. *)
Definition pair_search_claim
    (inlines xlines x_coords y_coords unique_inlines unique_xlines : list Z)
  : Prop :=
  let coord_map := build_coord_map inlines xlines x_coords y_coords in
  let g := calculate_survey_geometry inlines xlines x_coords y_coords
             unique_inlines unique_xlines in
  4 ≤ size coord_map →
  (¬ inline_pair_exists coord_map → inline_azimuth g = Degrees 0) ∧
  (¬ xline_pair_exists coord_map → xline_azimuth g = Degrees 90) ∧
  (has_coordinates g = true ↔
   inline_pair_exists coord_map ∨ xline_pair_exists coord_map).

(** The header gives the trace its line numbers: it can be read, with an
    inline and a crossline that are not zero. *)
Definition has_line_numbers (t : trace) : bool :=
  match header t with
  | Some h =>
      match INLINE_3D h, CROSSLINE_3D h with
      | Some inline, Some xline => negb (inline =? 0)%Z && negb (xline =? 0)%Z
      | _, _ => false
      end
  | None => false
  end.

(** The name contains no dot. *)
Definition no_dot (s : string) : Prop :=
  ∀ pre post, s ≠ pre +:+ "." +:+ post.

(** * Sample inputs *)

(** A trace with every header field readable and no secondary
    coordinates. *)
Definition grid_trace (inline xline x y : Z) (v : list float) : trace :=
  {| header := Some {| INLINE_3D := Some inline; CROSSLINE_3D := Some xline;
                       CDP_X := Some x; CDP_Y := Some y;
                       SourceX := Some 0%Z; SourceY := Some 0%Z |};
     trace_samples := v |}.

(** Four samples, the last two not finite. *)
Definition spiky (k : Z) : list float :=
  [Fin (inject_Z k); Fin (inject_Z (k + 1)); NaN; PInf].

(** Nine traces on a 3 x 3 grid: inlines 1, 2, 3, crosslines 10, 20, 30. *)
Definition survey_3x3 : segy_file :=
  {| samples := [Fin 0; Fin 4; Fin 8; Fin 12];
     traces :=
       [grid_trace 1 10 100 100 (spiky 1); grid_trace 1 20 100 200 (spiky 2);
        grid_trace 1 30 100 300 (spiky 3); grid_trace 2 10 200 100 (spiky 4);
        grid_trace 2 20 200 200 (spiky 5); grid_trace 2 30 200 300 (spiky 6);
        grid_trace 3 10 300 100 (spiky 7); grid_trace 3 20 300 200 (spiky 8);
        grid_trace 3 30 300 300 (spiky 9)] |}.

(** A machine with 8 GiB for the volume, and one with 64 bytes. *)
Definition plenty : N := (2 ^ 33)%N.
Definition cramped : N := 64%N.

(** The processor after [survey_3x3] has been loaded into a fresh one. *)
Definition loaded_3x3 : processor :=
  (load_segy_file plenty (Some survey_3x3) init).2.



(** A file whose single trace has no samples. *)
Definition no_samples : segy_file :=
  {| samples := []; traces := [grid_trace 1 10 100 100 []] |}.

(** Four traces with coordinates on the diagonal of a 4 x 4 grid, and
    four along a single crossline. *)
Definition diagonal_lines : list Z := [1; 2; 3; 4]%Z.
Definition diagonal_xy : list Z := [100; 200; 300; 400]%Z.
Definition single_xlines : list Z := [7; 7; 7; 7]%Z.

(** A trace whose header cannot be read. *)
Definition bare_trace (v : list float) : trace :=
  {| header := None; trace_samples := v |}.

(** Five traces without line numbers, of two samples each. *)
Definition unnumbered_5 : segy_file :=
  {| samples := [Fin 0; Fin 4];
     traces :=
       [bare_trace [Fin 1; Fin 2]; bare_trace [NaN; Fin 3];
        bare_trace [Fin 5; PInf]; bare_trace [Fin 7; Fin 8];
        bare_trace [Fin 9; NInf]] |}.

(** The processor after [unnumbered_5] has been loaded into a fresh
    one, and after [no_samples] has failed to load into a fresh one. *)
Definition loaded_unnumbered : processor :=
  (load_segy_file plenty (Some unnumbered_5) init).2.

Definition failed_no_samples : processor :=
  (load_segy_file plenty (Some no_samples) init).2.

(** * Properties *)

(** ** Assignment into the volume *)

Lemma wf3_zeros shape : wf3 (np.zeros shape).
Proof.
  destruct shape as [[n0 n1] n2]. unfold wf3; simpl. split.
  - by rewrite length_replicate.
  - apply Forall_replicate. split; [by rewrite length_replicate|].
    apply Forall_replicate. by rewrite length_replicate.
Qed.

Lemma broadcast_length n v row : np.broadcast n v = Some row → length row = n.
Proof.
  unfold np.broadcast. case_decide; [naive_solver|].
  destruct v as [|x [|??]]; try done. intros [= <-]. by rewrite length_replicate.
Qed.

Lemma setitem_row_shape d a b v d' :
  np.setitem_row d a b v = Some d' → np.shape3 d' = np.shape3 d.
Proof.
  unfold np.setitem_row. destruct (np.shape3 d) as [[n0 n1] n2] eqn:E.
  case_decide; [|done]. destruct (np.broadcast n2 v); simpl; [|done].
  by intros [= <-].
Qed.

Lemma wf3_setitem_row d a b v d' :
  wf3 d → np.setitem_row d a b v = Some d' → wf3 d'.
Proof.
  unfold wf3, np.setitem_row. destruct (np.shape3 d) as [[n0 n1] n2] eqn:E.
  intros [Hlen Hall]. case_decide; [|done].
  destruct (np.broadcast n2 v) as [row|] eqn:Hb; simpl; [|done].
  intros [= <-]. simpl. split.
  - by rewrite length_alter.
  - apply Forall_alter; [done|]. intros plane _ [Hp Hr]. split.
    + by rewrite length_insert.
    + apply Forall_insert; [done|]. by eapply broadcast_length.
Qed.

Lemma setitem_row_at_eq d a b v d' :
  wf3 d → np.setitem_row d a b v = Some d' →
  row_at d' a b = np.broadcast (np.shape3 d).2 v.
Proof.
  unfold wf3, np.setitem_row, row_at.
  destruct (np.shape3 d) as [[n0 n1] n2] eqn:E. intros [Hlen Hall].
  case_decide as Hab; [|done]. destruct Hab as [Ha Hb].
  destruct (np.broadcast n2 v) as [row|] eqn:Hbr; simpl; [|done].
  intros [= <-]. simpl.
  destruct (lookup_lt_is_Some_2 (np.cells d) a) as [plane Hplane]; [lia|].
  rewrite list_lookup_alter_eq, Hplane. simpl.
  rewrite Forall_lookup in Hall. destruct (Hall _ _ Hplane) as [Hp _].
  rewrite Hbr. apply list_lookup_insert_eq. lia.
Qed.

Lemma setitem_row_at_ne d a b v d' a' b' :
  np.setitem_row d a b v = Some d' → (a, b) ≠ (a', b') →
  row_at d' a' b' = row_at d a' b'.
Proof.
  unfold np.setitem_row, row_at.
  destruct (np.shape3 d) as [[n0 n1] n2] eqn:E.
  case_decide as Hab; [|done].
  destruct (np.broadcast n2 v) as [row|] eqn:Hbr; simpl; [|done].
  intros [= <-] Hne. simpl.
  destruct (decide (a = a')) as [<-|Ha].
  - rewrite list_lookup_alter_eq. destruct (np.cells d !! a); simpl; [|done].
    apply list_lookup_insert_ne. congruence.
  - by rewrite list_lookup_alter_ne.
Qed.

(** ** The scatter loop *)

(** The case analysis of one iteration: every lookup that fails, and an
    assignment that raises, leave the volume as it is. *)
Ltac step_cases f inlines xlines inline_map xline_map i :=
  unfold scatter_step, target;
  destruct (inlines !! i) as [?il|]; simpl; [|done];
  destruct (xlines !! i) as [?xl|]; simpl; [|done];
  destruct (inline_map !! _) as [?a|]; simpl; [|done];
  destruct (xline_map !! _) as [?b|]; simpl; [|done];
  destruct (traces f !! i) as [?t|]; simpl; [|done];
  destruct (np.setitem_row _ _ _ _) eqn:?E; simpl; [|done].

Section scatter.
Context (f : segy_file) (inlines xlines : list Z)
        (inline_map xline_map : gmap Z nat).

Local Abbreviation step := (scatter_step f inlines xlines inline_map xline_map).
Local Abbreviation tgt := (target inlines xlines inline_map xline_map).

Lemma scatter_step_shape d i : np.shape3 (step d i) = np.shape3 d.
Proof.
  step_cases f inlines xlines inline_map xline_map i.
  by eapply setitem_row_shape.
Qed.

Lemma scatter_step_wf d i : wf3 d → wf3 (step d i).
Proof.
  intros Hwf. step_cases f inlines xlines inline_map xline_map i.
  by eapply wf3_setitem_row.
Qed.

Lemma scatter_step_other d i a b :
  tgt i ≠ Some (a, b) → row_at (step d i) a b = row_at d a b.
Proof.
  step_cases f inlines xlines inline_map xline_map i.
  intros Hne. eapply setitem_row_at_ne; [done|]. congruence.
Qed.

Lemma scatter_step_written d i a b t n0 n1 n2 :
  wf3 d → np.shape3 d = (n0, n1, n2) →
  tgt i = Some (a, b) → a < n0 → b < n1 →
  traces f !! i = Some t → length (trace_samples t) = n2 →
  row_at (step d i) a b = Some (np.nan_to_num (trace_samples t)).
Proof.
  intros Hwf Hshape Htgt Ha Hb Ht Hlen. revert Htgt.
  unfold scatter_step, target.
  destruct (inlines !! i) as [il|]; simpl; [|done].
  destruct (xlines !! i) as [xl|]; simpl; [|done].
  destruct (inline_map !! il) as [a'|]; simpl; [|done].
  destruct (xline_map !! xl) as [b'|]; simpl; [|done].
  intros [= -> ->]. rewrite Ht. simpl.
  assert (Hbr : np.broadcast n2 (np.nan_to_num (trace_samples t))
                = Some (np.nan_to_num (trace_samples t))).
  { unfold np.broadcast, np.nan_to_num. rewrite length_fmap.
    by rewrite decide_True. }
  destruct (np.setitem_row _ _ _ _) as [d'|] eqn:E; simpl.
  - erewrite setitem_row_at_eq by done. by rewrite Hshape.
  - exfalso. revert E. unfold np.setitem_row. rewrite Hshape.
    rewrite decide_True by done. by rewrite Hbr.
Qed.

Lemma foldl_step_shape js d : np.shape3 (foldl step d js) = np.shape3 d.
Proof.
  revert d. induction js as [|j js IH]; intros d; simpl; [done|].
  by rewrite IH, scatter_step_shape.
Qed.

Lemma foldl_step_wf js d : wf3 d → wf3 (foldl step d js).
Proof.
  revert d. induction js as [|j js IH]; intros d Hwf; simpl; [done|].
  by apply IH, scatter_step_wf.
Qed.

Lemma foldl_step_other js d a b :
  Forall (fun j => tgt j ≠ Some (a, b)) js →
  row_at (foldl step d js) a b = row_at d a b.
Proof.
  revert d. induction js as [|j js IH]; intros d Hall; simpl; [done|].
  inversion_clear Hall as [|?? Hj Hjs].
  by rewrite IH, scatter_step_other.
Qed.
End scatter.

(** ** Dictionaries and lookup tables *)

Section dict_of.
Context `{Countable K} {V : Type}.
Implicit Types (kvs : list (K * V)) (k : K) (v : V).

Lemma dict_of_snoc kvs kv :
  dict_of (kvs ++ [kv]) = <[kv.1 := kv.2]> (dict_of kvs).
Proof. unfold dict_of. by rewrite foldl_app. Qed.

Lemma dict_of_lookup_Some kvs k v :
  dict_of kvs !! k = Some v → (k, v) ∈ kvs.
Proof.
  induction kvs as [|[k' v'] kvs IH] using rev_ind; [done|].
  rewrite dict_of_snoc. simpl. rewrite lookup_insert.
  case_decide as Hk.
  - intros [= ->]. subst. apply elem_of_app. right. by apply list_elem_of_singleton.
  - intros Hl. apply elem_of_app. left. by apply IH.
Qed.

Lemma dict_of_is_Some kvs k :
  is_Some (dict_of kvs !! k) ↔ k ∈ kvs.*1.
Proof.
  induction kvs as [|[k' v'] kvs IH] using rev_ind.
  - unfold dict_of. simpl. rewrite lookup_empty. split; [by intros [??]|].
    by intros ?%elem_of_nil.
  - rewrite dict_of_snoc, fmap_app, elem_of_app. simpl.
    rewrite lookup_insert. case_decide as Hk.
    + subst. split; [|by intros _; eexists].
      intros _. right. by apply list_elem_of_singleton.
    + rewrite IH. split; [by left|]. intros [?|Hin]; [done|].
      apply list_elem_of_singleton in Hin. congruence.
Qed.

Lemma dict_of_size kvs : size (dict_of kvs) ≤ length kvs.
Proof.
  induction kvs as [|[k' v'] kvs IH] using rev_ind; [done|].
  rewrite dict_of_snoc, length_app. simpl.
  rewrite map_size_insert. destruct (dict_of kvs !! k'); simpl; unfold id; lia.
Qed.
End dict_of.

Lemma index_map_lookup l k a :
  index_map l !! k = Some a → l !! a = Some k.
Proof.
  unfold index_map. intros Hl%dict_of_lookup_Some.
  apply elem_of_lookup_imap in Hl as (i & y & [= -> ->] & Hi). done.
Qed.

(** ** Last writer wins *)

Lemma nan_to_num_sanitize v : np.nan_to_num v = sanitize v.
Proof.
  unfold np.nan_to_num, sanitize. apply list_fmap_ext.
  intros _ x _. by destruct x.
Qed.

(** C1.  The lookup tables are built from two axis lists and every trace
    has [n_samples] samples.  A trace whose inline and crossline are both
    in the tables is found in its cell after the loop, with its finite
    samples as they are and 0.0 in the place of every [nan] and infinity,
    unless a later trace is written to the same cell: the cell holds the
    last trace placed there.  A trace whose placement is missing from one
    of the tables leaves the cube as it is, and the loop goes on. *)
Theorem scatter_last_writer_wins
    (f : segy_file) (inlines xlines unique_inlines unique_xlines : list Z)
    (n_samples : nat) (i : nat) (t : trace) (inline xline : Z)
    (Hsamples : Forall (fun t => length (trace_samples t) = n_samples) (traces f))
    (Ht : traces f !! i = Some t)
    (Hil : inlines !! i = Some inline)
    (Hxl : xlines !! i = Some xline) :
  let inline_map := index_map unique_inlines in
  let xline_map := index_map unique_xlines in
  let zeros :=
    np.zeros (length unique_inlines, length unique_xlines, n_samples) in
  let cube := scatter f inlines xlines inline_map xline_map zeros in
  (∀ inline_idx xline_idx,
     inline_map !! inline = Some inline_idx →
     xline_map !! xline = Some xline_idx →
     (∀ j, i < j < length (traces f) →
           target inlines xlines inline_map xline_map j
           ≠ Some (inline_idx, xline_idx)) →
     row_at cube inline_idx xline_idx
     = Some (sanitize (trace_samples t)))
  ∧ (inline_map !! inline = None ∨ xline_map !! xline = None →
     ∀ data, scatter_step f inlines xlines inline_map xline_map data i = data).
Proof.
  intros inline_map xline_map zeros cube. split.
  - intros a b Ha Hb Hlast. rewrite <- nan_to_num_sanitize.
    assert (Hi : i < Nat.min (length (traces f)) (length inlines)).
    { apply lookup_lt_Some in Ht, Hil. lia. }
    unfold cube, scatter.
    set (n := Nat.min _ _) in *.
    replace (seq 0 n) with (seq 0 i ++ [i] ++ seq (S i) (n - S i)).
    2:{ replace n with (i + S (n - S i)) at 2 by lia.
        by rewrite seq_app. }
    rewrite !foldl_app. simpl.
    rewrite foldl_step_other.
    + apply (scatter_step_written f inlines xlines inline_map xline_map _ i a b
               t (length unique_inlines) (length unique_xlines) n_samples).
      * apply foldl_step_wf, wf3_zeros.
      * by rewrite foldl_step_shape.
      * unfold target. by rewrite Hil, Hxl; simpl; rewrite Ha; simpl; rewrite Hb.
      * apply index_map_lookup, lookup_lt_Some in Ha. done.
      * apply index_map_lookup, lookup_lt_Some in Hb. done.
      * done.
      * rewrite Forall_lookup in Hsamples. eauto.
    + apply Forall_forall. intros j Hj%elem_of_seq. apply Hlast. lia.
  - intros Habs data. unfold scatter_step. rewrite Hil, Hxl. simpl.
    destruct Habs as [-> | ->]; simpl; [done|].
    by destruct (inline_map !! inline).
Qed.

Lemma scatter_last_writer_wins_witness :
  let inlines := [1; 1; 1; 2; 2; 2; 3; 3; 3]%Z in
  let xlines := [10; 20; 30; 10; 20; 30; 10; 20; 30]%Z in
  let inline_map := index_map [1; 2; 3]%Z in
  let xline_map := index_map [10; 20; 30]%Z in
  let cube := scatter survey_3x3 inlines xlines inline_map xline_map
                (np.zeros (3, 3, 4)) in
  (∀ inline_idx xline_idx,
     inline_map !! 2%Z = Some inline_idx →
     xline_map !! 20%Z = Some xline_idx →
     (∀ j, 4 < j < 9 →
           target inlines xlines inline_map xline_map j
           ≠ Some (inline_idx, xline_idx)) →
     row_at cube inline_idx xline_idx
     = Some [Fin 5; Fin 6; Fin 0; Fin 0])
  ∧ (inline_map !! 2%Z = None ∨ xline_map !! 20%Z = None →
     ∀ data, scatter_step survey_3x3 inlines xlines inline_map xline_map data 4
             = data).
Proof.
  apply (scatter_last_writer_wins survey_3x3
           [1; 1; 1; 2; 2; 2; 3; 3; 3]%Z [10; 20; 30; 10; 20; 30; 10; 20; 30]%Z
           [1; 2; 3]%Z [10; 20; 30]%Z 4 4
           (grid_trace 2 20 200 200 (spiky 5)) 2 20).
  - apply (bool_decide_unpack _). vm_compute. exact I.
  - reflexivity.
  - reflexivity.
  - reflexivity.
Defined.

(** ** Finite values: minimum, maximum, mean, deviation *)

Lemma finite_inv x : finite x → ∃ q, x = Fin q.
Proof. destruct x; try done. eauto. Qed.

Lemma Forall_finite_inv l : Forall finite l → ∃ qs, l = Fin <$> qs.
Proof.
  induction 1 as [|x l Hx _ [qs ->]]; [by exists []|].
  apply finite_inv in Hx as [q ->]. by exists (q :: qs).
Qed.

Lemma nan_to_num1_finite x : finite (np.nan_to_num1 x).
Proof. by destruct x. Qed.

Lemma nan_to_num_finite v : Forall finite (np.nan_to_num v).
Proof. apply Forall_fmap, Forall_true. intros x. apply nan_to_num1_finite. Qed.

Lemma nan_to_num1_id x : finite x → np.nan_to_num1 x = x.
Proof. by destruct x. Qed.

Lemma foldl_minimum_Fin a qs :
  ∃ m, foldl np.minimum (Fin a) (Fin <$> qs) = Fin m ∧
       (m <= a)%Q ∧ Forall (fun x => (m <= x)%Q) qs ∧ (m = a ∨ m ∈ qs).
Proof.
  revert a. induction qs as [|x qs IH]; intros a; csimpl.
  - exists a. split; [done|]. split; [apply Qle_refl|]. split; [done|by left].
  - destruct (Qle_bool a x) eqn:E.
    + destruct (IH a) as (m & Hm & Hma & Hall & Hin).
      exists m. split; [done|]. split; [done|]. split.
      * constructor; [|done]. apply Qle_bool_iff in E. by eapply Qle_trans.
      * destruct Hin as [->|Hin]; [by left|]. right. by apply list_elem_of_further.
    + destruct (IH x) as (m & Hm & Hmx & Hall & Hin).
      exists m. split; [done|].
      assert (x <= a)%Q.
      { destruct (Qlt_le_dec a x) as [Hlt|Hle]; [|done].
        apply Qlt_le_weak, Qle_bool_iff in Hlt. congruence. }
      split; [by eapply Qle_trans|]. split; [by constructor|].
      right. destruct Hin as [->|Hin]; [apply list_elem_of_here|].
      by apply list_elem_of_further.
Qed.

Lemma foldl_maximum_Fin a qs :
  ∃ m, foldl np.maximum (Fin a) (Fin <$> qs) = Fin m ∧
       (a <= m)%Q ∧ Forall (fun x => (x <= m)%Q) qs ∧ (m = a ∨ m ∈ qs).
Proof.
  revert a. induction qs as [|x qs IH]; intros a; csimpl.
  - exists a. split; [done|]. split; [apply Qle_refl|]. split; [done|by left].
  - destruct (Qle_bool a x) eqn:E.
    + destruct (IH x) as (m & Hm & Hmx & Hall & Hin).
      exists m. split; [done|]. apply Qle_bool_iff in E.
      split; [by eapply Qle_trans|]. split; [by constructor|].
      right. destruct Hin as [->|Hin]; [apply list_elem_of_here|].
      by apply list_elem_of_further.
    + destruct (IH a) as (m & Hm & Hma & Hall & Hin).
      exists m. split; [done|]. split; [done|]. split.
      * constructor; [|done].
        assert (x <= a)%Q; [|by eapply Qle_trans].
        destruct (Qlt_le_dec a x) as [Hlt|Hle]; [|done].
        apply Qlt_le_weak, Qle_bool_iff in Hlt. congruence.
      * destruct Hin as [->|Hin]; [by left|]. right. by apply list_elem_of_further.
Qed.

Lemma np_min_Fin qs :
  qs ≠ [] →
  ∃ m, np.min (Fin <$> qs) = Some (Fin m) ∧ Forall (fun x => (m <= x)%Q) qs ∧ m ∈ qs.
Proof.
  destruct qs as [|a qs]; [done|]. intros _. csimpl.
  destruct (foldl_minimum_Fin a qs) as (m & -> & Hma & Hall & Hin).
  exists m. split; [done|]. split; [by constructor|].
  destruct Hin as [->|Hin]; [apply list_elem_of_here|by apply list_elem_of_further].
Qed.

Lemma np_max_Fin qs :
  qs ≠ [] →
  ∃ m, np.max (Fin <$> qs) = Some (Fin m) ∧ Forall (fun x => (x <= m)%Q) qs ∧ m ∈ qs.
Proof.
  destruct qs as [|a qs]; [done|]. intros _. csimpl.
  destruct (foldl_maximum_Fin a qs) as (m & -> & Hma & Hall & Hin).
  exists m. split; [done|]. split; [by constructor|].
  destruct Hin as [->|Hin]; [apply list_elem_of_here|by apply list_elem_of_further].
Qed.

(** ** Percentiles *)

Global Instance sort_le_trans : Transitive sort_le.
Proof.
  intros x y z. unfold sort_le, fle.
  destruct x as [a| | |], y as [b| | |], z as [c| | |]; try done.
  rewrite !Qle_bool_iff. apply Qle_trans.
Qed.

Global Instance sort_le_total : Total sort_le.
Proof.
  intros x y. unfold sort_le, fle.
  destruct x as [a| | |], y as [b| | |]; auto.
  rewrite !Qle_bool_iff. destruct (Qlt_le_dec a b) as [?%Qlt_le_weak|?]; auto.
Qed.









(** ** One run of [load_segy_file] *)

Lemma sorted_set_elem_of l x : x ∈ sorted_set l ↔ x ∈ l.
Proof.
  unfold sorted_set. rewrite merge_sort_Permutation. apply elem_of_remove_dups.
Qed.

Lemma sorted_set_nil l : sorted_set l = [] ↔ l = [].
Proof.
  split; [|by intros ->].
  destruct l as [|x l]; [done|]. intros Hs.
  assert (x ∈ sorted_set (x :: l)) as Hin
    by (apply sorted_set_elem_of, list_elem_of_here).
  rewrite Hs in Hin. by apply elem_of_nil in Hin.
Qed.

Lemma read_trace_headers_nil f : read_trace_headers f = [] ↔ traces f = [].
Proof.
  unfold read_trace_headers. split.
  - intros Hnil. apply (f_equal length) in Hnil. rewrite length_imap in Hnil.
    by apply length_zero_iff_nil.
  - by intros ->.
Qed.

Lemma fmap_nil_iff {A B} (g : A → B) (l : list A) : g <$> l = [] ↔ l = [].
Proof. split; [apply fmap_nil_inv|by intros ->]. Qed.

Lemma inline_axis_nil f : inline_axis f = [] ↔ traces f = [].
Proof.
  unfold inline_axis, inlines_of. rewrite sorted_set_nil, fmap_nil_iff.
  apply read_trace_headers_nil.
Qed.

Lemma xline_axis_nil f : xline_axis f = [] ↔ traces f = [].
Proof.
  unfold xline_axis, xlines_of. rewrite sorted_set_nil, fmap_nil_iff.
  apply read_trace_headers_nil.
Qed.

Lemma py_min_is_Some l : l ≠ [] → is_Some (py_min l).
Proof. destruct l; [done|]. by eexists. Qed.

Lemma py_max_is_Some l : l ≠ [] → is_Some (py_max l).
Proof. destruct l; [done|]. by eexists. Qed.

Lemma load_segy_file_unfold (memory : N) (opened : option segy_file)
    (self : processor) :
  load_segy_file memory opened self =
    match opened with
    | None => (Returns false, self)
    | Some f =>
        match traces f with
        | [] => (Returns false, self)
        | _ :: _ =>
            if volume_fits memory f then
              match amplitude_statistics (assemble f) with
              | Some stats => (Returns true, loaded_state f stats self)
              | None => (Returns false, assembled_state f self)
              end
            else (Returns false, located_state f self)
        end
    end.
Proof.
  destruct opened as [f|]; [|done].
  unfold load_segy_file, load_segy_file_body, try_except, segyio_open.
  unfold mbind, method_bind, bind, call, assign, attr, mret, method_ret, ret, raise.
  cbn [option_bind].
  destruct (traces f) as [|t ts] eqn:Ht.
  - by rewrite decide_True.
  - rewrite decide_False by done. cbn beta iota.
    fold (inlines_of f). fold (xlines_of f).
    fold (inline_axis f). fold (xline_axis f).
    assert (traces f ≠ []) as Hne by by rewrite Ht.
    destruct (py_min_is_Some (inline_axis f)) as [? ->];
      [by rewrite inline_axis_nil|].
    destruct (py_max_is_Some (inline_axis f)) as [? ->];
      [by rewrite inline_axis_nil|].
    destruct (py_min_is_Some (xline_axis f)) as [? ->];
      [by rewrite xline_axis_nil|].
    destruct (py_max_is_Some (xline_axis f)) as [? ->];
      [by rewrite xline_axis_nil|].
    unfold np.new_zeros. fold (volume_shape f). fold (volume_fits memory f).
    destruct (volume_fits memory f).
    + unfold volume_shape. fold (assemble f). fold (survey_geometry f).
      destruct (amplitude_statistics (assemble f)) eqn:Hst;
        destruct self; simpl; fold (assemble f); by rewrite Hst.
    + by destruct self.
Qed.

(** ** The assembled volume and its statistics *)

Lemma finite3_zeros shape : finite3 (np.zeros shape).
Proof.
  destruct shape as [[n0 n1] n2]. unfold finite3. simpl.
  do 3 apply Forall_replicate. done.
Qed.

Lemma broadcast_finite n v row :
  Forall finite v → np.broadcast n v = Some row → Forall finite row.
Proof.
  unfold np.broadcast. intros Hv. case_decide; [by intros [= <-]|].
  destruct v as [|x [|??]]; try done. intros [= <-].
  apply Forall_replicate. by inversion Hv.
Qed.

Lemma finite3_setitem_row d a b v d' :
  finite3 d → Forall finite v → np.setitem_row d a b v = Some d' → finite3 d'.
Proof.
  unfold finite3, np.setitem_row. destruct (np.shape3 d) as [[n0 n1] n2].
  intros Hd Hv. case_decide; [|done].
  destruct (np.broadcast n2 v) as [row|] eqn:Hb; simpl; [|done].
  intros [= <-]. simpl. apply Forall_alter; [done|].
  intros plane _ Hp. apply Forall_insert; [done|]. by eapply broadcast_finite.
Qed.

Lemma finite3_scatter_step f inlines xlines inline_map xline_map d i :
  finite3 d → finite3 (scatter_step f inlines xlines inline_map xline_map d i).
Proof.
  intros Hd. step_cases f inlines xlines inline_map xline_map i.
  eapply finite3_setitem_row; [done| |done]. apply nan_to_num_finite.
Qed.

Lemma finite3_scatter f inlines xlines inline_map xline_map d :
  finite3 d → finite3 (scatter f inlines xlines inline_map xline_map d).
Proof.
  unfold scatter. generalize (seq 0 (Nat.min (length (traces f)) (length inlines))).
  intros js. revert d. induction js as [|j js IH]; intros d Hd; simpl; [done|].
  by apply IH, finite3_scatter_step.
Qed.

Lemma finite3_assemble f : finite3 (assemble f).
Proof. apply finite3_scatter, finite3_zeros. Qed.

Lemma wf3_assemble f : wf3 (assemble f).
Proof. apply foldl_step_wf, wf3_zeros. Qed.

Lemma shape3_assemble f :
  np.shape3 (assemble f)
  = (length (inline_axis f), length (xline_axis f), length (samples f)).
Proof. unfold assemble, scatter. by rewrite foldl_step_shape. Qed.

Lemma length_concat_const {A} (ls : list (list A)) n :
  Forall (fun l => length l = n) ls → length (concat ls) = length ls * n.
Proof.
  induction 1 as [|l ls Hl _ IH]; simpl; [done|].
  rewrite length_app, IH. lia.
Qed.

Lemma length_ravel3 d n0 n1 n2 :
  wf3 d → np.shape3 d = (n0, n1, n2) → length (np.ravel3 d) = n0 * n1 * n2.
Proof.
  unfold wf3, np.ravel3. intros Hwf Hs. rewrite Hs in Hwf.
  destruct Hwf as [Hlen Hall].
  rewrite (length_concat_const _ n2).
  - rewrite (length_concat_const _ n1); [by rewrite Hlen|].
    eapply Forall_impl; [done|]. by intros ? [??].
  - apply Forall_concat. eapply Forall_impl; [done|]. by intros ? [??].
Qed.

Lemma concat_fmap_fmap {A B} (g : A → B) (ls : list (list A)) :
  concat ((fun l : list A => g <$> l) <$> ls) = g <$> concat ls.
Proof.
  induction ls as [|l ls IH]; csimpl; [done|]. by rewrite fmap_app, IH.
Qed.

Lemma ravel3_nan_to_num3 d :
  np.ravel3 (np.nan_to_num3 d) = np.nan_to_num (np.ravel3 d).
Proof.
  unfold np.ravel3, np.nan_to_num3, np.nan_to_num. simpl.
  rewrite <- concat_fmap_fmap. f_equal.
  by rewrite <- concat_fmap_fmap.
Qed.

Lemma amplitude_statistics_is_Some d :
  np.ravel3 d ≠ [] → is_Some (amplitude_statistics d).
Proof.
  intros Hne. unfold amplitude_statistics. rewrite ravel3_nan_to_num3.
  destruct (Forall_finite_inv _ (nan_to_num_finite (np.ravel3 d))) as [qs Hqs].
  rewrite Hqs.
  assert (qs ≠ []) as Hq.
  { intros ->. apply fmap_nil_inv in Hqs. done. }
  destruct (np_min_Fin qs Hq) as (m & -> & _).
  destruct (np_max_Fin qs Hq) as (M & -> & _). simpl. by eexists.
Qed.

Lemma amplitude_statistics_None d :
  np.ravel3 d = [] → amplitude_statistics d = None.
Proof.
  intros He. unfold amplitude_statistics. rewrite ravel3_nan_to_num3, He. done.
Qed.


(** ** The coordinate map *)

Lemma zip_fmap_diag {A B C} (g : A → B) (h : A → C) (l : list A) :
  zip (g <$> l) (h <$> l) = (fun e => (g e, h e)) <$> l.
Proof. induction l as [|a l IH]; csimpl; [done|]. by rewrite IH. Qed.

Lemma zip_fmap_snd {A B C} (h : B → C) (l : list A) (k : list B) :
  zip l (h <$> k) = (fun e => (e.1, h e.2)) <$> zip l k.
Proof.
  revert k. induction l as [|a l IH]; intros [|b k]; csimpl; try done.
  by rewrite IH.
Qed.

Lemma filter_fmap_fixed {A} (P : A → Prop) `{∀ x, Decision (P x)}
    (g : A → A) (l : list A) :
  (∀ e, P (g e) ↔ P e) → (∀ e, P e → g e = e) →
  filter P (g <$> l) = filter P l.
Proof.
  intros HP Hg. induction l as [|a l IH]; csimpl; [done|].
  rewrite !filter_cons. destruct (decide (P a)) as [Ha|Ha].
  - rewrite decide_True by by apply HP. by rewrite IH, Hg.
  - rewrite decide_False by by rewrite HP. done.
Qed.

Lemma has_xy_blank k xy : has_xy (k, blank_partial xy) ↔ has_xy (k, xy).
Proof.
  unfold has_xy, blank_partial. simpl. case_decide; simpl; [|done].
  split; [intros [? _]; done|]. intros [??]. tauto.
Qed.

Lemma blank_has_xy k xy : has_xy (k, xy) → blank_partial xy = xy.
Proof.
  unfold has_xy, blank_partial. simpl. intros [??].
  rewrite decide_False; [done|tauto].
Qed.

Lemma filter_blank_partial inlines xlines x_coords y_coords :
  filter has_xy
    (zip_coords inlines xlines
       ((fun xy => (blank_partial xy).1) <$> zip x_coords y_coords)
       ((fun xy => (blank_partial xy).2) <$> zip x_coords y_coords))
  = filter has_xy (zip_coords inlines xlines x_coords y_coords).
Proof.
  unfold zip_coords. rewrite zip_fmap_diag.
  rewrite (list_fmap_ext _ blank_partial (zip x_coords y_coords));
    [|by intros ? xy _; destruct (blank_partial xy)].
  rewrite zip_fmap_snd.
  apply (filter_fmap_fixed has_xy (fun e => (e.1, blank_partial e.2))).
  - intros [k xy]. apply has_xy_blank.
  - intros [k xy] Hxy. simpl. f_equal. by eapply blank_has_xy.
Qed.

(** C10.  A placement is in the coordinate map exactly when some trace
    with that placement has x and y both non-zero; replacing by (0, 0) the
    coordinates of every trace with a zero component changes neither the
    map, nor, hence, its size and the geometry computed from it. *)
Theorem partial_coordinates_ignored
    (inlines xlines x_coords y_coords unique_inlines unique_xlines : list Z) :
  let x_coords' := (fun xy => (blank_partial xy).1) <$> zip x_coords y_coords in
  let y_coords' := (fun xy => (blank_partial xy).2) <$> zip x_coords y_coords in
  let coord_map := build_coord_map inlines xlines x_coords y_coords in
  (∀ key, is_Some (coord_map !! key) ↔
     ∃ i x y, zip_coords inlines xlines x_coords y_coords !! i
              = Some (key, (x, y)) ∧ x ≠ 0%Z ∧ y ≠ 0%Z)
  ∧ build_coord_map inlines xlines x_coords' y_coords' = coord_map
  ∧ calculate_survey_geometry inlines xlines x_coords' y_coords'
                              unique_inlines unique_xlines
    = calculate_survey_geometry inlines xlines x_coords y_coords
                                unique_inlines unique_xlines.
Proof.
  intros x' y' coord_map.
  assert (Hmap : build_coord_map inlines xlines x' y' = coord_map).
  { unfold coord_map, build_coord_map, x', y'. by rewrite filter_blank_partial. }
  split; [|split; [done|]].
  - intros key. unfold coord_map, build_coord_map.
    rewrite dict_of_is_Some, list_elem_of_fmap. split.
    + intros ([k [x y]] & -> & Hin). apply list_elem_of_filter in Hin as [[Hx Hy] Hin].
      apply list_elem_of_lookup_1 in Hin as [i Hi]. exists i, x, y. done.
    + intros (i & x & y & Hi & Hx & Hy). exists (key, (x, y)). split; [done|].
      apply list_elem_of_filter. split; [done|]. by eapply list_elem_of_lookup_2.
  - unfold calculate_survey_geometry. by rewrite Hmap.
Qed.

(** ** The pair search *)

Lemma scan_pairs_not_found coord_map key1 key2 vals p :
  both_found p = false →
  (∀ v, v ∈ vals → both_found (coord_map !! key1 v, coord_map !! key2 v) = false) →
  both_found (scan_pairs coord_map key1 key2 vals p) = false.
Proof.
  revert p. induction vals as [|v vals IH]; intros p Hp Hall;
    cbn [scan_pairs]; [done|].
  rewrite (Hall v) by apply list_elem_of_here.
  apply IH; [apply Hall, list_elem_of_here|].
  intros w Hw. apply Hall. by apply list_elem_of_further.
Qed.

Lemma find_pair_not_found coord_map key1 key2 first vals :
  (∀ v, both_found (coord_map !! key1 v, coord_map !! key2 v) = false) →
  both_found (find_pair coord_map key1 key2 first vals) = false.
Proof.
  intros Hall. unfold find_pair. rewrite Hall.
  apply scan_pairs_not_found; [apply Hall|]. intros v _. apply Hall.
Qed.

Lemma azimuth_of_not_found default p :
  both_found p = false → azimuth_of default p = default.
Proof. by destruct p as [[?|] [?|]]. Qed.

Lemma both_found_is_Some (o1 o2 : option (Z * Z)) :
  both_found (o1, o2) = true ↔ is_Some o1 ∧ is_Some o2.
Proof.
  destruct o1, o2; simpl; split; try done; try (by intros [[??] [??]]).
Qed.

(** C8, amended.  With four mapped points or more, [has_coordinates] is
    true whether or not a pair was found; on an axis with two distinct
    values, when no two mapped points share the other line and differ on
    this one, the azimuth keeps its default: 0 for inline, 90 for
    crossline. *)
Theorem azimuth_defaults
    (inlines xlines x_coords y_coords unique_inlines unique_xlines : list Z)
    (min_il max_il min_xl max_xl : Z)
    (Hsize : 4 ≤ size (build_coord_map inlines xlines x_coords y_coords))
    (Hmin_il : py_min unique_inlines = Some min_il)
    (Hmax_il : py_max unique_inlines = Some max_il)
    (Hmin_xl : py_min unique_xlines = Some min_xl)
    (Hmax_xl : py_max unique_xlines = Some max_xl) :
  let coord_map := build_coord_map inlines xlines x_coords y_coords in
  let g := calculate_survey_geometry inlines xlines x_coords y_coords
             unique_inlines unique_xlines in
  has_coordinates g = true ∧
  (min_il ≠ max_il → ¬ inline_pair_exists coord_map →
   inline_azimuth g = Degrees 0) ∧
  (min_xl ≠ max_xl → ¬ xline_pair_exists coord_map →
   xline_azimuth g = Degrees 90).
Proof.
  intros coord_map g. unfold g, calculate_survey_geometry.
  rewrite decide_False by lia.
  rewrite Hmin_il, Hmax_il, Hmin_xl, Hmax_xl. simpl.
  split; [done|]. split.
  - intros Hne Hno. apply azimuth_of_not_found, find_pair_not_found.
    intros xl. apply not_true_is_false. rewrite both_found_is_Some.
    intros [H1 H2]. apply Hno. by exists min_il, max_il, xl.
  - intros Hne Hno. apply azimuth_of_not_found, find_pair_not_found.
    intros il. apply not_true_is_false. rewrite both_found_is_Some.
    intros [H1 H2]. apply Hno. by exists il, min_xl, max_xl.
Qed.

Lemma azimuth_defaults_witness :
  let g := calculate_survey_geometry diagonal_lines diagonal_lines
             diagonal_xy diagonal_xy diagonal_lines diagonal_lines in
  has_coordinates g = true ∧
  (1%Z ≠ 4%Z →
   ¬ inline_pair_exists
       (build_coord_map diagonal_lines diagonal_lines diagonal_xy diagonal_xy) →
   inline_azimuth g = Degrees 0) ∧
  (1%Z ≠ 4%Z →
   ¬ xline_pair_exists
       (build_coord_map diagonal_lines diagonal_lines diagonal_xy diagonal_xy) →
   xline_azimuth g = Degrees 90).
Proof.
  apply (azimuth_defaults diagonal_lines diagonal_lines diagonal_xy diagonal_xy
           diagonal_lines diagonal_lines 1 4 1 4).
  - vm_compute. lia.
  - reflexivity.
  - reflexivity.
  - reflexivity.
  - reflexivity.
Defined.

Lemma mapped_key inlines xlines x_coords y_coords key :
  is_Some (build_coord_map inlines xlines x_coords y_coords !! key) →
  key ∈ (filter has_xy (zip_coords inlines xlines x_coords y_coords)).*1.
Proof. unfold build_coord_map. by rewrite dict_of_is_Some. Qed.

Ltac key_in H :=
  repeat (apply elem_of_cons in H as [H|H]); [..|by apply elem_of_nil in H].

(** C8, as stated, fails.  Four mapped points on the diagonal of the grid:
    no pair on any line, both azimuths at their default, and
    [has_coordinates] is true all the same.  Four mapped points along one
    crossline: no two of them differ in crossline, and the crossline
    azimuth is the bearing of the null displacement, 0, not 90. *)
Lemma pair_search_claim_fails :
  ¬ pair_search_claim diagonal_lines diagonal_lines diagonal_xy diagonal_xy
      diagonal_lines diagonal_lines
  ∧ ¬ pair_search_claim diagonal_lines single_xlines diagonal_xy diagonal_xy
      diagonal_lines [7%Z].
Proof.
  split.
  - intros Hclaim. destruct Hclaim as (_ & _ & [Hiff _]); [vm_compute; lia|].
    destruct (Hiff eq_refl) as [(il1 & il2 & xl & Hne & H1 & H2)
                               |(il & xl1 & xl2 & Hne & H1 & H2)];
      apply mapped_key in H1, H2; vm_compute in H1, H2;
      key_in H1; key_in H2; by simplify_eq.
  - intros Hclaim. destruct Hclaim as (_ & Hx & _); [vm_compute; lia|].
    assert (Hno : ¬ xline_pair_exists
               (build_coord_map diagonal_lines single_xlines diagonal_xy diagonal_xy)).
    { intros (il & xl1 & xl2 & Hne & H1 & H2).
      apply mapped_key in H1, H2; vm_compute in H1, H2.
      key_in H1; key_in H2; by simplify_eq. }
    specialize (Hx Hno). vm_compute in Hx. discriminate.
Qed.

(** ** Placement of the traces *)

Lemma locate_fallback n i t :
  (∀ h inline xline, header t = Some h → INLINE_3D h = Some inline →
     CROSSLINE_3D h = Some xline → inline = 0%Z ∨ xline = 0%Z) →
  locate n i t = fallback_placement n i.
Proof.
  intros Hz. unfold locate.
  destruct (header t) as [h|]; [|done].
  destruct (INLINE_3D h) as [inline|] eqn:Ei; [|done].
  destruct (CROSSLINE_3D h) as [xline|] eqn:Ex; [|done].
  destruct (read_coords h) as [x y].
  destruct (Hz h inline xline eq_refl Ei Ex) as [-> | ->]; simpl; [done|].
  by rewrite andb_false_r.
Qed.

Lemma locate_header n i t h inline xline :
  header t = Some h → INLINE_3D h = Some inline → CROSSLINE_3D h = Some xline →
  inline ≠ 0%Z → xline ≠ 0%Z →
  locate n i t =
    {| p_inline := inline; p_xline := xline;
       p_x := (read_coords h).1; p_y := (read_coords h).2 |}.
Proof.
  intros Hh Hi Hx Hi0 Hx0. unfold locate. rewrite Hh, Hi, Hx.
  destruct (read_coords h) as [x y]. simpl.
  apply Z.eqb_neq in Hi0, Hx0. by rewrite Hi0, Hx0.
Qed.

(** C2.  Every trace gets a placement.  A trace whose inline and crossline
    header fields are both readable and non-zero keeps them; any other
    trace at position [i] is placed at [i div grid_size + 1],
    [i mod grid_size + 1], where [grid_size] is the integer square root of
    the number of traces (10 for 100 traces). *)
Theorem trace_placement (f : segy_file) (i : nat) (t : trace)
    (Ht : traces f !! i = Some t) :
  let total_trace_count := length (traces f) in
  let grid_size := grid_size total_trace_count in
  (grid_size * grid_size ≤ Z.of_nat total_trace_count
     < (grid_size + 1) * (grid_size + 1))%Z ∧
  length (read_trace_headers f) = total_trace_count ∧
  ∃ p, read_trace_headers f !! i = Some p ∧
    (∀ h inline xline,
       header t = Some h → INLINE_3D h = Some inline →
       CROSSLINE_3D h = Some xline → inline ≠ 0%Z → xline ≠ 0%Z →
       p_inline p = inline ∧ p_xline p = xline) ∧
    ((∀ h inline xline,
        header t = Some h → INLINE_3D h = Some inline →
        CROSSLINE_3D h = Some xline → inline = 0%Z ∨ xline = 0%Z) →
     p_inline p = (Z.of_nat i / grid_size + 1)%Z ∧
     p_xline p = (Z.of_nat i mod grid_size + 1)%Z ∧
     (total_trace_count = 100 →
      p_inline p = (Z.of_nat i / 10 + 1)%Z ∧
      p_xline p = (Z.of_nat i mod 10 + 1)%Z)).
Proof.
  intros n g. split; [|split].
  - unfold g, grid_size. pose proof (Z.sqrt_spec (Z.of_nat n)) as Hs.
    unfold Z.succ in Hs. apply Hs. lia.
  - unfold read_trace_headers. by rewrite length_imap.
  - exists (locate n i t). split.
    + unfold read_trace_headers. by rewrite list_lookup_imap, Ht.
    + split.
      * intros h inline xline Hh Hi Hx Hi0 Hx0.
        by rewrite (locate_header n i t h inline xline).
      * intros Hz. rewrite (locate_fallback n i t Hz). simpl.
        split; [done|]. split; [done|]. intros Hn. unfold g. by rewrite Hn.
Qed.

Lemma trace_placement_witness :
  let total_trace_count := 9 in
  let grid_size := grid_size total_trace_count in
  (grid_size * grid_size ≤ Z.of_nat total_trace_count
     < (grid_size + 1) * (grid_size + 1))%Z ∧
  length (read_trace_headers survey_3x3) = total_trace_count ∧
  ∃ p, read_trace_headers survey_3x3 !! 4 = Some p ∧
    (∀ h inline xline,
       header (grid_trace 2 20 200 200 (spiky 5)) = Some h →
       INLINE_3D h = Some inline → CROSSLINE_3D h = Some xline →
       inline ≠ 0%Z → xline ≠ 0%Z →
       p_inline p = inline ∧ p_xline p = xline) ∧
    ((∀ h inline xline,
        header (grid_trace 2 20 200 200 (spiky 5)) = Some h →
        INLINE_3D h = Some inline → CROSSLINE_3D h = Some xline →
        inline = 0%Z ∨ xline = 0%Z) →
     p_inline p = (Z.of_nat 4 / grid_size + 1)%Z ∧
     p_xline p = (Z.of_nat 4 mod grid_size + 1)%Z ∧
     (total_trace_count = 100 →
      p_inline p = (Z.of_nat 4 / 10 + 1)%Z ∧
      p_xline p = (Z.of_nat 4 mod 10 + 1)%Z)).
Proof.
  apply (trace_placement survey_3x3 4 (grid_trace 2 20 200 200 (spiky 5))).
  reflexivity.
Defined.

(** ** Too few coordinates *)

(** C7.  With fewer than four traces whose x and y are both non-zero the
    estimator returns azimuths 0 and 90 and [has_coordinates = False], as
    an ordinary result. *)
Theorem geometry_default_below_four
    (inlines xlines x_coords y_coords unique_inlines unique_xlines : list Z)
    (Hfew : length (filter has_xy (zip_coords inlines xlines x_coords y_coords))
            < 4) :
  calculate_survey_geometry inlines xlines x_coords y_coords
                            unique_inlines unique_xlines
  = {| inline_azimuth := Degrees 0; xline_azimuth := Degrees 90;
       has_coordinates := false |}.
Proof.
  unfold calculate_survey_geometry, build_coord_map.
  rewrite decide_True; [done|].
  eapply Nat.le_lt_trans; [apply dict_of_size|done].
Qed.

Lemma geometry_default_below_four_witness :
  calculate_survey_geometry [1; 1; 2]%Z [10; 20; 10]%Z [100; 100; 0]%Z
                            [100; 200; 50]%Z [1; 2]%Z [10; 20]%Z
  = {| inline_azimuth := Degrees 0; xline_azimuth := Degrees 90;
       has_coordinates := false |}.
Proof.
  apply geometry_default_below_four. vm_compute. lia.
Defined.

(** ** Failed and successful runs *)

Lemma load_succeeds_inv memory opened self self' :
  load_segy_file memory opened self = (Returns true, self') →
  ∃ f stats, opened = Some f ∧ traces f ≠ [] ∧
             amplitude_statistics (assemble f) = Some stats ∧
             self' = loaded_state f stats self.
Proof.
  rewrite load_segy_file_unfold. destruct opened as [f|]; [|done].
  destruct (traces f) as [|t ts] eqn:Ht; [done|].
  destruct (volume_fits memory f); [|done].
  destruct (amplitude_statistics (assemble f)) as [stats|] eqn:Hst; [|done].
  intros [= <-]. exists f, stats. by rewrite Ht.
Qed.

Lemma ravel3_assemble_nil f :
  np.ravel3 (assemble f) = [] ↔ traces f = [] ∨ samples f = [].
Proof.
  rewrite <- length_zero_iff_nil.
  rewrite (length_ravel3 _ _ _ _ (wf3_assemble f) (shape3_assemble f)).
  pose proof (inline_axis_nil f) as Hi. pose proof (xline_axis_nil f) as Hx.
  rewrite <- (length_zero_iff_nil (inline_axis f)) in Hi.
  rewrite <- (length_zero_iff_nil (xline_axis f)) in Hx.
  rewrite <- (length_zero_iff_nil (samples f)).
  split.
  - intros Hz. destruct (length (samples f)); [by right|].
    left. destruct (length (inline_axis f)); [by apply Hi|].
    apply Hx. lia.
  - intros [Ht|Hs].
    + apply Hi in Ht. rewrite Ht. lia.
    + rewrite Hs. lia.
Qed.

Lemma load_succeeds_fits memory f self self' :
  load_segy_file memory (Some f) self = (Returns true, self') →
  volume_fits memory f = true.
Proof.
  rewrite load_segy_file_unfold. destruct (traces f); [done|].
  by destruct (volume_fits memory f).
Qed.

Lemma statistics_raise_iff f :
  traces f ≠ [] →
  amplitude_statistics (assemble f) = None ↔ samples f = [].
Proof.
  intros Hne. split.
  - intros Hst.
    destruct (decide (np.ravel3 (assemble f) = [])) as [He|Hn].
    + apply ravel3_assemble_nil in He as [He|He]; done.
    + apply amplitude_statistics_is_Some in Hn as [? Hn]. congruence.
  - intros Hs. apply amplitude_statistics_None, ravel3_assemble_nil. by right.
Qed.

Lemma empty_volume_fits memory f : samples f = [] → volume_fits memory f = true.
Proof.
  intros Hs. unfold volume_fits, volume_shape, np.nbytes. rewrite Hs. simpl.
  apply N.leb_le. lia.
Qed.

(** C9, amended.  A run that fails has either not opened the file (it
    cannot be read, or holds no trace), and the processor is unchanged; or
    could not allocate the volume, and only the three coordinate axes are
    replaced, the volume, the ranges, the statistics, the geometry and the
    current indices being those of before; or found traces without
    samples, and the processor holds the new (empty) volume, axes, ranges
    and geometry next to the statistics and current indices of before. *)
Theorem failed_ingestion_state (memory : N) (opened : option segy_file)
    (self self' : processor)
    (Hfail : load_segy_file memory opened self = (Returns false, self')) :
  ((opened = None ∨ ∃ f, opened = Some f ∧ traces f = []) ∧ self' = self)
  ∨ (∃ f, opened = Some f ∧ traces f ≠ [] ∧
          volume_fits memory f = false ∧
          self' = located_state f self ∧
          sample_coords self' = Some (samples f) ∧
          inline_coords self' = Some (inline_axis f) ∧
          xline_coords self' = Some (xline_axis f) ∧
          data self' = data self ∧
          inline_range self' = inline_range self ∧
          xline_range self' = xline_range self ∧
          sample_range self' = sample_range self ∧
          amplitude_range self' = amplitude_range self ∧
          geometry self' = geometry self ∧
          current_inline_idx self' = current_inline_idx self ∧
          current_xline_idx self' = current_xline_idx self ∧
          current_sample_idx self' = current_sample_idx self)
  ∨ (∃ f, opened = Some f ∧ traces f ≠ [] ∧ samples f = [] ∧
          self' = assembled_state f self ∧
          data self' = Some (assemble f) ∧
          np.shape3 (assemble f)
          = (length (inline_axis f), length (xline_axis f), 0) ∧
          amplitude_range self' = amplitude_range self ∧
          current_inline_idx self' = current_inline_idx self ∧
          current_xline_idx self' = current_xline_idx self ∧
          current_sample_idx self' = current_sample_idx self).
Proof.
  revert Hfail. rewrite load_segy_file_unfold.
  destruct opened as [f|]; [|intros [= <-]; left; split; [by left|done]].
  destruct (traces f) as [|t ts] eqn:Ht.
  { intros [= <-]. left. split; [|done]. right. by exists f. }
  assert (traces f ≠ []) as Hne by by rewrite Ht.
  destruct (volume_fits memory f) eqn:Hfits.
  - destruct (amplitude_statistics (assemble f)) as [stats|] eqn:Hst; [done|].
    intros [= <-]. right; right. exists f.
    apply statistics_raise_iff in Hst; [|done].
    split; [done|]. split; [done|]. split; [done|]. split; [done|].
    split; [done|]. split; [by rewrite shape3_assemble, Hst|].
    by destruct self.
  - intros [= <-]. right; left. exists f.
    split; [done|]. split; [done|]. split; [done|]. split; [done|].
    by destruct self.
Qed.

Lemma failed_ingestion_state_witness :
  ((Some survey_3x3 = None ∨ ∃ f, Some survey_3x3 = Some f ∧ traces f = [])
   ∧ (load_segy_file cramped (Some survey_3x3) loaded_unnumbered).2
     = loaded_unnumbered)
  ∨ (∃ f, Some survey_3x3 = Some f ∧ traces f ≠ [] ∧
          volume_fits cramped f = false ∧
          (load_segy_file cramped (Some survey_3x3) loaded_unnumbered).2
          = located_state f loaded_unnumbered ∧
          sample_coords
            (load_segy_file cramped (Some survey_3x3) loaded_unnumbered).2
          = Some (samples f) ∧
          inline_coords
            (load_segy_file cramped (Some survey_3x3) loaded_unnumbered).2
          = Some (inline_axis f) ∧
          xline_coords
            (load_segy_file cramped (Some survey_3x3) loaded_unnumbered).2
          = Some (xline_axis f) ∧
          data (load_segy_file cramped (Some survey_3x3) loaded_unnumbered).2
          = data loaded_unnumbered ∧
          inline_range
            (load_segy_file cramped (Some survey_3x3) loaded_unnumbered).2
          = inline_range loaded_unnumbered ∧
          xline_range
            (load_segy_file cramped (Some survey_3x3) loaded_unnumbered).2
          = xline_range loaded_unnumbered ∧
          sample_range
            (load_segy_file cramped (Some survey_3x3) loaded_unnumbered).2
          = sample_range loaded_unnumbered ∧
          amplitude_range
            (load_segy_file cramped (Some survey_3x3) loaded_unnumbered).2
          = amplitude_range loaded_unnumbered ∧
          geometry
            (load_segy_file cramped (Some survey_3x3) loaded_unnumbered).2
          = geometry loaded_unnumbered ∧
          current_inline_idx
            (load_segy_file cramped (Some survey_3x3) loaded_unnumbered).2
          = current_inline_idx loaded_unnumbered ∧
          current_xline_idx
            (load_segy_file cramped (Some survey_3x3) loaded_unnumbered).2
          = current_xline_idx loaded_unnumbered ∧
          current_sample_idx
            (load_segy_file cramped (Some survey_3x3) loaded_unnumbered).2
          = current_sample_idx loaded_unnumbered)
  ∨ (∃ f, Some survey_3x3 = Some f ∧ traces f ≠ [] ∧ samples f = [] ∧
          (load_segy_file cramped (Some survey_3x3) loaded_unnumbered).2
          = assembled_state f loaded_unnumbered ∧
          data (load_segy_file cramped (Some survey_3x3) loaded_unnumbered).2
          = Some (assemble f) ∧
          np.shape3 (assemble f)
          = (length (inline_axis f), length (xline_axis f), 0) ∧
          amplitude_range
            (load_segy_file cramped (Some survey_3x3) loaded_unnumbered).2
          = amplitude_range loaded_unnumbered ∧
          current_inline_idx
            (load_segy_file cramped (Some survey_3x3) loaded_unnumbered).2
          = current_inline_idx loaded_unnumbered ∧
          current_xline_idx
            (load_segy_file cramped (Some survey_3x3) loaded_unnumbered).2
          = current_xline_idx loaded_unnumbered ∧
          current_sample_idx
            (load_segy_file cramped (Some survey_3x3) loaded_unnumbered).2
          = current_sample_idx loaded_unnumbered).
Proof.
  apply (failed_ingestion_state cramped (Some survey_3x3) loaded_unnumbered).
  vm_compute. reflexivity.
Defined.

(** C9, as stated, fails.  Loading a file whose trace has no samples into
    a fresh processor fails and leaves a volume behind. *)
Lemma failed_ingestion_changes_state :
  ¬ failed_ingestion_preserves_state plenty (Some no_samples) init.
Proof.
  intros Hclaim.
  specialize (Hclaim (load_segy_file plenty (Some no_samples) init).2).
  apply (f_equal data) in Hclaim; [|by vm_compute].
  vm_compute in Hclaim. discriminate.
Qed.

Lemma transpose_finite a :
  Forall (Forall finite) (np.rows a) → Forall (Forall finite) (np.rows (np.transpose a)).
Proof.
  intros Ha. unfold np.transpose. destruct (np.shape2 a) as [r c]. simpl.
  apply Forall_fmap, Forall_true. intros j. simpl.
  apply Forall_fmap. eapply Forall_impl; [done|]. intros row Hrow. simpl.
  destruct (row !! j) as [x|] eqn:Hx; simpl; [|done].
  rewrite Forall_lookup in Hrow. by eapply Hrow.
Qed.

Lemma nan_to_num2_finite a : Forall (Forall finite) (np.rows (np.nan_to_num2 a)).
Proof.
  unfold np.nan_to_num2. simpl. apply Forall_fmap, Forall_true.
  intros row. apply nan_to_num_finite.
Qed.








(** ** Planes and slices *)

Lemma normalize_index_nat dim i :
  i < dim → np.normalize_index dim (Z.of_nat i) = Some i.
Proof.
  intros Hi. unfold np.normalize_index. rewrite decide_True by lia.
  by rewrite Nat2Z.id.
Qed.

Lemma wf3_plane d n0 n1 n2 i plane :
  wf3 d → np.shape3 d = (n0, n1, n2) → np.cells d !! i = Some plane →
  length plane = n1 ∧ Forall (fun row : list float => length row = n2) plane.
Proof.
  unfold wf3. intros Hwf Hs Hp. rewrite Hs in Hwf. destruct Hwf as [_ Hall].
  rewrite Forall_lookup in Hall. by eapply Hall.
Qed.

Lemma transpose_rows_wf a r c :
  wf2 a → np.shape2 a = (r, c) →
  length (np.rows (np.transpose a)) = c ∧
  Forall (fun row => length row = r) (np.rows (np.transpose a)).
Proof.
  unfold wf2, np.transpose. intros Hwf Hs. rewrite Hs in *. simpl.
  destruct Hwf as [Hlen _]. split; [by rewrite length_fmap, length_seq|].
  apply Forall_fmap, Forall_true. intros j. simpl. by rewrite length_fmap.
Qed.

Lemma transpose_item a r c k j :
  wf2 a → np.shape2 a = (r, c) →
  item2 (np.rows (np.transpose a)) k j = item2 (np.rows a) j k.
Proof.
  unfold wf2, np.transpose, item2. intros Hwf Hs. rewrite Hs in *. simpl.
  destruct Hwf as [Hlen Hall].
  rewrite list_lookup_fmap. destruct (decide (k < c)) as [Hk|Hk].
  - rewrite lookup_seq_lt by done. simpl. rewrite list_lookup_fmap.
    destruct (np.rows a !! j) as [row|] eqn:Hrow; simpl; [|done].
    rewrite Forall_lookup in Hall. specialize (Hall _ _ Hrow).
    destruct (lookup_lt_is_Some_2 row k) as [x Hx]; [lia|]. by rewrite Hx.
  - rewrite lookup_seq_ge by lia. simpl.
    destruct (np.rows a !! j) as [row|] eqn:Hrow; simpl; [|done].
    rewrite Forall_lookup in Hall. specialize (Hall _ _ Hrow).
    symmetry. apply lookup_ge_None. lia.
Qed.

Lemma nan_to_num2_item a i j :
  item2 (np.rows (np.nan_to_num2 a)) i j = np.nan_to_num1 <$> item2 (np.rows a) i j.
Proof.
  unfold item2, np.nan_to_num2, np.nan_to_num. simpl.
  rewrite list_lookup_fmap. destruct (np.rows a !! i) as [row|]; simpl; [|done].
  by rewrite list_lookup_fmap.
Qed.

Lemma nan_to_num2_wf a : wf2 a → wf2 (np.nan_to_num2 a).
Proof.
  unfold wf2, np.nan_to_num2, np.nan_to_num. simpl.
  destruct (np.shape2 a) as [r c]. intros [Hlen Hall].
  split; [by rewrite length_fmap|].
  apply Forall_fmap. eapply Forall_impl; [done|]. intros row Hrow. simpl.
  by rewrite length_fmap.
Qed.

Section planes.
Context (d : np.ndarray3) (n0 n1 n2 : nat).
Context (Hwf : wf3 d) (Hshape : np.shape3 d = (n0, n1, n2)).

Lemma take0_spec i :
  i < n0 →
  ∃ a, np.take0 d (Z.of_nat i) = Some a ∧ wf2 a ∧ np.shape2 a = (n1, n2) ∧
       ∀ j k, item2 (np.rows a) j k = item3 d i j k.
Proof using Hwf Hshape.
  intros Hi. unfold np.take0. rewrite Hshape.
  rewrite normalize_index_nat by done. simpl.
  destruct (lookup_lt_is_Some_2 (np.cells d) i) as [plane Hp].
  { unfold wf3 in Hwf. rewrite Hshape in Hwf. lia. }
  rewrite Hp. simpl. eexists. split; [done|].
  destruct (wf3_plane d n0 n1 n2 i plane Hwf Hshape Hp) as [Hl Hall].
  split; [by unfold wf2|]. split; [done|].
  intros j k. unfold item2, item3, row_at. simpl. by rewrite Hp.
Qed.

Lemma take1_spec j :
  j < n1 →
  ∃ a, np.take1 d (Z.of_nat j) = Some a ∧ wf2 a ∧ np.shape2 a = (n0, n2) ∧
       ∀ i k, item2 (np.rows a) i k = item3 d i j k.
Proof using Hwf Hshape.
  intros Hj. unfold np.take1. rewrite Hshape.
  rewrite normalize_index_nat by done. simpl.
  assert (Hall : ∀ i plane, np.cells d !! i = Some plane →
            length plane = n1 ∧ Forall (fun row : list float => length row = n2) plane).
  { intros i plane. by apply (wf3_plane d n0 n1 n2). }
  destruct (mapM (fun plane : list (list float) => plane !! j) (np.cells d))
    as [rs|] eqn:Hrs.
  2:{ apply mapM_None in Hrs. apply Exists_exists in Hrs as (plane & Hin & Hn).
      apply list_elem_of_lookup_1 in Hin as [i Hi].
      destruct (Hall _ _ Hi) as [Hl _]. apply lookup_ge_None in Hn. lia. }
  simpl. eexists. split; [done|].
  apply mapM_Some in Hrs.
  assert (Hlen : length rs = n0).
  { rewrite <- (Forall2_length _ _ _ Hrs). unfold wf3 in Hwf.
    rewrite Hshape in Hwf. tauto. }
  split; [|split; [done|]].
  - unfold wf2. simpl. split; [done|]. apply Forall_lookup. intros i row Hrow.
    destruct (Forall2_lookup_r _ _ _ _ _ Hrs Hrow) as (plane & Hp & Hpj).
    destruct (Hall _ _ Hp) as [_ Hrows]. rewrite Forall_lookup in Hrows.
    by eapply Hrows.
  - intros i k. unfold item2, item3, row_at. simpl.
    destruct (np.cells d !! i) as [plane|] eqn:Hp; simpl.
    + destruct (Forall2_lookup_l _ _ _ _ _ Hrs Hp) as (row & Hrow & Hpj).
      by rewrite Hrow, Hpj.
    + rewrite (proj2 (lookup_ge_None rs i)); [done|].
      apply lookup_ge_None in Hp. rewrite <- (Forall2_length _ _ _ Hrs). done.
Qed.

Lemma take2_spec k :
  k < n2 →
  ∃ a, np.take2 d (Z.of_nat k) = Some a ∧ wf2 a ∧ np.shape2 a = (n0, n1) ∧
       ∀ i j, item2 (np.rows a) i j = item3 d i j k.
Proof using Hwf Hshape.
  intros Hk. unfold np.take2. rewrite Hshape.
  rewrite normalize_index_nat by done. simpl.
  assert (Hall : ∀ i plane, np.cells d !! i = Some plane →
            length plane = n1 ∧ Forall (fun row : list float => length row = n2) plane).
  { intros i plane. by apply (wf3_plane d n0 n1 n2). }
  destruct (mapM (mapM (fun row : list float => row !! k)) (np.cells d))
    as [rs|] eqn:Hrs.
  2:{ apply mapM_None in Hrs. apply Exists_exists in Hrs as (plane & Hin & Hn).
      apply list_elem_of_lookup_1 in Hin as [i Hi].
      destruct (Hall _ _ Hi) as [_ Hrows].
      apply mapM_None in Hn. apply Exists_exists in Hn as (row & Hin & Hn).
      rewrite Forall_forall in Hrows. specialize (Hrows _ Hin).
      apply lookup_ge_None in Hn. lia. }
  simpl. eexists. split; [done|].
  apply mapM_Some in Hrs.
  assert (Hlen : length rs = n0).
  { rewrite <- (Forall2_length _ _ _ Hrs). unfold wf3 in Hwf.
    rewrite Hshape in Hwf. tauto. }
  split; [|split; [done|]].
  - unfold wf2. simpl. split; [done|]. apply Forall_lookup. intros i row Hrow.
    destruct (Forall2_lookup_r _ _ _ _ _ Hrs Hrow) as (plane & Hp & Hpk).
    destruct (Hall _ _ Hp) as [Hl _]. apply length_mapM in Hpk. lia.
  - intros i j. unfold item2, item3, row_at. simpl.
    destruct (np.cells d !! i) as [plane|] eqn:Hp; simpl.
    + destruct (Forall2_lookup_l _ _ _ _ _ Hrs Hp) as (row & Hrow & Hpk).
      rewrite Hrow. simpl. apply mapM_Some in Hpk.
      destruct (plane !! j) as [r|] eqn:Hr; simpl.
      * destruct (Forall2_lookup_l _ _ _ _ _ Hpk Hr) as (x & Hx & Hrk).
        by rewrite Hx.
      * apply lookup_ge_None. apply lookup_ge_None in Hr.
        by rewrite <- (Forall2_length _ _ _ Hpk).
    + rewrite (proj2 (lookup_ge_None rs i)); [done|].
      apply lookup_ge_None in Hp. rewrite <- (Forall2_length _ _ _ Hrs). done.
Qed.
End planes.

Lemma finite3_item d i j k x : finite3 d → item3 d i j k = Some x → finite x.
Proof.
  unfold finite3, item3, row_at. intros Hd.
  destruct (np.cells d !! i) as [plane|] eqn:Hp; simpl; [|done].
  destruct (plane !! j) as [row|] eqn:Hr; simpl; [|done].
  intros Hx. rewrite Forall_lookup in Hd. specialize (Hd _ _ Hp).
  rewrite Forall_lookup in Hd. specialize (Hd _ _ Hr).
  rewrite Forall_lookup in Hd. by eapply Hd.
Qed.

Lemma nan_to_num1_item d i j k :
  finite3 d → np.nan_to_num1 <$> item3 d i j k = item3 d i j k.
Proof.
  intros Hd. destruct (item3 d i j k) as [x|] eqn:Hx; simpl; [|done].
  f_equal. apply nan_to_num1_id. by eapply finite3_item.
Qed.

Lemma np_min_is_Some l : l ≠ [] → is_Some (np.min l).
Proof. destruct l; [done|]. by eexists. Qed.

Lemma np_max_is_Some l : l ≠ [] → is_Some (np.max l).
Proof. destruct l; [done|]. by eexists. Qed.

Lemma ravel2_nonempty a r c :
  length (np.rows a) = r → Forall (fun row => length row = c) (np.rows a) →
  0 < r → 0 < c → np.ravel2 a ≠ [].
Proof.
  intros Hr Hc Hr0 Hc0 He. apply (f_equal length) in He.
  unfold np.ravel2 in He. rewrite (length_concat_const _ c) in He by done.
  simpl in He. nia.
Qed.

Section slices.
Context (self : processor) (d : np.ndarray3).
Context (inline_axis xline_axis : list Z) (sample_axis : list float).
Context (Hdata : data self = Some d).
Context (Hic : inline_coords self = Some inline_axis).
Context (Hxc : xline_coords self = Some xline_axis).
Context (Hsc : sample_coords self = Some sample_axis).
Context (Hwf : wf3 d) (Hfin : finite3 d).
Context (Hshape : np.shape3 d
                  = (length inline_axis, length xline_axis, length sample_axis)).
Context (Hn0 : 0 < length inline_axis) (Hn1 : 0 < length xline_axis)
        (Hn2 : 0 < length sample_axis).

Lemma inline_slice index :
  index < length inline_axis →
  ∃ r, get_slice_data self "inline" (Z.of_nat index) = Some r ∧
       length (sd_data r) = length sample_axis ∧
       Forall (fun row => length row = length xline_axis) (sd_data r) ∧
       sd_x r = IntAxis xline_axis ∧ sd_y r = FloatAxis sample_axis ∧
       ∀ k j, item2 (sd_data r) k j = item3 d index j k.
Proof using All.
  intros Hi.
  destruct (take0_spec d _ _ _ Hwf Hshape index Hi) as (a & Ha & Hwa & Hsa & Hitem).
  unfold get_slice_data. rewrite Hdata. simpl.
  rewrite Ha, Hxc, Hsc. simpl.
  set (oriented := np.transpose (np.nan_to_num2 a)).
  destruct (transpose_rows_wf (np.nan_to_num2 a) _ _ (nan_to_num2_wf a Hwa) Hsa)
    as [Hrows Hcols]. fold oriented in Hrows, Hcols.
  pose proof (ravel2_nonempty oriented _ _ Hrows Hcols Hn2 Hn1) as Hne.
  destruct (np_min_is_Some _ Hne) as [m ->].
  destruct (np_max_is_Some _ Hne) as [M ->]. simpl.
  eexists. split; [done|]. simpl.
  split; [done|]. split; [done|]. split; [done|]. split; [done|].
  intros k j. unfold oriented.
  rewrite (transpose_item _ _ _ k j (nan_to_num2_wf a Hwa) Hsa).
  by rewrite nan_to_num2_item, Hitem, nan_to_num1_item.
Qed.

Lemma xline_slice index :
  index < length xline_axis →
  ∃ r, get_slice_data self "xline" (Z.of_nat index) = Some r ∧
       length (sd_data r) = length sample_axis ∧
       Forall (fun row => length row = length inline_axis) (sd_data r) ∧
       sd_x r = IntAxis inline_axis ∧ sd_y r = FloatAxis sample_axis ∧
       ∀ k i, item2 (sd_data r) k i = item3 d i index k.
Proof using All.
  intros Hi.
  destruct (take1_spec d _ _ _ Hwf Hshape index Hi) as (a & Ha & Hwa & Hsa & Hitem).
  unfold get_slice_data. rewrite Hdata. simpl.
  rewrite Ha, Hic, Hsc. simpl.
  set (oriented := np.transpose (np.nan_to_num2 a)).
  destruct (transpose_rows_wf (np.nan_to_num2 a) _ _ (nan_to_num2_wf a Hwa) Hsa)
    as [Hrows Hcols]. fold oriented in Hrows, Hcols.
  pose proof (ravel2_nonempty oriented _ _ Hrows Hcols Hn2 Hn0) as Hne.
  destruct (np_min_is_Some _ Hne) as [m ->].
  destruct (np_max_is_Some _ Hne) as [M ->]. simpl.
  eexists. split; [done|]. simpl.
  split; [done|]. split; [done|]. split; [done|]. split; [done|].
  intros k i. unfold oriented.
  rewrite (transpose_item _ _ _ k i (nan_to_num2_wf a Hwa) Hsa).
  by rewrite nan_to_num2_item, Hitem, nan_to_num1_item.
Qed.

Lemma sample_slice index :
  index < length sample_axis →
  ∃ r, get_slice_data self "sample" (Z.of_nat index) = Some r ∧
       length (sd_data r) = length inline_axis ∧
       Forall (fun row => length row = length xline_axis) (sd_data r) ∧
       sd_x r = IntAxis inline_axis ∧ sd_y r = IntAxis xline_axis ∧
       ∀ i j, item2 (sd_data r) i j = item3 d i j index.
Proof using All.
  intros Hi.
  destruct (take2_spec d _ _ _ Hwf Hshape index Hi) as (a & Ha & Hwa & Hsa & Hitem).
  unfold get_slice_data. rewrite Hdata. simpl.
  rewrite Ha, Hic, Hxc. simpl.
  pose proof (nan_to_num2_wf a Hwa) as Hw. unfold wf2 in Hw.
  replace (np.shape2 (np.nan_to_num2 a)) with (np.shape2 a) in Hw by done.
  rewrite Hsa in Hw. destruct Hw as [Hrows Hcols].
  pose proof (ravel2_nonempty _ _ _ Hrows Hcols Hn0 Hn1) as Hne.
  destruct (np_min_is_Some _ Hne) as [m ->].
  destruct (np_max_is_Some _ Hne) as [M ->]. simpl.
  eexists. split; [done|]. cbn [sd_data sd_x sd_y].
  split; [done|]. split; [done|]. split; [done|]. split; [done|].
  intros i j.
  change (item2 (np.rows (np.nan_to_num2 a)) i j = item3 d i j index).
  by rewrite nan_to_num2_item, Hitem, nan_to_num1_item.
Qed.
End slices.

(** C3.  After a successful load, for every index within its axis: an
    inline slice has [sample_count] rows of [crossline_count] values, with
    axes (crossline axis, sample axis), and its entry [k][j] is the cube's
    [index][j][k]; a crossline slice has [sample_count] rows of
    [inline_count] values, with axes (inline axis, sample axis), and its
    entry [k][i] is the cube's [i][index][k]; a sample slice has
    [inline_count] rows of [crossline_count] values, with axes (inline
    axis, crossline axis), and its entry [i][j] is the cube's
    [i][j][index], not transposed. *)
Theorem slice_shapes_and_axes (memory : N)
    (opened : option segy_file)
    (self self' : processor)
    (Hload : load_segy_file memory opened self = (Returns true, self')) :
  ∃ cube inline_axis xline_axis sample_axis,
    data self' = Some cube ∧
    inline_coords self' = Some inline_axis ∧
    xline_coords self' = Some xline_axis ∧
    sample_coords self' = Some sample_axis ∧
    np.shape3 cube
    = (length inline_axis, length xline_axis, length sample_axis) ∧
    (∀ index, index < length inline_axis →
       ∃ r, get_slice_data self' "inline" (Z.of_nat index) = Some r ∧
            length (sd_data r) = length sample_axis ∧
            Forall (fun row => length row = length xline_axis) (sd_data r) ∧
            sd_x r = IntAxis xline_axis ∧ sd_y r = FloatAxis sample_axis ∧
            ∀ k j, item2 (sd_data r) k j = item3 cube index j k) ∧
    (∀ index, index < length xline_axis →
       ∃ r, get_slice_data self' "xline" (Z.of_nat index) = Some r ∧
            length (sd_data r) = length sample_axis ∧
            Forall (fun row => length row = length inline_axis) (sd_data r) ∧
            sd_x r = IntAxis inline_axis ∧ sd_y r = FloatAxis sample_axis ∧
            ∀ k i, item2 (sd_data r) k i = item3 cube i index k) ∧
    (∀ index, index < length sample_axis →
       ∃ r, get_slice_data self' "sample" (Z.of_nat index) = Some r ∧
            length (sd_data r) = length inline_axis ∧
            Forall (fun row => length row = length xline_axis) (sd_data r) ∧
            sd_x r = IntAxis inline_axis ∧ sd_y r = IntAxis xline_axis ∧
            ∀ i j, item2 (sd_data r) i j = item3 cube i j index).
Proof.
  apply load_succeeds_inv in Hload as (f & stats & -> & Hne & Hst & ->).
  assert (Hs : samples f ≠ []).
  { intros He. rewrite amplitude_statistics_None in Hst; [done|].
    apply ravel3_assemble_nil. by right. }
  assert (0 < length (inline_axis f)).
  { destruct (inline_axis f) eqn:E; [by apply inline_axis_nil in E|simpl; lia]. }
  assert (0 < length (xline_axis f)).
  { destruct (xline_axis f) eqn:E; [by apply xline_axis_nil in E|simpl; lia]. }
  assert (0 < length (samples f)).
  { destruct (samples f); [done|simpl; lia]. }
  exists (assemble f), (inline_axis f), (xline_axis f), (samples f).
  split; [by destruct self|]. split; [by destruct self|].
  split; [by destruct self|]. split; [by destruct self|].
  split; [apply shape3_assemble|].
  split; [|split].
  - intros index Hi. eapply inline_slice; try done;
      [by destruct self..|apply wf3_assemble|apply finite3_assemble
      |apply shape3_assemble].
  - intros index Hi. eapply xline_slice; try done;
      [by destruct self..|apply wf3_assemble|apply finite3_assemble
      |apply shape3_assemble].
  - intros index Hi. eapply sample_slice; try done;
      [by destruct self..|apply wf3_assemble|apply finite3_assemble
      |apply shape3_assemble].
Qed.

Lemma slice_shapes_and_axes_witness :
  ∃ cube inline_axis xline_axis sample_axis,
    data loaded_3x3 = Some cube ∧
    inline_coords loaded_3x3 = Some inline_axis ∧
    xline_coords loaded_3x3 = Some xline_axis ∧
    sample_coords loaded_3x3 = Some sample_axis ∧
    np.shape3 cube
    = (length inline_axis, length xline_axis, length sample_axis) ∧
    (∀ index, index < length inline_axis →
       ∃ r, get_slice_data loaded_3x3 "inline" (Z.of_nat index) = Some r ∧
            length (sd_data r) = length sample_axis ∧
            Forall (fun row => length row = length xline_axis) (sd_data r) ∧
            sd_x r = IntAxis xline_axis ∧ sd_y r = FloatAxis sample_axis ∧
            ∀ k j, item2 (sd_data r) k j = item3 cube index j k) ∧
    (∀ index, index < length xline_axis →
       ∃ r, get_slice_data loaded_3x3 "xline" (Z.of_nat index) = Some r ∧
            length (sd_data r) = length sample_axis ∧
            Forall (fun row => length row = length inline_axis) (sd_data r) ∧
            sd_x r = IntAxis inline_axis ∧ sd_y r = FloatAxis sample_axis ∧
            ∀ k i, item2 (sd_data r) k i = item3 cube i index k) ∧
    (∀ index, index < length sample_axis →
       ∃ r, get_slice_data loaded_3x3 "sample" (Z.of_nat index) = Some r ∧
            length (sd_data r) = length inline_axis ∧
            Forall (fun row => length row = length xline_axis) (sd_data r) ∧
            sd_x r = IntAxis inline_axis ∧ sd_y r = IntAxis xline_axis ∧
            ∀ i j, item2 (sd_data r) i j = item3 cube i j index).
Proof.
  apply (slice_shapes_and_axes plenty (Some survey_3x3) init loaded_3x3).
  vm_compute. reflexivity.
Defined.

(** ** The slice route *)

Lemma max_index_dimension d slice_type :
  max_index d slice_type = (dimension_length d slice_type - 1)%Z.
Proof.
  unfold max_index, dimension_length. destruct (np.shape3 d) as [[n0 n1] n2].
  by repeat case_decide.
Qed.

(** A volume without samples yields no inline and no crossline slice:
    the transposed plane is empty, and [np.min] raises on it. *)
Lemma empty_volume_slice_data self d n0 n1 slice_type index :
  data self = Some d → np.shape3 d = (n0, n1, 0) →
  slice_type = "inline" ∨ slice_type = "xline" →
  get_slice_data self slice_type index = None.
Proof.
  intros Hd Hs Hty. unfold get_slice_data. rewrite Hd. cbn [mbind option_bind].
  assert (∀ selected : option (np.ndarray2 * axis * axis),
            (∀ plane x y, selected = Some (plane, x, y) →
                          ∃ r, np.shape2 plane = (r, 0)) →
            (selected ≫= λ '(plane, x, y),
               let cleaned := np.nan_to_num2 plane in
               let oriented :=
                 if decide (slice_type = "inline" ∨ slice_type = "xline")
                 then np.transpose cleaned else cleaned in
               let flat := np.ravel2 oriented in
               let in_memory := np.ravel2 cleaned in
               np.min flat ≫= λ s_min, np.max flat ≫= λ s_max,
               Some {| sd_data := np.rows oriented; sd_x := x; sd_y := y;
                       sd_amplitude_stats :=
                         {| s_min := s_min; s_max := s_max;
                            s_mean := np.mean in_memory;
                            s_std := np.std in_memory |} |}) = None) as Hsel.
  { intros [[[plane x] y]|] Hplane; [|done].
    destruct (Hplane plane x y eq_refl) as [r Hr]. cbn [mbind option_bind].
    rewrite decide_True by done. cbv zeta.
    unfold np.transpose, np.nan_to_num2. cbn [np.shape2]. by rewrite Hr. }
  unfold select_plane.
  destruct Hty as [-> | ->].
  - rewrite decide_True by done. cbn [mbind option_bind]. apply Hsel.
    intros plane x y. unfold np.take0. rewrite Hs.
    destruct (np.normalize_index n0 index) as [i|]; [|done]. cbn [mbind option_bind].
    destruct (np.cells d !! i) as [pl|]; [|done]. cbn [mbind option_bind].
    destruct (xline_coords self); [|done]. cbn [mbind option_bind].
    destruct (sample_coords self); [|done]. cbn [mbind option_bind].
    intros [= <- _ _]. by exists n1.
  - rewrite decide_False by done. rewrite decide_True by done.
    cbn [mbind option_bind]. apply Hsel.
    intros plane x y. unfold np.take1. rewrite Hs.
    destruct (np.normalize_index n1 index) as [j|]; [|done]. cbn [mbind option_bind].
    destruct (mapM _ (np.cells d)) as [rs|]; [|done]. cbn [mbind option_bind].
    destruct (inline_coords self); [|done]. cbn [mbind option_bind].
    destruct (sample_coords self); [|done]. cbn [mbind option_bind].
    intros [= <- _ _]. by exists n0.
Qed.

Lemma failed_load_no_volume memory opened self self' :
  load_segy_file memory opened self = (Returns false, self') →
  data self = None →
  (∀ f, opened = Some f → traces f ≠ [] → samples f ≠ []) →
  data self' = None.
Proof.
  rewrite load_segy_file_unfold. intros Hfail Hnone Hfile. revert Hfail.
  destruct opened as [f|]; [|by intros [= <-]].
  destruct (traces f) as [|t ts] eqn:Ht; [by intros [= <-]|].
  assert (traces f ≠ []) as Hne by by rewrite Ht.
  destruct (volume_fits memory f).
  - destruct (amplitude_statistics (assemble f)) eqn:Hst; [done|].
    apply statistics_raise_iff in Hst; [|done]. by destruct (Hfile f).
  - intros [= <-]. by destruct self.
Qed.

(** C4, amended.  For one of the three slice types: a negative index
    matches no route and is answered with 'Endpoint not found'; when a
    volume is held, the request is answered with the out-of-bounds error
    exactly when the index is not negative and outside
    [0, dimension_length - 1], in particular for [dimension_length]; when
    no volume is held an index that is not negative is answered with
    'No cube data loaded', which is the case of a fresh processor and
    stays so after a run that fails unless the file has traces without
    samples; after a run that fails on such a file the empty volume is
    held, and an index that is not negative is answered with the
    out-of-bounds error when it is above [dimension_length - 1] (always,
    for a sample slice) and with 'Failed to get slice data' otherwise; and
    a request that returns slice data is one made on a held volume with
    an index in range. *)
Theorem slice_request_errors (processor : processor) (slice_type : string)
    (index : Z)
    (Hty : slice_type ∈ ["inline"; "xline"; "sample"]) :
  ((index < 0)%Z →
   get_slice processor slice_type index = Error 404 EndpointNotFound)
  ∧ (∀ cube, data processor = Some cube →
     let dimension_length := dimension_length cube slice_type in
     ((∃ max, get_slice processor slice_type index
              = Error 400 (IndexOutOfBounds index slice_type max))
      ↔ (0 ≤ index)%Z ∧ ¬ (0 ≤ index ≤ dimension_length - 1)%Z)
     ∧ (index = dimension_length →
        get_slice processor slice_type index
        = Error 400 (IndexOutOfBounds index slice_type (dimension_length - 1))))
  ∧ ((0 ≤ index)%Z → data processor = None →
     get_slice processor slice_type index = Error 400 NoCubeDataLoaded)
  ∧ ((0 ≤ index)%Z →
     get_slice init slice_type index = Error 400 NoCubeDataLoaded)
  ∧ (∀ memory opened self',
       (0 ≤ index)%Z → data processor = None →
       load_segy_file memory opened processor = (Returns false, self') →
       (∀ f, opened = Some f → traces f ≠ [] → samples f ≠ []) →
       get_slice self' slice_type index = Error 400 NoCubeDataLoaded)
  ∧ (∀ memory f self',
       (0 ≤ index)%Z →
       load_segy_file memory (Some f) processor = (Returns false, self') →
       traces f ≠ [] → samples f = [] →
       let dimension_length := dimension_length (assemble f) slice_type in
       data self' = Some (assemble f) ∧
       get_slice self' slice_type index =
         if decide (index > dimension_length - 1)%Z
         then Error 400 (IndexOutOfBounds index slice_type (dimension_length - 1))
         else Error 500 FailedToGetSliceData)
  ∧ (∀ body, get_slice processor slice_type index = Json body →
       ∃ cube, data processor = Some cube ∧
               (0 ≤ index ≤ dimension_length cube slice_type - 1)%Z).
Proof.
  assert (Hin : ¬ (slice_type ∉ ["inline"; "xline"; "sample"])) by tauto.
  assert (Hget : ∀ self, get_slice self slice_type index =
            if decide (index < 0)%Z then Error 404 EndpointNotFound
            else
            match data self with
            | None => Error 400 NoCubeDataLoaded
            | Some d =>
                let max := (dimension_length d slice_type - 1)%Z in
                if decide (index < 0 ∨ index > max)%Z
                then Error 400 (IndexOutOfBounds index slice_type max)
                else match get_slice_data self slice_type index with
                     | Some body => Json body
                     | None => Error 500 FailedToGetSliceData
                     end
            end).
  { intros self. unfold get_slice. destruct (decide (index < 0)%Z); [done|].
    rewrite decide_False by done.
    destruct (data self) as [d|]; [|done].
    by rewrite max_index_dimension. }
  assert (Hdim : ∀ cube, (0 ≤ dimension_length cube slice_type)%Z).
  { intros cube. unfold dimension_length.
    destruct (np.shape3 cube) as [[??]?]. repeat case_decide; lia. }
  split; [|split; [|split; [|split; [|split; [|split]]]]].
  - intros Hneg. rewrite Hget. by rewrite decide_True by done.
  - intros cube Hcube dim. rewrite Hget, Hcube. cbv zeta. fold dim.
    pose proof (Hdim cube) as Hd. fold dim in Hd.
    split; [split|].
    + intros [max Hr]. revert Hr.
      destruct (decide (index < 0)%Z) as [Hneg|Hpos]; [done|].
      destruct (decide (index < 0 ∨ index > dim - 1)%Z) as [Hout|Hok]; [lia|].
      by destruct (get_slice_data _ _ _).
    + intros [Hpos Hout]. rewrite decide_False by lia.
      rewrite decide_True by lia. eauto.
    + intros ->. rewrite decide_False by lia. by rewrite decide_True by lia.
  - intros Hpos Hnone. rewrite Hget, Hnone. by rewrite decide_False by lia.
  - intros Hpos. rewrite Hget. by rewrite decide_False by lia.
  - intros memory opened self' Hpos Hnone Hfail Hfile.
    rewrite Hget, decide_False by lia.
    by rewrite (failed_load_no_volume _ _ _ _ Hfail Hnone Hfile).
  - intros memory f self' Hpos Hfail Hne Hs dim.
    assert (self' = assembled_state f processor) as ->.
    { revert Hfail. rewrite load_segy_file_unfold.
      rewrite (empty_volume_fits memory f Hs).
      rewrite (proj2 (statistics_raise_iff f Hne) Hs).
      destruct (traces f) as [|t ts] eqn:Ht; [done|]. by intros [= <-]. }
    split; [done|].
    rewrite Hget, decide_False by lia. cbn [assembled_state data]. cbv zeta.
    fold dim. destruct (decide (index > dim - 1)%Z) as [Hout|Hok].
    + by rewrite decide_True by lia.
    + rewrite decide_False by lia.
      rewrite (empty_volume_slice_data _ (assemble f)
                 (length (inline_axis f)) (length (xline_axis f))); [done..| |].
      * by rewrite shape3_assemble, Hs.
      * unfold dim, dimension_length in Hok. rewrite shape3_assemble, Hs in Hok.
        rewrite !elem_of_cons in Hty.
        destruct Hty as [-> | [-> | [-> | Hty] ] ]; [by left|by right| |by inversion Hty].
        exfalso. revert Hok. rewrite decide_False by done.
        rewrite decide_False by done. simpl. lia.
  - intros body. rewrite Hget.
    destruct (decide (index < 0)%Z); [done|].
    destruct (data processor) as [cube|]; [|done]. cbv zeta.
    destruct (decide (index < 0 ∨ index > dimension_length cube slice_type - 1)%Z)
      as [Hout|Hok]; [done|].
    intros _. exists cube. split; [done|]. lia.
Qed.

Lemma slice_request_errors_witness :
  ((3 < 0)%Z →
   get_slice loaded_3x3 "xline" 3 = Error 404 EndpointNotFound)
  ∧ (∀ cube, data loaded_3x3 = Some cube →
     let dimension_length := dimension_length cube "xline" in
     ((∃ max, get_slice loaded_3x3 "xline" 3
              = Error 400 (IndexOutOfBounds 3 "xline" max))
      ↔ (0 ≤ 3)%Z ∧ ¬ (0 ≤ 3 ≤ dimension_length - 1)%Z)
     ∧ (3%Z = dimension_length →
        get_slice loaded_3x3 "xline" 3
        = Error 400 (IndexOutOfBounds 3 "xline" (dimension_length - 1))))
  ∧ ((0 ≤ 3)%Z → data loaded_3x3 = None →
     get_slice loaded_3x3 "xline" 3 = Error 400 NoCubeDataLoaded)
  ∧ ((0 ≤ 3)%Z →
     get_slice init "xline" 3 = Error 400 NoCubeDataLoaded)
  ∧ (∀ memory opened self',
       (0 ≤ 3)%Z → data loaded_3x3 = None →
       load_segy_file memory opened loaded_3x3 = (Returns false, self') →
       (∀ f, opened = Some f → traces f ≠ [] → samples f ≠ []) →
       get_slice self' "xline" 3 = Error 400 NoCubeDataLoaded)
  ∧ (∀ memory f self',
       (0 ≤ 3)%Z →
       load_segy_file memory (Some f) loaded_3x3 = (Returns false, self') →
       traces f ≠ [] → samples f = [] →
       let dimension_length := dimension_length (assemble f) "xline" in
       data self' = Some (assemble f) ∧
       get_slice self' "xline" 3 =
         if decide (3 > dimension_length - 1)%Z
         then Error 400 (IndexOutOfBounds 3 "xline" (dimension_length - 1))
         else Error 500 FailedToGetSliceData)
  ∧ (∀ body, get_slice loaded_3x3 "xline" 3 = Json body →
       ∃ cube, data loaded_3x3 = Some cube ∧
               (0 ≤ 3 ≤ dimension_length cube "xline" - 1)%Z).
Proof.
  apply (slice_request_errors loaded_3x3 "xline" 3).
  apply list_elem_of_further, list_elem_of_here.
Defined.

(** C4, as stated, fails.  A fresh processor is given a file whose single
    trace has no samples: the run fails, the empty volume stays, and the
    request for inline 0 is answered with 'Failed to get slice data'. *)
Lemma not_loaded_after_failed_run_fails :
  ¬ not_loaded_before_success (load_segy_file plenty (Some no_samples) init).2
      "inline" 0.
Proof.
  intros Hclaim. unfold not_loaded_before_success in Hclaim.
  assert (Hbefore :
    before_first_success (load_segy_file plenty (Some no_samples) init).2).
  { apply (bfs_failed plenty (Some no_samples) init); [apply bfs_init|].
    by vm_compute. }
  specialize (Hclaim Hbefore). vm_compute in Hclaim. discriminate.
Qed.

(** It fails for the index -1 too: on the loaded 3 x 3 survey the request
    for inline -1 is answered with 'Endpoint not found', status 404, not
    with the out-of-bounds error. *)
Lemma minus_one_matches_no_route :
  get_slice loaded_3x3 "inline" (-1) = Error 404 EndpointNotFound
  ∧ ¬ ∃ max, get_slice loaded_3x3 "inline" (-1)
             = Error 400 (IndexOutOfBounds (-1) "inline" max).
Proof. split; [done|]. by intros [max H]. Qed.

(** * Further properties *)

(** ** Axes and lookup tables *)
Lemma StronglySorted_le_NoDup_lt (l : list Z) :
  StronglySorted Z.le l → NoDup l → StronglySorted Z.lt l.
Proof.
  induction 1 as [|x l Hs IH Hall]; intros Hnd; [constructor|].
  apply NoDup_cons in Hnd as [Hx Hnd]. constructor; [by apply IH|].
  rewrite Forall_forall in Hall |- *. intros y Hy.
  specialize (Hall y Hy). assert (x ≠ y) by (intros ->; done). lia.
Qed.

Lemma sorted_set_NoDup l : NoDup (sorted_set l).
Proof.
  unfold sorted_set. rewrite merge_sort_Permutation. apply NoDup_remove_dups.
Qed.

Lemma sorted_set_sorted l : StronglySorted Z.lt (sorted_set l).
Proof.
  apply StronglySorted_le_NoDup_lt; [|apply sorted_set_NoDup].
  unfold sorted_set. apply StronglySorted_merge_sort; apply _.
Qed.

Lemma StronglySorted_lt_lookup (l : list Z) i j x y :
  StronglySorted Z.lt l → l !! i = Some x → l !! j = Some y →
  i < j → (x < y)%Z.
Proof.
  intros Hs. revert i j. induction Hs as [|z l Hs IH Hall]; intros i j Hi Hj Hij.
  - done.
  - destruct j as [|j]; [lia|]. destruct i as [|i]; simpl in *.
    + simplify_eq. rewrite Forall_lookup in Hall. by eapply Hall.
    + eapply IH; [done..|lia].
Qed.

Lemma index_map_NoDup l k i :
  NoDup l → index_map l !! k = Some i ↔ l !! i = Some k.
Proof.
  intros Hnd. split; [apply index_map_lookup|].
  intros Hi.
  destruct (index_map l !! k) as [j|] eqn:Hj.
  - apply index_map_lookup in Hj. f_equal. by eapply NoDup_lookup.
  - exfalso. assert (is_Some (index_map l !! k)) as [? ?]; [|congruence].
    unfold index_map. apply dict_of_is_Some. apply list_elem_of_fmap.
    exists (k, i). split; [done|]. apply elem_of_lookup_imap. eauto.
Qed.

(** X1. The lookup table built from an axis is the inverse of the axis:
    a value is mapped to an index exactly when the axis holds the value
    at that index, and a value has no entry exactly when it is not among
    the values the axis was built from. *)
Theorem lookup_table_inverts_axis (values : list Z) (value : Z) (idx : nat) :
  let axis := sorted_set values in
  (index_map axis !! value = Some idx ↔ axis !! idx = Some value)
  ∧ (index_map axis !! value = None ↔ value ∉ values).
Proof.
  intros axis. split; [apply index_map_NoDup, sorted_set_NoDup|].
  rewrite <- (sorted_set_elem_of values value). fold axis.
  rewrite eq_None_not_Some. apply not_iff_compat.
  unfold index_map. rewrite dict_of_is_Some, list_elem_of_fmap. split.
  - intros ([k' a] & -> & Hin). simpl.
    apply elem_of_lookup_imap in Hin as (i & y & [= -> ->] & Hi).
    by eapply list_elem_of_lookup_2.
  - intros Hin. apply list_elem_of_lookup_1 in Hin as [i Hi].
    exists (value, i). split; [done|]. apply elem_of_lookup_imap. eauto.
Qed.

(** X2. After a successful load the inline and the crossline axes,
    which are also the two ranges, are strictly increasing and hold
    exactly the inline and crossline numbers the traces were placed
    at. *)
Theorem axes_sorted_and_complete (memory : N)
    (opened : option segy_file)
    (self self' : processor)
    (Hload : load_segy_file memory opened self = (Returns true, self')) :
  ∃ f inline_axis xline_axis,
    opened = Some f ∧
    inline_coords self' = Some inline_axis ∧
    xline_coords self' = Some xline_axis ∧
    inline_range self' = Some inline_axis ∧
    xline_range self' = Some xline_axis ∧
    (∀ i j x y, inline_axis !! i = Some x → inline_axis !! j = Some y →
                i < j → (x < y)%Z) ∧
    (∀ i j x y, xline_axis !! i = Some x → xline_axis !! j = Some y →
                i < j → (x < y)%Z) ∧
    (∀ x, x ∈ inline_axis ↔
          ∃ p, p ∈ read_trace_headers f ∧ p_inline p = x) ∧
    (∀ x, x ∈ xline_axis ↔
          ∃ p, p ∈ read_trace_headers f ∧ p_xline p = x).
Proof.
  apply load_succeeds_inv in Hload as (f & stats & -> & Hne & Hst & ->).
  exists f, (inline_axis f), (xline_axis f).
  split; [done|]. do 4 (split; [by destruct self|]).
  split; [|split; [|split]].
  - intros i j x y. apply StronglySorted_lt_lookup, sorted_set_sorted.
  - intros i j x y. apply StronglySorted_lt_lookup, sorted_set_sorted.
  - intros x. unfold inline_axis, inlines_of.
    rewrite sorted_set_elem_of, list_elem_of_fmap.
    split; intros (p & ? & ?); by exists p.
  - intros x. unfold xline_axis, xlines_of.
    rewrite sorted_set_elem_of, list_elem_of_fmap.
    split; intros (p & ? & ?); by exists p.
Qed.

Lemma axes_sorted_and_complete_witness :
  ∃ f inline_axis xline_axis,
    Some survey_3x3 = Some f ∧
    inline_coords loaded_3x3 = Some inline_axis ∧
    xline_coords loaded_3x3 = Some xline_axis ∧
    inline_range loaded_3x3 = Some inline_axis ∧
    xline_range loaded_3x3 = Some xline_axis ∧
    (∀ i j x y, inline_axis !! i = Some x → inline_axis !! j = Some y →
                i < j → (x < y)%Z) ∧
    (∀ i j x y, xline_axis !! i = Some x → xline_axis !! j = Some y →
                i < j → (x < y)%Z) ∧
    (∀ x, x ∈ inline_axis ↔
          ∃ p, p ∈ read_trace_headers f ∧ p_inline p = x) ∧
    (∀ x, x ∈ xline_axis ↔
          ∃ p, p ∈ read_trace_headers f ∧ p_xline p = x).
Proof.
  apply (axes_sorted_and_complete plenty (Some survey_3x3) init loaded_3x3).
  vm_compute. reflexivity.
Defined.

(** ** When a load succeeds *)

(** X3. When [load_segy_file] returns, it returns [True] exactly when
    the file could be opened and has at least one trace and at least one
    sample, and the volume could be allocated. *)
Theorem load_returns_true_iff (memory : N)
    (opened : option segy_file) (self self' : processor) (success : bool)
    (Hrun : load_segy_file memory opened self = (Returns success, self')) :
  success = true ↔
  ∃ f, opened = Some f ∧ traces f ≠ [] ∧ samples f ≠ [] ∧
       volume_fits memory f = true.
Proof.
  revert Hrun. rewrite load_segy_file_unfold. destruct opened as [f|].
  2:{ intros [= <- _]. split; [done|]. by intros (? & ? & _). }
  destruct (decide (traces f = [])) as [Ht|Hne].
  { rewrite Ht. intros [= <- _]. split; [done|]. by intros (f' & [= <-] & ? & _). }
  pose proof (statistics_raise_iff f Hne) as Hraise.
  destruct (traces f) as [|t ts] eqn:Ht; [done|].
  destruct (volume_fits memory f) eqn:Hfits.
  - destruct (amplitude_statistics (assemble f)) as [stats|] eqn:Hst.
    + intros [= <- _]. split; [|done]. intros _. exists f.
      split; [done|]. split; [by rewrite Ht|]. split; [|done].
      intros Hs. by apply Hraise in Hs.
    + intros [= <- _]. split; [done|]. intros (f' & [= <-] & _ & Hs & _).
      destruct Hs. by apply Hraise.
  - intros [= <- _]. split; [done|]. intros (f' & [= <-] & _ & _ & Hf).
    congruence.
Qed.

Lemma load_returns_true_iff_witness :
  false = true ↔
  ∃ f, Some survey_3x3 = Some f ∧ traces f ≠ [] ∧ samples f ≠ [] ∧
       volume_fits cramped f = true.
Proof.
  apply (load_returns_true_iff cramped (Some survey_3x3) init
           (load_segy_file cramped (Some survey_3x3) init).2 false).
  vm_compute. reflexivity.
Defined.

(** X4. What a successful load stores does not depend on the processor
    it is run on: on any other processor the same file loads as well and
    gives the same volume, ranges, statistics, current indices, axes and
    geometry; the session and cube identifiers are left as they were. *)
Theorem successful_load_replaces_everything (memory : N)
    (opened : option segy_file)
    (self1 self2 self1' : processor)
    (Hload : load_segy_file memory opened self1 = (Returns true, self1')) :
  ∃ self2',
    load_segy_file memory opened self2 = (Returns true, self2') ∧
    data self2' = data self1' ∧
    inline_range self2' = inline_range self1' ∧
    xline_range self2' = xline_range self1' ∧
    sample_range self2' = sample_range self1' ∧
    amplitude_range self2' = amplitude_range self1' ∧
    current_inline_idx self2' = current_inline_idx self1' ∧
    current_xline_idx self2' = current_xline_idx self1' ∧
    current_sample_idx self2' = current_sample_idx self1' ∧
    inline_coords self2' = inline_coords self1' ∧
    xline_coords self2' = xline_coords self1' ∧
    sample_coords self2' = sample_coords self1' ∧
    geometry self2' = geometry self1' ∧
    session_id self2' = session_id self2 ∧
    cube_id self2' = cube_id self2.
Proof.
  pose proof Hload as Hrun.
  apply load_succeeds_inv in Hload as (f & stats & -> & Hne & Hst & ->).
  apply load_succeeds_fits in Hrun as Hfits.
  exists (loaded_state f stats self2). split.
  - rewrite load_segy_file_unfold. destruct (traces f); [done|].
    by rewrite Hfits, Hst.
  - by destruct self1, self2.
Qed.

Lemma successful_load_replaces_everything_witness :
  ∃ self2',
    load_segy_file plenty (Some survey_3x3) loaded_unnumbered = (Returns true, self2') ∧
    data self2' = data loaded_3x3 ∧
    inline_range self2' = inline_range loaded_3x3 ∧
    xline_range self2' = xline_range loaded_3x3 ∧
    sample_range self2' = sample_range loaded_3x3 ∧
    amplitude_range self2' = amplitude_range loaded_3x3 ∧
    current_inline_idx self2' = current_inline_idx loaded_3x3 ∧
    current_xline_idx self2' = current_xline_idx loaded_3x3 ∧
    current_sample_idx self2' = current_sample_idx loaded_3x3 ∧
    inline_coords self2' = inline_coords loaded_3x3 ∧
    xline_coords self2' = xline_coords loaded_3x3 ∧
    sample_coords self2' = sample_coords loaded_3x3 ∧
    geometry self2' = geometry loaded_3x3 ∧
    session_id self2' = session_id loaded_unnumbered ∧
    cube_id self2' = cube_id loaded_unnumbered.
Proof.
  apply (successful_load_replaces_everything plenty (Some survey_3x3) init
           loaded_unnumbered loaded_3x3).
  vm_compute. reflexivity.
Defined.

(** ** Cells of the volume *)

Lemma row_at_zeros n0 n1 n2 a b :
  a < n0 → b < n1 →
  row_at (np.zeros (n0, n1, n2)) a b = Some (replicate n2 (Fin 0)).
Proof.
  intros Ha Hb. unfold row_at. simpl.
  rewrite lookup_replicate_2 by done. simpl. by rewrite lookup_replicate_2.
Qed.

Section scatter_rows.
Context (f : segy_file) (inlines xlines : list Z)
        (inline_map xline_map : gmap Z nat) (n0 n1 n2 : nat).

Lemma scatter_row_untouched a b :
  a < n0 → b < n1 →
  (∀ j, target inlines xlines inline_map xline_map j ≠ Some (a, b)) →
  row_at (scatter f inlines xlines inline_map xline_map (np.zeros (n0, n1, n2)))
         a b
  = Some (replicate n2 (Fin 0)).
Proof.
  intros Ha Hb Hno. unfold scatter. rewrite foldl_step_other.
  - by apply row_at_zeros.
  - apply Forall_forall. intros j _. apply Hno.
Qed.

Lemma scatter_row_last i t a b :
  Forall (fun t => length (trace_samples t) = n2) (traces f) →
  traces f !! i = Some t → i < length inlines →
  target inlines xlines inline_map xline_map i = Some (a, b) →
  a < n0 → b < n1 →
  (∀ j, i < j < length (traces f) →
        target inlines xlines inline_map xline_map j ≠ Some (a, b)) →
  row_at (scatter f inlines xlines inline_map xline_map (np.zeros (n0, n1, n2)))
         a b
  = Some (np.nan_to_num (trace_samples t)).
Proof.
  intros Hsamples Ht Hil Htgt Ha Hb Hlast.
  assert (Hi : i < Nat.min (length (traces f)) (length inlines)).
  { apply lookup_lt_Some in Ht. lia. }
  unfold scatter. set (n := Nat.min _ _) in *.
  pose proof (wf3_zeros (n0, n1, n2)) as Hwf.
  assert (np.shape3 (np.zeros (n0, n1, n2)) = (n0, n1, n2)) as Hshape by done.
  generalize dependent (np.zeros (n0, n1, n2)). intros zeros Hwf Hshape.
  replace (seq 0 n) with (seq 0 i ++ [i] ++ seq (S i) (n - S i)).
  2:{ replace n with (i + S (n - S i)) at 2 by lia. by rewrite seq_app. }
  rewrite !foldl_app. simpl. rewrite foldl_step_other.
  - apply (scatter_step_written f inlines xlines inline_map xline_map _ i a b
             t n0 n1 n2); try done.
    + by apply foldl_step_wf.
    + by rewrite foldl_step_shape.
    + rewrite Forall_lookup in Hsamples. eauto.
  - apply Forall_forall. intros j Hj%elem_of_seq. apply Hlast. lia.
Qed.
End scatter_rows.

(** The cell a trace is written to in [load_segy_file]. *)
Lemma pipeline_target f j a b :
  target (inlines_of f) (xlines_of f)
         (index_map (inline_axis f)) (index_map (xline_axis f)) j = Some (a, b)
  ↔ ∃ q, read_trace_headers f !! j = Some q ∧
         inline_axis f !! a = Some (p_inline q) ∧
         xline_axis f !! b = Some (p_xline q).
Proof.
  unfold target, inlines_of, xlines_of. rewrite !list_lookup_fmap.
  destruct (read_trace_headers f !! j) as [q|]; simpl.
  2:{ split; [done|]. by intros (? & ? & _). }
  pose proof (index_map_NoDup (inline_axis f) (p_inline q)) as Hi.
  pose proof (index_map_NoDup (xline_axis f) (p_xline q)) as Hx.
  split.
  - destruct (index_map (inline_axis f) !! p_inline q) as [a'|] eqn:Ea;
      simpl; [|done].
    destruct (index_map (xline_axis f) !! p_xline q) as [b'|] eqn:Eb;
      simpl; [|done].
    intros [= -> ->]. exists q. split; [done|]. split.
    + by apply Hi; [apply sorted_set_NoDup|].
    + by apply Hx; [apply sorted_set_NoDup|].
  - intros (q' & [= <-] & Ha & Hb).
    apply Hi in Ha; [|apply sorted_set_NoDup].
    apply Hx in Hb; [|apply sorted_set_NoDup].
    by rewrite Ha; simpl; rewrite Hb.
Qed.

Lemma placement_on_axes f j q :
  read_trace_headers f !! j = Some q →
  ∃ a b, inline_axis f !! a = Some (p_inline q) ∧
         xline_axis f !! b = Some (p_xline q).
Proof.
  intros Hq.
  assert (p_inline q ∈ inline_axis f) as Ha.
  { apply sorted_set_elem_of, list_elem_of_fmap. exists q. split; [done|].
    by eapply list_elem_of_lookup_2. }
  assert (p_xline q ∈ xline_axis f) as Hb.
  { apply sorted_set_elem_of, list_elem_of_fmap. exists q. split; [done|].
    by eapply list_elem_of_lookup_2. }
  apply list_elem_of_lookup_1 in Ha as [a Ha].
  apply list_elem_of_lookup_1 in Hb as [b Hb]. eauto.
Qed.

Lemma assemble_row_last (f : segy_file) (i : nat) (t : trace) (p : placement) :
  Forall (fun t => length (trace_samples t) = length (samples f)) (traces f) →
  traces f !! i = Some t →
  read_trace_headers f !! i = Some p →
  (∀ j q, i < j → read_trace_headers f !! j = Some q →
          (p_inline q, p_xline q) ≠ (p_inline p, p_xline p)) →
  ∃ a b, inline_axis f !! a = Some (p_inline p) ∧
         xline_axis f !! b = Some (p_xline p) ∧
         row_at (assemble f) a b = Some (np.nan_to_num (trace_samples t)).
Proof.
  intros Hsamples Ht Hp Hlast.
  destruct (placement_on_axes f i p Hp) as (a & b & Ha & Hb).
  exists a, b. split; [done|]. split; [done|].
  unfold assemble. apply scatter_row_last with (i := i); try done.
  - unfold inlines_of. rewrite length_fmap. by apply lookup_lt_Some in Hp.
  - apply pipeline_target. eauto.
  - by apply lookup_lt_Some in Ha.
  - by apply lookup_lt_Some in Hb.
  - intros j Hj Htgt. apply pipeline_target in Htgt as (q & Hq & Hqa & Hqb).
    apply (Hlast j q); [lia|done|]. congruence.
Qed.

(** X5. A trace whose samples are as many as the file announces is
    stored, sanitised, in the cell at the axis positions of its inline
    and crossline, unless a later trace has the same line numbers. *)
Theorem ingested_trace_is_stored (memory : N) (f : segy_file)
    (self self' : processor)
    (i : nat) (t : trace) (p : placement)
    (Hload : load_segy_file memory (Some f) self = (Returns true, self'))
    (Hsamples : Forall (fun t => length (trace_samples t) = length (samples f))
                       (traces f))
    (Ht : traces f !! i = Some t)
    (Hp : read_trace_headers f !! i = Some p)
    (Hlast : ∀ j q, i < j → read_trace_headers f !! j = Some q →
                    (p_inline q, p_xline q) ≠ (p_inline p, p_xline p)) :
  ∃ cube inline_axis xline_axis a b,
    data self' = Some cube ∧
    inline_coords self' = Some inline_axis ∧
    xline_coords self' = Some xline_axis ∧
    inline_axis !! a = Some (p_inline p) ∧
    xline_axis !! b = Some (p_xline p) ∧
    row_at cube a b = Some (np.nan_to_num (trace_samples t)).
Proof.
  apply load_succeeds_inv in Hload as (f' & stats & [= <-] & Hne & Hst & ->).
  destruct (assemble_row_last f i t p Hsamples Ht Hp Hlast)
    as (a & b & Ha & Hb & Hrow).
  exists (assemble f), (inline_axis f), (xline_axis f), a, b.
  by do 3 (split; [by destruct self|]).
Qed.

Lemma ingested_trace_is_stored_witness :
  ∃ cube inline_axis xline_axis a b,
    data loaded_3x3 = Some cube ∧
    inline_coords loaded_3x3 = Some inline_axis ∧
    xline_coords loaded_3x3 = Some xline_axis ∧
    inline_axis !! a = Some 3%Z ∧
    xline_axis !! b = Some 30%Z ∧
    row_at cube a b = Some (np.nan_to_num (spiky 9)).
Proof.
  apply (ingested_trace_is_stored plenty survey_3x3 init loaded_3x3 8
           (grid_trace 3 30 300 300 (spiky 9))
           {| p_inline := 3; p_xline := 30; p_x := 300; p_y := 300 |}).
  - vm_compute. reflexivity.
  - repeat constructor.
  - reflexivity.
  - reflexivity.
  - intros j q Hj Hq. apply lookup_lt_Some in Hq. vm_compute in Hq. lia.
Defined.

(** X6. A cell whose inline and crossline no trace is placed at holds
    zeros after a successful load. *)
Theorem uncovered_cell_is_zero (memory : N) (f : segy_file)
    (self self' : processor)
    (a b : nat) (inline xline : Z)
    (Hload : load_segy_file memory (Some f) self = (Returns true, self'))
    (Ha : inline_axis f !! a = Some inline)
    (Hb : xline_axis f !! b = Some xline)
    (Hnone : ∀ q, q ∈ read_trace_headers f →
                  (p_inline q, p_xline q) ≠ (inline, xline)) :
  ∃ cube, data self' = Some cube ∧
          row_at cube a b = Some (replicate (length (samples f)) (Fin 0)).
Proof.
  apply load_succeeds_inv in Hload as (f' & stats & [= <-] & Hne & Hst & ->).
  exists (assemble f). split; [by destruct self|].
  unfold assemble. apply scatter_row_untouched.
  - by apply lookup_lt_Some in Ha.
  - by apply lookup_lt_Some in Hb.
  - intros j Htgt. apply pipeline_target in Htgt as (q & Hq & Hqa & Hqb).
    apply (Hnone q); [by eapply list_elem_of_lookup_2|]. congruence.
Qed.

Lemma uncovered_cell_is_zero_witness :
  ∃ cube, data loaded_unnumbered = Some cube ∧
          row_at cube 2 1 = Some (replicate (length (samples unnumbered_5)) (Fin 0)).
Proof.
  apply (uncovered_cell_is_zero plenty unnumbered_5 init loaded_unnumbered 2 1 3 2).
  - vm_compute. reflexivity.
  - reflexivity.
  - reflexivity.
  - intros q Hq. vm_compute in Hq.
    repeat (apply elem_of_cons in Hq as [-> | Hq]; [vm_compute; congruence|]).
    by apply elem_of_nil in Hq.
Defined.

(** ** Traces without line numbers *)

Lemma locate_without_line_numbers n i t :
  has_line_numbers t = false → locate n i t = fallback_placement n i.
Proof.
  unfold has_line_numbers, locate. destruct (header t) as [h|]; [|done].
  destruct (INLINE_3D h) as [il|]; [|done].
  destruct (CROSSLINE_3D h) as [xl|]; [|done].
  destruct (read_coords h). by intros ->.
Qed.

Lemma grid_size_pos n : 0 < n → (1 ≤ grid_size n)%Z.
Proof.
  intros Hn. unfold grid_size.
  assert (0 < Z.sqrt (Z.of_nat n))%Z; [|lia]. apply Z.sqrt_pos. lia.
Qed.

Lemma fallback_placement_inj (n_traces i j : nat) :
  0 < n_traces →
  p_inline (fallback_placement n_traces i)
  = p_inline (fallback_placement n_traces j) →
  p_xline (fallback_placement n_traces i)
  = p_xline (fallback_placement n_traces j) →
  i = j.
Proof.
  intros Hn. unfold fallback_placement. simpl.
  pose proof (grid_size_pos n_traces Hn) as Hg.
  set (g := grid_size n_traces) in *.
  pose proof (Z.div_mod (Z.of_nat i) g ltac:(lia)) as Hdi.
  pose proof (Z.div_mod (Z.of_nat j) g ltac:(lia)) as Hdj.
  intros Hil Hxl.
  assert (Z.of_nat i / g = Z.of_nat j / g)%Z as Hq by lia.
  assert (Z.of_nat i mod g = Z.of_nat j mod g)%Z as Hr by lia.
  rewrite Hq, Hr in Hdi. lia.
Qed.

(** X7. The fallback placement puts trace [i] of [n] on a grid of side
    [g], the integer square root of [n]: its crossline is between 1 and
    [g], its inline between 1 and [g + 2], its coordinates are (0, 0),
    and two traces never share a cell. *)
Theorem fallback_grid (n_traces i j : nat)
    (Hi : i < n_traces) (Hj : j < n_traces) :
  let p := fallback_placement n_traces i in
  let q := fallback_placement n_traces j in
  (1 ≤ p_xline p ≤ grid_size n_traces)%Z ∧
  (1 ≤ p_inline p ≤ grid_size n_traces + 2)%Z ∧
  (p_x p = 0 ∧ p_y p = 0)%Z ∧
  (p_inline p = p_inline q → p_xline p = p_xline q → i = j).
Proof.
  intros p q. split; [|split; [|split]].
  - unfold p, fallback_placement. simpl.
    pose proof (grid_size_pos n_traces ltac:(lia)) as Hg.
    pose proof (Z.mod_pos_bound (Z.of_nat i) (grid_size n_traces) ltac:(lia)).
    lia.
  - unfold p, fallback_placement. simpl.
    pose proof (grid_size_pos n_traces ltac:(lia)) as Hg.
    set (g := grid_size n_traces) in *.
    assert (Hs : (Z.of_nat n_traces < (g + 1) * (g + 1))%Z).
    { unfold g, grid_size. pose proof (Z.sqrt_spec (Z.of_nat n_traces)) as Hs.
      unfold Z.succ in Hs. apply Hs. lia. }
    assert (0 ≤ Z.of_nat i / g)%Z by (apply Z.div_pos; lia).
    assert (Z.of_nat i / g < g + 2)%Z; [|lia].
    apply Z.div_lt_upper_bound; [lia|]. nia.
  - done.
  - apply fallback_placement_inj. lia.
Qed.

Lemma fallback_grid_witness :
  let p := fallback_placement 5 3 in
  let q := fallback_placement 5 4 in
  (1 ≤ p_xline p ≤ grid_size 5)%Z ∧
  (1 ≤ p_inline p ≤ grid_size 5 + 2)%Z ∧
  (p_x p = 0 ∧ p_y p = 0)%Z ∧
  (p_inline p = p_inline q → p_xline p = p_xline q → 3 = 4).
Proof.
  apply (fallback_grid 5 3 4); lia.
Defined.

Lemma zip_coords_placements (ps : list placement) :
  zip_coords (p_inline <$> ps) (p_xline <$> ps) (p_x <$> ps) (p_y <$> ps)
  = (fun p => ((p_inline p, p_xline p), (p_x p, p_y p))) <$> ps.
Proof.
  unfold zip_coords. induction ps as [|p ps IH]; csimpl; [done|]. by rewrite IH.
Qed.

Lemma filter_imap_length {A B} (P : B → Prop) `{∀ x, Decision (P x)}
    (Q : A → bool) (g : nat → A → B) (l : list A) :
  (∀ i x, P (g i x) → Q x = true) →
  length (filter P (imap g l)) ≤ length (filter (fun x => Q x = true) l).
Proof.
  revert g. induction l as [|x l IH]; intros g Hg; [done|]. simpl.
  rewrite !filter_cons.
  specialize (IH (g ∘ S) (fun i => Hg (S i))).
  destruct (decide (P (g 0 x))) as [HP|HP].
  - rewrite decide_True by by eapply Hg. simpl. lia.
  - destruct (decide (Q x = true)); simpl; lia.
Qed.

Lemma coordinates_need_line_numbers n i t :
  (p_x (locate n i t) ≠ 0 ∧ p_y (locate n i t) ≠ 0)%Z →
  has_line_numbers t = true.
Proof.
  destruct (has_line_numbers t) eqn:E; [done|].
  rewrite locate_without_line_numbers by done. simpl. by intros [? _].
Qed.

(** X8. Coordinates are only kept for traces with line numbers: when
    fewer than four traces have them, a successful load stores the
    default geometry, whatever coordinates the headers carry. *)
Theorem geometry_needs_line_numbers (memory : N) (f : segy_file)
    (self self' : processor)
    (Hload : load_segy_file memory (Some f) self = (Returns true, self'))
    (Hfew : length (filter (fun t => has_line_numbers t = true) (traces f)) < 4) :
  geometry self'
  = Some {| inline_azimuth := Degrees 0; xline_azimuth := Degrees 90;
            has_coordinates := false |}.
Proof.
  apply load_succeeds_inv in Hload as (f' & stats & [= <-] & Hne & Hst & ->).
  replace (geometry (loaded_state f stats self)) with (Some (survey_geometry f))
    by by destruct self.
  f_equal. unfold survey_geometry, inlines_of, xlines_of,
    calculate_survey_geometry, build_coord_map.
  rewrite decide_True; [done|].
  eapply Nat.le_lt_trans; [apply dict_of_size|].
  eapply Nat.le_lt_trans; [|exact Hfew].
  rewrite zip_coords_placements. unfold read_trace_headers.
  rewrite fmap_imap.
  apply (filter_imap_length has_xy has_line_numbers).
  intros i t [Hx Hy]. simpl in *.
  by apply (coordinates_need_line_numbers (length (traces f)) i).
Qed.

Lemma geometry_needs_line_numbers_witness :
  geometry loaded_unnumbered
  = Some {| inline_azimuth := Degrees 0; xline_azimuth := Degrees 90;
            has_coordinates := false |}.
Proof.
  apply (geometry_needs_line_numbers plenty unnumbered_5 init loaded_unnumbered).
  - vm_compute. reflexivity.
  - vm_compute. lia.
Defined.

(** ** File names *)

Lemma lower_ascii_idemp c : lower_ascii (lower_ascii c) = lower_ascii c.
Proof. by destruct c as [[] [] [] [] [] [] [] []]. Qed.

Lemma lower_ascii_dot c :
  String.eqb (String (lower_ascii c) "") "." = String.eqb (String c "") ".".
Proof. by destruct c as [[] [] [] [] [] [] [] []]. Qed.

Lemma lower_idemp s : lower (lower s) = lower s.
Proof. induction s as [|c s IH]; simpl; [done|]. by rewrite lower_ascii_idemp, IH. Qed.

Lemma lower_app a b : lower (a +:+ b) = lower a +:+ lower b.
Proof. induction a as [|c a IH]; simpl; [done|]. by rewrite IH. Qed.

Lemma string_app_nil (s : string) : "" +:+ s = s.
Proof. done. Qed.

Lemma string_app_cons c (s t : string) : String c s +:+ t = String c (s +:+ t).
Proof. done. Qed.

Lemma after_last_dot_lower s :
  after_last_dot (lower s) = lower <$> after_last_dot s.
Proof.
  induction s as [|c s IH]; [done|].
  cbn [lower after_last_dot]. rewrite IH.
  destruct (after_last_dot s); [done|]. cbn [fmap option_fmap option_map].
  rewrite lower_ascii_dot. by destruct (String.eqb (String c "") ".").
Qed.

Lemma after_last_dot_app stem ext :
  after_last_dot ext = None →
  after_last_dot (stem +:+ "." +:+ ext) = Some ext.
Proof.
  intros Hext. induction stem as [|c stem IH].
  - rewrite string_app_nil, string_app_cons, string_app_nil.
    cbn [after_last_dot]. by rewrite Hext.
  - rewrite string_app_cons. cbn [after_last_dot]. by rewrite IH.
Qed.

Lemma after_last_dot_None s : after_last_dot s = None ↔ no_dot s.
Proof.
  split.
  - induction s as [|c s IH]; intros Hs pre post Heq.
    + by destruct pre.
    + cbn [after_last_dot] in Hs. destruct (after_last_dot s) eqn:E; [done|].
      destruct pre as [|c' pre]; simpl in Heq.
      * injection Heq as -> _. done.
      * injection Heq as -> Heq. by apply (IH eq_refl pre post).
  - intros Hs. destruct (after_last_dot s) as [ext|] eqn:E; [|done].
    exfalso. revert Hs E. induction s as [|c s IH]; intros Hs E; [done|].
    cbn [after_last_dot] in E. destruct (after_last_dot s) as [ext'|] eqn:E'.
    + apply IH; [|done]. intros pre post ->. by apply (Hs (String c pre) post).
    + destruct (String.eqb_spec (String c "") ".") as [Hc|]; [|done].
      injection Hc as ->. by apply (Hs "" s).
Qed.

Lemma after_last_dot_Some s ext :
  after_last_dot s = Some ext ↔
  ∃ stem, s = stem +:+ "." +:+ ext ∧ no_dot ext.
Proof.
  split.
  - revert ext. induction s as [|c s IH]; intros ext Hs; [done|].
    cbn [after_last_dot] in Hs. destruct (after_last_dot s) as [ext'|] eqn:E.
    + injection Hs as ->. destruct (IH ext eq_refl) as (stem & -> & Hno).
      by exists (String c stem).
    + destruct (String.eqb_spec (String c "") ".") as [Hc|]; [|done].
      injection Hc as ->. injection Hs as ->.
      exists "". split; [done|]. by apply after_last_dot_None.
  - intros (stem & -> & Hno). by apply after_last_dot_app, after_last_dot_None.
Qed.

Lemma endswith_spec s suffix :
  endswith s suffix = true ↔ ∃ pre, s = pre +:+ suffix.
Proof.
  split.
  - induction s as [|c s IH]; cbn [endswith]; intros H.
    + rewrite orb_false_r in H. apply String.eqb_eq in H as <-. by exists "".
    + apply orb_true_iff in H as [H|H].
      * apply String.eqb_eq in H as <-. by exists "".
      * destruct (IH H) as [pre ->]. by exists (String c pre).
  - intros [pre ->]. induction pre as [|c pre IH].
    + rewrite string_app_nil.
      destruct suffix; cbn [endswith]; by rewrite String.eqb_refl.
    + rewrite string_app_cons. cbn [endswith]. by rewrite IH, orb_true_r.
Qed.

Lemma allowed_file_lower filename :
  allowed_file filename =
  match after_last_dot (lower filename) with
  | Some ext => bool_decide (ext ∈ ALLOWED_EXTENSIONS)
  | None => false
  end.
Proof.
  unfold allowed_file. rewrite after_last_dot_lower.
  by destruct (after_last_dot filename).
Qed.

Lemma allowed_extension ext :
  ext ∈ ALLOWED_EXTENSIONS ↔ ext = "segy" ∨ ext = "sgy" ∨ ext = "zip".
Proof.
  unfold ALLOWED_EXTENSIONS. rewrite !elem_of_union, !elem_of_singleton. tauto.
Qed.

Lemma endswith_extension s ext :
  after_last_dot ext = None →
  endswith s ("." +:+ ext) = true ↔ after_last_dot s = Some ext.
Proof.
  intros Hext. rewrite endswith_spec, after_last_dot_Some. split.
  - intros [pre ->]. exists pre. split; [done|]. by apply after_last_dot_None.
  - intros (stem & -> & _). by exists stem.
Qed.

(** X9. [allowed_file] looks at what follows the last dot only, and
    ignores the case of its ASCII letters: a name is accepted exactly
    when it is [stem.ext] for an [ext] without a dot whose lowercase is
    one of segy, sgy and zip. *)
Theorem allowed_file_last_extension filename :
  (allowed_file filename = true ↔
   ∃ stem ext, filename = stem +:+ "." +:+ ext ∧ no_dot ext ∧
               (lower ext = "segy" ∨ lower ext = "sgy" ∨ lower ext = "zip")) ∧
  allowed_file (lower filename) = allowed_file filename.
Proof.
  split.
  - unfold allowed_file. split.
    + destruct (after_last_dot filename) as [ext|] eqn:E; [|done].
      intros H%bool_decide_eq_true_1%allowed_extension.
      apply after_last_dot_Some in E as (stem & -> & Hno).
      by exists stem, ext.
    + intros (stem & ext & -> & Hno & Hext).
      rewrite after_last_dot_app by by apply after_last_dot_None.
      by apply bool_decide_eq_true_2, allowed_extension.
  - by rewrite (allowed_file_lower (lower filename)), lower_idemp,
      <- allowed_file_lower.
Qed.

(** X10. The filter on the members of an archive agrees with the filter
    on uploads: a member is extracted exactly when [allowed_file]
    accepts its name and the name is not that of another archive. *)
Theorem segy_members_are_allowed_files filename :
  is_segy_name filename = true ↔
  allowed_file filename = true ∧ endswith (lower filename) ".zip" = false.
Proof.
  rewrite allowed_file_lower. unfold is_segy_name.
  change ".segy" with ("." +:+ "segy"). change ".sgy" with ("." +:+ "sgy").
  change ".zip" with ("." +:+ "zip").
  rewrite orb_true_iff, <- not_true_iff_false, !endswith_extension by done.
  destruct (after_last_dot (lower filename)) as [ext|].
  - rewrite bool_decide_eq_true, allowed_extension. split.
    + intros [H|H]; injection H as ->; (split; [tauto|by intros [=]]).
    + intros [ [-> | [-> | ->] ] Hzip]; [by left|by right|by destruct Hzip].
  - split; [by intros [?|?]|by intros [? _]].
Qed.

(** ** Archives *)

Lemma extract_members_acc members extract_to segy_files :
  extract_members members extract_to segy_files =
  segy_files ++ extract_members members extract_to [].
Proof.
  revert segy_files. induction members as [|m members IH]; intros acc; simpl.
  - by rewrite app_nil_r.
  - destruct (is_segy_name (zm_filename m)); [|done].
    destruct (zm_extracts m); [|by rewrite app_nil_r].
    rewrite (IH (acc ++ _)), (IH [_]). by rewrite <- app_assoc.
Qed.

(** X11. [extract_segy_files] returns, in the order of the archive, the
    joined paths of the members with a SEG-Y name that precede the first
    such member whose extraction fails (all of them when none fails),
    and nothing for a file that is not an archive. *)
Theorem extract_segy_files_spec archive extract_to :
  match archive with
  | Some members =>
      ∃ k, k ≤ length members ∧
        extract_segy_files archive extract_to =
          (λ m, os_path_join extract_to (zm_filename m)) <$>
          filter (λ m, is_segy_name (zm_filename m) = true) (take k members) ∧
        Forall (λ m, is_segy_name (zm_filename m) = true → zm_extracts m = true)
               (take k members) ∧
        (k < length members →
         ∃ m, members !! k = Some m ∧ is_segy_name (zm_filename m) = true ∧
              zm_extracts m = false)
  | None => extract_segy_files archive extract_to = []
  end.
Proof.
  destruct archive as [members|]; [|done]. simpl.
  induction members as [|m members (k & Hk & IH & Hall & Hfail)]; simpl.
  - exists 0. split; [done|]. split; [done|]. split; [done|]. simpl. lia.
  - destruct (is_segy_name (zm_filename m)) eqn:E.
    + destruct (zm_extracts m) eqn:E'.
      * exists (S k). simpl. rewrite filter_cons_True by done.
        rewrite extract_members_acc, IH.
        split; [lia|]. split; [done|]. split; [by constructor|].
        intros Hlt. apply Hfail. lia.
      * exists 0. simpl. split; [lia|]. split; [done|]. split; [done|].
        intros _. by exists m.
    + exists (S k). simpl. rewrite filter_cons_False by (by rewrite E).
      split; [lia|]. split; [done|]. split; [constructor; [by rewrite E|done]|].
      intros Hlt. apply Hfail. lia.
Qed.

(** ** Cube information *)

Lemma foldl_Zmin_spec a l :
  (foldl Z.min a l ≤ a)%Z ∧ Forall (fun x => (foldl Z.min a l ≤ x)%Z) l ∧
  (foldl Z.min a l = a ∨ foldl Z.min a l ∈ l).
Proof.
  revert a. induction l as [|x l IH]; intros a; simpl.
  - split; [lia|]. split; [done|by left].
  - destruct (IH (Z.min a x)) as (Hle & Hall & Hin).
    split; [lia|]. split; [constructor; [lia|done]|].
    destruct Hin as [Hin|Hin]; [|by right; apply list_elem_of_further].
    rewrite Hin. destruct (Z.min_spec a x) as [[_ ->]|[_ ->]];
      [by left|right; apply list_elem_of_here].
Qed.

Lemma foldl_Zmax_spec a l :
  (a ≤ foldl Z.max a l)%Z ∧ Forall (fun x => (x ≤ foldl Z.max a l)%Z) l ∧
  (foldl Z.max a l = a ∨ foldl Z.max a l ∈ l).
Proof.
  revert a. induction l as [|x l IH]; intros a; simpl.
  - split; [lia|]. split; [done|by left].
  - destruct (IH (Z.max a x)) as (Hle & Hall & Hin).
    split; [lia|]. split; [constructor; [lia|done]|].
    destruct Hin as [Hin|Hin]; [|by right; apply list_elem_of_further].
    rewrite Hin. destruct (Z.max_spec a x) as [[_ ->]|[_ ->]];
      [right; apply list_elem_of_here|by left].
Qed.

Lemma py_min_spec l m :
  py_min l = Some m → m ∈ l ∧ Forall (fun x => (m ≤ x)%Z) l.
Proof.
  destruct l as [|a l]; [done|]. intros [= <-].
  destruct (foldl_Zmin_spec a l) as (Hle & Hall & Hin). split.
  - destruct Hin as [->|Hin]; [apply list_elem_of_here|by apply list_elem_of_further].
  - by constructor.
Qed.

Lemma py_max_spec l m :
  py_max l = Some m → m ∈ l ∧ Forall (fun x => (x ≤ m)%Z) l.
Proof.
  destruct l as [|a l]; [done|]. intros [= <-].
  destruct (foldl_Zmax_spec a l) as (Hle & Hall & Hin). split.
  - destruct Hin as [->|Hin]; [apply list_elem_of_here|by apply list_elem_of_further].
  - by constructor.
Qed.

Lemma int_range_of_sorted_set l :
  l ≠ [] →
  ∃ r, int_range_of (sorted_set l) = Some r ∧
       ir_count r = length (remove_dups l) ∧
       ir_min r ∈ l ∧ ir_max r ∈ l ∧
       Forall (fun x => (ir_min r ≤ x ≤ ir_max r)%Z) l.
Proof.
  intros Hne.
  assert (sorted_set l ≠ []) as Hs.
  { intros He. destruct l as [|x l]; [done|].
    assert (x ∈ sorted_set (x :: l)) as Hx
      by apply sorted_set_elem_of, list_elem_of_here.
    rewrite He in Hx. by apply not_elem_of_nil in Hx. }
  destruct (py_min_is_Some _ Hs) as [lo Hlo].
  destruct (py_max_is_Some _ Hs) as [hi Hhi].
  unfold int_range_of. rewrite Hlo, Hhi. simpl. eexists. split; [done|]. simpl.
  apply py_min_spec in Hlo as [Hlo1 Hlo2]. apply py_max_spec in Hhi as [Hhi1 Hhi2].
  split.
  { unfold sorted_set. apply Permutation_length, merge_sort_Permutation. }
  split; [by apply sorted_set_elem_of|]. split; [by apply sorted_set_elem_of|].
  apply Forall_forall. intros x Hx%sorted_set_elem_of.
  rewrite Forall_forall in Hlo2, Hhi2. split; [by apply Hlo2|by apply Hhi2].
Qed.

Lemma load_succeeds_samples memory opened self self' :
  load_segy_file memory opened self = (Returns true, self') →
  ∃ f stats, opened = Some f ∧ traces f ≠ [] ∧ samples f ≠ [] ∧
             amplitude_statistics (assemble f) = Some stats ∧
             self' = loaded_state f stats self.
Proof.
  intros (f & stats & -> & Hne & Hst & ->)%load_succeeds_inv.
  exists f, stats. split; [done|]. split; [done|]. split; [|done].
  intros He. rewrite amplitude_statistics_None in Hst; [done|].
  apply ravel3_assemble_nil. by right.
Qed.

Lemma read_trace_headers_nil_iff f : read_trace_headers f = [] ↔ traces f = [].
Proof.
  unfold read_trace_headers. rewrite <- !length_zero_iff_nil.
  by rewrite length_imap.
Qed.

(** X12. After a successful load [/api/cube-info] answers with the
    information of the file just read: the shape is the three counts;
    the line ranges are attained by traces and bound the line numbers of
    all of them, and the counts are the numbers of distinct values; the
    statistics and the geometry are those the load stored; the size is
    that of 8-byte values. *)
Theorem cube_info_after_load (memory : N)
    (opened : option segy_file)
    (self self' : processor)
    (Hload : load_segy_file memory opened self = (Returns true, self')) :
  ∃ f info,
    opened = Some f ∧
    get_cube_info_route self' = InfoJson info ∧
    ci_shape info = [ir_count (ci_inline_range info);
                     ir_count (ci_xline_range info);
                     fr_count (ci_sample_range info)] ∧
    ir_count (ci_inline_range info) = length (remove_dups (inlines_of f)) ∧
    ir_count (ci_xline_range info) = length (remove_dups (xlines_of f)) ∧
    fr_count (ci_sample_range info) = length (samples f) ∧
    (∀ p, p ∈ read_trace_headers f →
       (ir_min (ci_inline_range info) ≤ p_inline p
        ≤ ir_max (ci_inline_range info))%Z ∧
       (ir_min (ci_xline_range info) ≤ p_xline p
        ≤ ir_max (ci_xline_range info))%Z) ∧
    (∃ p, p ∈ read_trace_headers f ∧ p_inline p = ir_min (ci_inline_range info)) ∧
    (∃ p, p ∈ read_trace_headers f ∧ p_inline p = ir_max (ci_inline_range info)) ∧
    (∃ p, p ∈ read_trace_headers f ∧ p_xline p = ir_min (ci_xline_range info)) ∧
    (∃ p, p ∈ read_trace_headers f ∧ p_xline p = ir_max (ci_xline_range info)) ∧
    is_Some (ci_amplitude_range info) ∧
    ci_amplitude_range info = amplitude_range self' ∧
    Some (ci_geometry info) = geometry self' ∧
    ci_memory_usage_mb info
    = Fin (inject_Z (Z.of_nat (ir_count (ci_inline_range info)
                               * ir_count (ci_xline_range info)
                               * fr_count (ci_sample_range info) * 8))
           / inject_Z (1024 ^ 2)).
Proof.
  apply load_succeeds_samples in Hload as (f & stats & -> & Hne & Hs & Hst & ->).
  assert (inlines_of f ≠ []) as Hi.
  { unfold inlines_of. intros He%fmap_nil_inv. by apply read_trace_headers_nil_iff in He. }
  assert (xlines_of f ≠ []) as Hx.
  { unfold xlines_of. intros He%fmap_nil_inv. by apply read_trace_headers_nil_iff in He. }
  destruct (int_range_of_sorted_set _ Hi) as (ri & Hri & Hci & Hmi & HMi & Hbi).
  destruct (int_range_of_sorted_set _ Hx) as (rx & Hrx & Hcx & Hmx & HMx & Hbx).
  destruct (np_min_is_Some _ Hs) as [lo Hlo].
  destruct (np_max_is_Some _ Hs) as [hi Hhi].
  assert (Hinfo : get_cube_info (loaded_state f stats self) =
    Some {| ci_shape := [length (inline_axis f); length (xline_axis f);
                         length (samples f)];
            ci_inline_range := ri; ci_xline_range := rx;
            ci_sample_range := {| fr_min := lo; fr_max := hi;
                                  fr_count := length (samples f) |};
            ci_amplitude_range := Some stats;
            ci_memory_usage_mb := memory_usage_mb (assemble f);
            ci_geometry := survey_geometry f |}).
  { unfold get_cube_info, loaded_state, assembled_state. destruct self. simpl.
    rewrite shape3_assemble. fold (inline_axis f) in Hri. fold (xline_axis f) in Hrx.
    rewrite Hri, Hrx. simpl. unfold float_range_of. rewrite Hlo, Hhi. done. }
  assert (Hlen_i : length (inline_axis f) = ir_count ri).
  { rewrite Hci. unfold inline_axis, sorted_set.
    apply Permutation_length, merge_sort_Permutation. }
  assert (Hlen_x : length (xline_axis f) = ir_count rx).
  { rewrite Hcx. unfold xline_axis, sorted_set.
    apply Permutation_length, merge_sort_Permutation. }
  eexists f, _. split; [done|].
  split; [unfold get_cube_info_route; by rewrite Hinfo|].
  cbn [ci_shape ci_inline_range ci_xline_range ci_sample_range
       ci_amplitude_range ci_memory_usage_mb ci_geometry fr_count].
  split; [by rewrite Hlen_i, Hlen_x|].
  split; [done|]. split; [done|]. split; [done|].
  split.
  { intros p Hp. rewrite Forall_forall in Hbi, Hbx. split.
    - apply Hbi. unfold inlines_of. apply list_elem_of_fmap. eauto.
    - apply Hbx. unfold xlines_of. apply list_elem_of_fmap. eauto. }
  unfold inlines_of in Hmi, HMi. unfold xlines_of in Hmx, HMx.
  apply list_elem_of_fmap in Hmi as (p1 & ? & ?), HMi as (p2 & ? & ?),
    Hmx as (p3 & ? & ?), HMx as (p4 & ? & ?).
  split; [by exists p1|]. split; [by exists p2|].
  split; [by exists p3|]. split; [by exists p4|].
  split; [done|]. split; [by destruct self|]. split; [by destruct self|].
  unfold memory_usage_mb. rewrite shape3_assemble. by rewrite Hlen_i, Hlen_x.
Qed.

Lemma cube_info_after_load_witness :
  ∃ f info,
    Some survey_3x3 = Some f ∧
    get_cube_info_route loaded_3x3 = InfoJson info ∧
    ci_shape info = [ir_count (ci_inline_range info);
                     ir_count (ci_xline_range info);
                     fr_count (ci_sample_range info)] ∧
    ir_count (ci_inline_range info) = length (remove_dups (inlines_of f)) ∧
    ir_count (ci_xline_range info) = length (remove_dups (xlines_of f)) ∧
    fr_count (ci_sample_range info) = length (samples f) ∧
    (∀ p, p ∈ read_trace_headers f →
       (ir_min (ci_inline_range info) ≤ p_inline p
        ≤ ir_max (ci_inline_range info))%Z ∧
       (ir_min (ci_xline_range info) ≤ p_xline p
        ≤ ir_max (ci_xline_range info))%Z) ∧
    (∃ p, p ∈ read_trace_headers f ∧ p_inline p = ir_min (ci_inline_range info)) ∧
    (∃ p, p ∈ read_trace_headers f ∧ p_inline p = ir_max (ci_inline_range info)) ∧
    (∃ p, p ∈ read_trace_headers f ∧ p_xline p = ir_min (ci_xline_range info)) ∧
    (∃ p, p ∈ read_trace_headers f ∧ p_xline p = ir_max (ci_xline_range info)) ∧
    is_Some (ci_amplitude_range info) ∧
    ci_amplitude_range info = amplitude_range loaded_3x3 ∧
    Some (ci_geometry info) = geometry loaded_3x3 ∧
    ci_memory_usage_mb info
    = Fin (inject_Z (Z.of_nat (ir_count (ci_inline_range info)
                               * ir_count (ci_xline_range info)
                               * fr_count (ci_sample_range info) * 8))
           / inject_Z (1024 ^ 2)).
Proof.
  apply (cube_info_after_load plenty (Some survey_3x3) init loaded_3x3).
  vm_compute. reflexivity.
Defined.

Lemma failed_load_cube_info memory opened self self' :
  load_segy_file memory opened self = (Returns false, self') →
  get_cube_info self' = get_cube_info self ∨ get_cube_info self' = None.
Proof.
  rewrite load_segy_file_unfold. destruct opened as [f|].
  2:{ intros [= <-]. by left. }
  destruct (traces f) as [|t ts] eqn:Ht.
  { intros [= <-]. by left. }
  destruct (volume_fits memory f).
  2:{ intros [= <-]. left. by destruct self. }
  destruct (amplitude_statistics (assemble f)) as [stats|] eqn:Hst; [done|].
  intros [= <-]. right.
  assert (samples f = []) as Hs.
  { destruct (decide (np.ravel3 (assemble f) = [])) as [He|Hn].
    - apply ravel3_assemble_nil in He as [He|He]; [congruence|done].
    - apply amplitude_statistics_is_Some in Hn as [? Hn]. congruence. }
  unfold get_cube_info, assembled_state. simpl.
  destruct (np.shape3 (assemble f)) as [[n0 n1] n2]. rewrite Hs.
  destruct (int_range_of (inline_axis f)); simpl; [|done].
  by destruct (int_range_of (xline_axis f)).
Qed.

(** X13. A run that fails never leaves a volume that [/api/cube-info]
    would describe in part: the answer is the one of before the run, or
    'No cube data loaded'. *)
Theorem failed_load_keeps_or_drops_cube_info (memory : N)
    (opened : option segy_file)
    (self self' : processor)
    (Hfail : load_segy_file memory opened self = (Returns false, self')) :
  get_cube_info_route self' = get_cube_info_route self ∨
  get_cube_info_route self' = InfoError 400 NoCubeDataLoaded.
Proof.
  unfold get_cube_info_route.
  destruct (failed_load_cube_info memory opened self self' Hfail) as [-> | ->];
    [by left|by right].
Qed.

Lemma failed_load_keeps_or_drops_cube_info_witness :
  get_cube_info_route (load_segy_file plenty (Some no_samples) loaded_3x3).2
  = get_cube_info_route loaded_3x3 ∨
  get_cube_info_route (load_segy_file plenty (Some no_samples) loaded_3x3).2
  = InfoError 400 NoCubeDataLoaded.
Proof.
  apply (failed_load_keeps_or_drops_cube_info plenty (Some no_samples) loaded_3x3).
  vm_compute. reflexivity.
Defined.

(** X14. Before the first successful run [/api/cube-info] is answered
    with 'No cube data loaded', whatever runs have failed. *)
Theorem no_cube_info_before_success (self : processor)
    (Hbefore : before_first_success self) :
  get_cube_info_route self = InfoError 400 NoCubeDataLoaded.
Proof.
  assert (get_cube_info self = None) as Hnone.
  { induction Hbefore as [|memory opened self self' _ IH Hfail]; [done|].
    destruct (failed_load_cube_info memory opened self self' Hfail) as [-> | ->]; done. }
  unfold get_cube_info_route. by rewrite Hnone.
Qed.

Lemma no_cube_info_before_success_witness :
  get_cube_info_route failed_no_samples = InfoError 400 NoCubeDataLoaded.
Proof.
  apply (no_cube_info_before_success failed_no_samples).
  apply (bfs_failed plenty (Some no_samples) init); [apply bfs_init|].
  vm_compute. reflexivity.
Defined.

(** ** Requests on a loaded volume *)

Lemma loaded_slice_data f stats self slice_type index :
  traces f ≠ [] → samples f ≠ [] →
  slice_type ∈ ["inline"; "xline"; "sample"] →
  (0 ≤ index < dimension_length (assemble f) slice_type)%Z →
  is_Some (get_slice_data (loaded_state f stats self) slice_type index).
Proof.
  intros Hne Hs Hty Hidx.
  assert (0 < length (inline_axis f)).
  { destruct (inline_axis f) eqn:E; [by apply inline_axis_nil in E|simpl; lia]. }
  assert (0 < length (xline_axis f)).
  { destruct (xline_axis f) eqn:E; [by apply xline_axis_nil in E|simpl; lia]. }
  assert (0 < length (samples f)).
  { destruct (samples f); [done|simpl; lia]. }
  unfold dimension_length in Hidx. rewrite shape3_assemble in Hidx.
  rewrite <- (Z2Nat.id index) by lia.
  apply elem_of_cons in Hty as [->|Hty];
    [|apply elem_of_cons in Hty as [->|Hty];
      [|apply elem_of_cons in Hty as [->|Hty];
        [|by apply not_elem_of_nil in Hty]]].
  - rewrite decide_True in Hidx by done.
    edestruct (inline_slice (loaded_state f stats self) (assemble f)
                 (inline_axis f) (xline_axis f) (samples f))
      as (r & -> & _); try done;
      [by destruct self..|apply wf3_assemble|apply finite3_assemble
      |apply shape3_assemble|lia].
  - rewrite decide_False, decide_True in Hidx by done.
    edestruct (xline_slice (loaded_state f stats self) (assemble f)
                 (inline_axis f) (xline_axis f) (samples f))
      as (r & -> & _); try done;
      [by destruct self..|apply wf3_assemble|apply finite3_assemble
      |apply shape3_assemble|lia].
  - rewrite !decide_False in Hidx by done.
    edestruct (sample_slice (loaded_state f stats self) (assemble f)
                 (inline_axis f) (xline_axis f) (samples f))
      as (r & -> & _); try done;
      [by destruct self..|apply wf3_assemble|apply finite3_assemble
      |apply shape3_assemble|lia].
Qed.

Lemma get_slice_in_range self d slice_type index :
  slice_type ∈ ["inline"; "xline"; "sample"] →
  data self = Some d →
  (0 ≤ index < dimension_length d slice_type)%Z →
  get_slice self slice_type index =
    match get_slice_data self slice_type index with
    | Some body => Json body
    | None => Error 500 FailedToGetSliceData
    end.
Proof.
  intros Hty Hd Hidx. unfold get_slice.
  rewrite decide_False by lia.
  rewrite decide_False by tauto. rewrite Hd. cbv zeta.
  rewrite max_index_dimension. by rewrite decide_False by lia.
Qed.

Lemma half_lt n : 0 < n → n / 2 < n.
Proof. intros Hn. apply Nat.div_lt; lia. Qed.

(** X15. After a successful load the slice route answers every request
    for one of the three slice types and an index within the axis with
    the slice that [get_slice_data] returns, never with an error; and
    the stored current indices are within their axes. *)
Theorem loaded_requests_succeed (memory : N)
    (opened : option segy_file)
    (self self' : processor)
    (Hload : load_segy_file memory opened self = (Returns true, self')) :
  ∃ cube,
    data self' = Some cube ∧
    (∀ slice_type index,
       slice_type ∈ ["inline"; "xline"; "sample"] →
       (0 ≤ index < dimension_length cube slice_type)%Z →
       ∃ body, get_slice self' slice_type index = Json body ∧
               get_slice_data self' slice_type index = Some body) ∧
    (Z.of_nat (current_inline_idx self') < dimension_length cube "inline")%Z ∧
    (Z.of_nat (current_xline_idx self') < dimension_length cube "xline")%Z ∧
    (Z.of_nat (current_sample_idx self') < dimension_length cube "sample")%Z.
Proof.
  apply load_succeeds_samples in Hload as (f & stats & -> & Hne & Hs & Hst & ->).
  exists (assemble f). split; [by destruct self|]. split.
  - intros slice_type index Hty Hidx.
    destruct (loaded_slice_data f stats self slice_type index Hne Hs Hty Hidx)
      as [body Hbody].
    exists body. split; [|done].
    rewrite (get_slice_in_range _ (assemble f)); [by rewrite Hbody|done| |done].
    by destruct self.
  - assert (0 < length (inline_axis f)).
    { destruct (inline_axis f) eqn:E; [by apply inline_axis_nil in E|simpl; lia]. }
    assert (0 < length (xline_axis f)).
    { destruct (xline_axis f) eqn:E; [by apply xline_axis_nil in E|simpl; lia]. }
    assert (0 < length (samples f)).
    { destruct (samples f); [done|simpl; lia]. }
    unfold dimension_length. rewrite shape3_assemble.
    rewrite decide_True by done.
    rewrite (decide_False (P := "xline" = "inline")) by done.
    rewrite decide_True by done.
    rewrite !decide_False by done.
    assert (current_inline_idx (loaded_state f stats self)
            = length (inline_axis f) / 2) as -> by by destruct self.
    assert (current_xline_idx (loaded_state f stats self)
            = length (xline_axis f) / 2) as -> by by destruct self.
    assert (current_sample_idx (loaded_state f stats self)
            = length (samples f) / 2) as -> by by destruct self.
    pose proof (half_lt (length (inline_axis f))).
    pose proof (half_lt (length (xline_axis f))).
    pose proof (half_lt (length (samples f))). lia.
Qed.

Lemma loaded_requests_succeed_witness :
  ∃ cube,
    data loaded_3x3 = Some cube ∧
    (∀ slice_type index,
       slice_type ∈ ["inline"; "xline"; "sample"] →
       (0 ≤ index < dimension_length cube slice_type)%Z →
       ∃ body, get_slice loaded_3x3 slice_type index = Json body ∧
               get_slice_data loaded_3x3 slice_type index = Some body) ∧
    (Z.of_nat (current_inline_idx loaded_3x3) < dimension_length cube "inline")%Z ∧
    (Z.of_nat (current_xline_idx loaded_3x3) < dimension_length cube "xline")%Z ∧
    (Z.of_nat (current_sample_idx loaded_3x3) < dimension_length cube "sample")%Z.
Proof.
  apply (loaded_requests_succeed plenty (Some survey_3x3) init loaded_3x3).
  vm_compute. reflexivity.
Defined.

(** ** Indices that count from the end *)

Lemma normalize_index_wrap dim index :
  (- Z.of_nat dim ≤ index < 0)%Z →
  np.normalize_index dim index = np.normalize_index dim (index + Z.of_nat dim).
Proof.
  intros Hidx. unfold np.normalize_index.
  rewrite (decide_False (P := (0 ≤ index < Z.of_nat dim)%Z)) by lia.
  rewrite decide_True by lia. by rewrite decide_True by lia.
Qed.

Lemma normalize_index_None dim index :
  (index < - Z.of_nat dim ∨ Z.of_nat dim ≤ index)%Z →
  np.normalize_index dim index = None.
Proof.
  intros Hidx. unfold np.normalize_index.
  rewrite decide_False by lia. by rewrite decide_False by lia.
Qed.

Lemma select_plane_wrap self d slice_type index :
  (- dimension_length d slice_type ≤ index < 0)%Z →
  select_plane self d slice_type index
  = select_plane self d slice_type (index + dimension_length d slice_type).
Proof.
  unfold select_plane, dimension_length, np.take0, np.take1, np.take2.
  destruct (np.shape3 d) as [[n0 n1] n2]. intros Hidx.
  repeat case_decide; try done; by rewrite normalize_index_wrap.
Qed.

Lemma select_plane_outside self d slice_type index :
  (index < - dimension_length d slice_type
   ∨ dimension_length d slice_type ≤ index)%Z →
  select_plane self d slice_type index = None ∨
  select_plane self d slice_type index = Some None.
Proof.
  unfold select_plane, dimension_length, np.take0, np.take1, np.take2.
  destruct (np.shape3 d) as [[n0 n1] n2]. intros Hidx.
  repeat case_decide; try (by left); right; by rewrite normalize_index_None.
Qed.

(** X16. [get_slice_data] itself takes an index as NumPy does: an index
    from [-n] to [-1] on an axis of length [n] selects the slice that
    [index + n] selects, and an index below [-n] or from [n] on gives no
    slice, as does a slice type other than the three. *)
Theorem slice_index_counts_from_end (self : processor) (cube : np.ndarray3)
    (slice_type : string) (index : Z)
    (Hdata : data self = Some cube) :
  let n := dimension_length cube slice_type in
  ((- n ≤ index < 0)%Z →
   get_slice_data self slice_type index
   = get_slice_data self slice_type (index + n)) ∧
  ((index < - n ∨ n ≤ index)%Z → get_slice_data self slice_type index = None) ∧
  (slice_type ∉ ["inline"; "xline"; "sample"] →
   get_slice_data self slice_type index = None).
Proof.
  intros n. unfold get_slice_data. rewrite Hdata. simpl. split; [|split].
  - intros Hidx. by rewrite select_plane_wrap.
  - intros Hidx.
    by destruct (select_plane_outside self cube slice_type index Hidx)
      as [-> | ->].
  - intros Hty. unfold select_plane.
    rewrite !decide_False; [done|..];
      intros ->; apply Hty; repeat constructor.
Qed.

Lemma slice_index_counts_from_end_witness :
  let n := dimension_length (assemble survey_3x3) "xline" in
  ((- n ≤ -1 < 0)%Z →
   get_slice_data loaded_3x3 "xline" (-1)
   = get_slice_data loaded_3x3 "xline" (-1 + n)) ∧
  ((-1 < - n ∨ n ≤ -1)%Z → get_slice_data loaded_3x3 "xline" (-1) = None) ∧
  ("xline" ∉ ["inline"; "xline"; "sample"] →
   get_slice_data loaded_3x3 "xline" (-1) = None).
Proof.
  apply (slice_index_counts_from_end loaded_3x3 (assemble survey_3x3)
           "xline" (-1)).
  vm_compute. reflexivity.
Defined.

(** ** From the file to the screen *)

Lemma item3_row d a b k row :
  row_at d a b = Some row → item3 d a b k = row !! k.
Proof. unfold item3. by intros ->. Qed.

(** X17. A trace read from the file is what the slices show: when no
    later trace has its line numbers, the sample slice [k] holds its
    sanitised sample [k] at the axis positions of its inline and
    crossline, and the inline slice at that inline holds it at row [k]
    and the crossline's position. *)
Theorem slices_show_trace (memory : N) (f : segy_file)
    (self self' : processor)
    (i k : nat) (t : trace) (p : placement)
    (Hload : load_segy_file memory (Some f) self = (Returns true, self'))
    (Hsamples : Forall (fun t => length (trace_samples t) = length (samples f))
                       (traces f))
    (Ht : traces f !! i = Some t)
    (Hp : read_trace_headers f !! i = Some p)
    (Hlast : ∀ j q, i < j → read_trace_headers f !! j = Some q →
                    (p_inline q, p_xline q) ≠ (p_inline p, p_xline p))
    (Hk : k < length (samples f)) :
  ∃ a b inline_axis xline_axis sample_slice inline_slice,
    get_slice self' "sample" (Z.of_nat k) = Json sample_slice ∧
    get_slice self' "inline" (Z.of_nat a) = Json inline_slice ∧
    sd_x sample_slice = IntAxis inline_axis ∧
    sd_y sample_slice = IntAxis xline_axis ∧
    sd_x inline_slice = IntAxis xline_axis ∧
    inline_axis !! a = Some (p_inline p) ∧
    xline_axis !! b = Some (p_xline p) ∧
    item2 (sd_data sample_slice) a b = np.nan_to_num1 <$> trace_samples t !! k ∧
    item2 (sd_data inline_slice) k b = np.nan_to_num1 <$> trace_samples t !! k.
Proof.
  apply load_succeeds_samples in Hload as (f' & stats & [= <-] & Hne & Hs & Hst & ->).
  destruct (assemble_row_last f i t p Hsamples Ht Hp Hlast)
    as (a & b & Ha & Hb & Hrow).
  assert (0 < length (inline_axis f)) by (apply lookup_lt_Some in Ha; lia).
  assert (0 < length (xline_axis f)) by (apply lookup_lt_Some in Hb; lia).
  assert (0 < length (samples f)) by lia.
  set (self' := loaded_state f stats self).
  assert (Hd : data self' = Some (assemble f)) by by destruct self.
  assert (Hic : inline_coords self' = Some (inline_axis f)) by by destruct self.
  assert (Hxc : xline_coords self' = Some (xline_axis f)) by by destruct self.
  assert (Hsc : sample_coords self' = Some (samples f)) by by destruct self.
  destruct (sample_slice self' (assemble f) (inline_axis f) (xline_axis f)
              (samples f) Hd Hic Hxc Hsc (wf3_assemble f) (finite3_assemble f)
              (shape3_assemble f) ltac:(done) ltac:(done) ltac:(done) k Hk)
    as (rs & Hrs & _ & _ & Hsx & Hsy & Hsi).
  destruct (inline_slice self' (assemble f) (inline_axis f) (xline_axis f)
              (samples f) Hd Hic Hxc Hsc (wf3_assemble f) (finite3_assemble f)
              (shape3_assemble f) ltac:(done) ltac:(done) ltac:(done) a
              ltac:(by apply lookup_lt_Some in Ha))
    as (ri & Hri & _ & _ & Hix & _ & Hii).
  exists a, b, (inline_axis f), (xline_axis f), rs, ri.
  assert (Hitem : item3 (assemble f) a b k
                  = np.nan_to_num1 <$> trace_samples t !! k).
  { rewrite (item3_row _ _ _ _ _ Hrow). unfold np.nan_to_num.
    by rewrite list_lookup_fmap. }
  split.
  { rewrite (get_slice_in_range _ (assemble f)); [by rewrite Hrs| |done|].
    - apply elem_of_cons. right. apply elem_of_cons. right. apply list_elem_of_here.
    - unfold dimension_length. rewrite shape3_assemble.
      rewrite !decide_False by done. lia. }
  split.
  { rewrite (get_slice_in_range _ (assemble f)); [by rewrite Hri| |done|].
    - apply list_elem_of_here.
    - unfold dimension_length. rewrite shape3_assemble.
      rewrite decide_True by done. apply lookup_lt_Some in Ha. lia. }
  do 5 (split; [done|]).
  by rewrite Hsi, Hii.
Qed.

Lemma slices_show_trace_witness :
  ∃ a b inline_axis xline_axis sample_slice inline_slice,
    get_slice loaded_3x3 "sample" (Z.of_nat 1) = Json sample_slice ∧
    get_slice loaded_3x3 "inline" (Z.of_nat a) = Json inline_slice ∧
    sd_x sample_slice = IntAxis inline_axis ∧
    sd_y sample_slice = IntAxis xline_axis ∧
    sd_x inline_slice = IntAxis xline_axis ∧
    inline_axis !! a = Some 3%Z ∧
    xline_axis !! b = Some 30%Z ∧
    item2 (sd_data sample_slice) a b = np.nan_to_num1 <$> spiky 9 !! 1 ∧
    item2 (sd_data inline_slice) 1 b = np.nan_to_num1 <$> spiky 9 !! 1.
Proof.
  apply (slices_show_trace plenty survey_3x3 init loaded_3x3 8 1
           (grid_trace 3 30 300 300 (spiky 9))
           {| p_inline := 3; p_xline := 30; p_x := 300; p_y := 300 |}).
  - vm_compute. reflexivity.
  - repeat constructor.
  - reflexivity.
  - reflexivity.
  - intros j q Hj Hq. apply lookup_lt_Some in Hq. vm_compute in Hq. lia.
  - vm_compute. lia.
Defined.

(** ** Files without line numbers *)

Lemma unnumbered_headers f i t :
  Forall (fun t => has_line_numbers t = false) (traces f) →
  traces f !! i = Some t →
  read_trace_headers f !! i = Some (fallback_placement (length (traces f)) i).
Proof.
  intros Hall Ht. unfold read_trace_headers. rewrite list_lookup_imap, Ht.
  simpl. f_equal. apply locate_without_line_numbers.
  rewrite Forall_lookup in Hall. by eapply Hall.
Qed.

(** X18. A file whose headers give no line numbers is laid out on the
    fallback grid without loss: every trace is stored, sanitised, at
    the axis positions of inline [i // g + 1] and crossline
    [i % g + 1], for [g] the integer square root of the trace count. *)
Theorem unnumbered_traces_all_stored (memory : N) (f : segy_file)
    (self self' : processor)
    (i : nat) (t : trace)
    (Hload : load_segy_file memory (Some f) self = (Returns true, self'))
    (Hsamples : Forall (fun t => length (trace_samples t) = length (samples f))
                       (traces f))
    (Hnone : Forall (fun t => has_line_numbers t = false) (traces f))
    (Ht : traces f !! i = Some t) :
  let g := grid_size (length (traces f)) in
  ∃ cube inline_axis xline_axis a b,
    data self' = Some cube ∧
    inline_coords self' = Some inline_axis ∧
    xline_coords self' = Some xline_axis ∧
    inline_axis !! a = Some (Z.of_nat i / g + 1)%Z ∧
    xline_axis !! b = Some (Z.of_nat i mod g + 1)%Z ∧
    row_at cube a b = Some (np.nan_to_num (trace_samples t)).
Proof.
  intros g.
  apply load_succeeds_inv in Hload as (f' & stats & [= <-] & Hne & Hst & ->).
  pose proof (unnumbered_headers f i t Hnone Ht) as Hp.
  destruct (assemble_row_last f i t _ Hsamples Ht Hp) as (a & b & Ha & Hb & Hrow).
  { intros j q Hij Hq [= Hil Hxl].
    assert (j < length (read_trace_headers f)) as Hj
      by by apply lookup_lt_is_Some_1.
    unfold read_trace_headers in Hj. rewrite length_imap in Hj.
    destruct (lookup_lt_is_Some_2 (traces f) j Hj) as [t' Ht'].
    rewrite (unnumbered_headers f j t' Hnone Ht') in Hq. injection Hq as <-.
    apply lookup_lt_Some in Ht.
    assert (j = i); [|lia].
    apply (fallback_placement_inj (length (traces f))); [lia|done..]. }
  exists (assemble f), (inline_axis f), (xline_axis f), a, b.
  by do 3 (split; [by destruct self|]).
Qed.

Lemma unnumbered_traces_all_stored_witness :
  let g := grid_size (length (traces unnumbered_5)) in
  ∃ cube inline_axis xline_axis a b,
    data loaded_unnumbered = Some cube ∧
    inline_coords loaded_unnumbered = Some inline_axis ∧
    xline_coords loaded_unnumbered = Some xline_axis ∧
    inline_axis !! a = Some (Z.of_nat 3 / g + 1)%Z ∧
    xline_axis !! b = Some (Z.of_nat 3 mod g + 1)%Z ∧
    row_at cube a b = Some (np.nan_to_num [Fin 7; Fin 8]).
Proof.
  apply (unnumbered_traces_all_stored plenty unnumbered_5 init loaded_unnumbered 3
           (bare_trace [Fin 7; Fin 8])).
  - vm_compute. reflexivity.
  - repeat constructor.
  - repeat constructor.
  - reflexivity.
Defined.

(** ** Statistics of the stored values *)

Lemma nan_to_num_fixed v : Forall finite v → np.nan_to_num v = v.
Proof.
  induction 1 as [|x v Hx _ IH]; [done|].
  unfold np.nan_to_num in *. csimpl. by rewrite IH, nan_to_num1_id.
Qed.

Lemma nan_to_num3_fixed d : finite3 d → np.nan_to_num3 d = d.
Proof.
  destruct d as [shape cells]. unfold finite3, np.nan_to_num3. simpl.
  intros Hfin. f_equal.
  induction Hfin as [|plane cells Hplane _ IH]; [done|]. csimpl.
  rewrite IH. f_equal.
  induction Hplane as [|row plane Hrow _ IHp]; [done|]. csimpl.
  by rewrite IHp, nan_to_num_fixed.
Qed.

Lemma min_max_Fin qs :
  qs ≠ [] →
  ∃ lo hi,
    np.min (Fin <$> qs) = Some (Fin lo) ∧
    np.max (Fin <$> qs) = Some (Fin hi) ∧
    lo ∈ qs ∧ hi ∈ qs ∧
    Forall (fun x => (lo <= x)%Q ∧ (x <= hi)%Q) qs.
Proof.
  intros Hne.
  destruct (np_min_Fin qs Hne) as (lo & Hlo & Hlo_all & Hlo_in).
  destruct (np_max_Fin qs Hne) as (hi & Hhi & Hhi_all & Hhi_in).
  exists lo, hi. split; [done|]. split; [done|]. split; [done|]. split; [done|].
  rewrite Forall_forall in Hlo_all, Hhi_all. apply Forall_forall. intros x Hx.
  split; [by apply Hlo_all|by apply Hhi_all].
Qed.

(** X19. The statistics of a successful load are those of the stored
    values: sanitising leaves the stored volume as it is, the minimum
    and the maximum are stored values that bound all of them, and the
    display range is the 5th to the 95th percentile. *)
Theorem statistics_describe_stored_cube (memory : N)
    (opened : option segy_file)
    (self self' : processor)
    (Hload : load_segy_file memory opened self = (Returns true, self')) :
  ∃ cube stats values lo hi,
    data self' = Some cube ∧
    amplitude_range self' = Some stats ∧
    np.nan_to_num3 cube = cube ∧
    np.ravel3 cube = Fin <$> values ∧
    actual_min stats = Fin lo ∧ actual_max stats = Fin hi ∧
    lo ∈ values ∧ hi ∈ values ∧
    Forall (fun x => (lo <= x)%Q ∧ (x <= hi)%Q) values ∧
    display_min stats = p5 stats ∧ display_max stats = p95 stats.
Proof.
  apply load_succeeds_inv in Hload as (f & stats & -> & Hne & Hst & ->).
  pose proof (nan_to_num3_fixed _ (finite3_assemble f)) as Hfix.
  revert Hst. unfold amplitude_statistics. rewrite Hfix.
  assert (Forall finite (np.ravel3 (assemble f))) as Hfin.
  { unfold np.ravel3. apply Forall_concat, Forall_concat, finite3_assemble. }
  apply Forall_finite_inv in Hfin as [values Hvalues]. rewrite Hvalues.
  destruct values as [|q0 qs']; [done|].
  set (values := q0 :: qs') in *. assert (values ≠ []) as Hq by done.
  clearbody values.
  destruct (min_max_Fin values Hq) as (lo & hi & -> & -> & ? & ? & ?).
  simpl. intros [= Hstats].
  exists (assemble f), stats, values, lo, hi.
  split; [by destruct self|]. split; [by destruct self|].
  rewrite <- Hstats.
  cbn [actual_min actual_max display_min display_max p5 p95].
  by repeat (split; [done|]).
Qed.

Lemma statistics_describe_stored_cube_witness :
  ∃ cube stats values lo hi,
    data loaded_3x3 = Some cube ∧
    amplitude_range loaded_3x3 = Some stats ∧
    np.nan_to_num3 cube = cube ∧
    np.ravel3 cube = Fin <$> values ∧
    actual_min stats = Fin lo ∧ actual_max stats = Fin hi ∧
    lo ∈ values ∧ hi ∈ values ∧
    Forall (fun x => (lo <= x)%Q ∧ (x <= hi)%Q) values ∧
    display_min stats = p5 stats ∧ display_max stats = p95 stats.
Proof.
  apply (statistics_describe_stored_cube plenty (Some survey_3x3) init loaded_3x3).
  vm_compute. reflexivity.
Defined.

(** X20. The minimum and the maximum of a slice are those of the values
    it returns: the values are finite numbers, and the two are entries of
    the slice that bound all of them. *)
Theorem slice_statistics_describe_slice (self : processor)
    (slice_type : string) (index : Z) (r : slice_data)
    (Hslice : get_slice_data self slice_type index = Some r) :
  ∃ values lo hi,
    concat (sd_data r) = Fin <$> values ∧
    s_min (sd_amplitude_stats r) = Fin lo ∧
    s_max (sd_amplitude_stats r) = Fin hi ∧
    lo ∈ values ∧ hi ∈ values ∧
    Forall (fun x => (lo <= x)%Q ∧ (x <= hi)%Q) values.
Proof.
  revert Hslice. unfold get_slice_data.
  destruct (data self) as [d|]; simpl; [|done].
  destruct (select_plane self d slice_type index) as [[[[plane x] y]|]|];
    simpl; [|done..].
  set (oriented := if decide _ then _ else _).
  assert (Hfin : Forall (Forall finite) (np.rows oriented)).
  { unfold oriented. case_decide.
    - apply transpose_finite, nan_to_num2_finite.
    - apply nan_to_num2_finite. }
  assert (Hflat : Forall finite (np.ravel2 oriented)) by by apply Forall_concat.
  apply Forall_finite_inv in Hflat as [values Hvalues]. rewrite Hvalues.
  destruct values as [|q0 qs']; [done|].
  set (values := q0 :: qs') in *. assert (values ≠ []) as Hq by done.
  clearbody values.
  destruct (min_max_Fin values Hq) as (lo & hi & -> & -> & ? & ? & ?).
  simpl. intros [= <-]. exists values, lo, hi.
  cbn [sd_data sd_amplitude_stats s_min s_max].
  by repeat (split; [done|]).
Qed.

Lemma slice_statistics_describe_slice_witness :
  ∃ r, get_slice_data loaded_3x3 "sample" 1 = Some r ∧
  ∃ values lo hi,
    concat (sd_data r) = Fin <$> values ∧
    s_min (sd_amplitude_stats r) = Fin lo ∧
    s_max (sd_amplitude_stats r) = Fin hi ∧
    lo ∈ values ∧ hi ∈ values ∧
    Forall (fun x => (lo <= x)%Q ∧ (x <= hi)%Q) values.
Proof.
  eexists. split; [vm_compute; reflexivity|].
  apply (slice_statistics_describe_slice loaded_3x3 "sample" 1).
  vm_compute. reflexivity.
Defined.

(** ** The pair search of the geometry *)

Lemma scan_pairs_first m k1 k2 pre v post p p1 p2 :
  m !! k1 v = Some p1 → m !! k2 v = Some p2 →
  (∀ w, w ∈ pre → both_found (m !! k1 w, m !! k2 w) = false) →
  scan_pairs m k1 k2 (pre ++ v :: post) p = (Some p1, Some p2).
Proof.
  intros H1 H2. revert p.
  induction pre as [|w pre IH]; intros p Hpre; cbn [app scan_pairs].
  - by rewrite H1, H2.
  - rewrite (Hpre w) by apply list_elem_of_here.
    apply IH. intros w' Hw'. by apply Hpre, list_elem_of_further.
Qed.

Lemma find_pair_first m k1 k2 first vals pre v post p1 p2 :
  first :: vals = pre ++ v :: post →
  m !! k1 v = Some p1 → m !! k2 v = Some p2 →
  (∀ w, w ∈ pre → both_found (m !! k1 w, m !! k2 w) = false) →
  find_pair m k1 k2 first vals = (Some p1, Some p2).
Proof.
  intros Hsplit H1 H2 Hpre. unfold find_pair.
  destruct pre as [|w pre]; simplify_eq/=.
  - by rewrite H1, H2.
  - rewrite (Hpre w) by apply list_elem_of_here.
    apply scan_pairs_first; [done..|].
    intros w' Hw'. by apply Hpre, list_elem_of_further.
Qed.

(** X21. With four mapped points or more, the inline azimuth is the
    bearing from the point of the minimum inline to the point of the
    maximum inline on the first crossline, trying the minimum crossline
    and then the crosslines in axis order, on which both points are
    mapped; and likewise the crossline azimuth, from the minimum to the
    maximum crossline on the first such inline. *)
Theorem azimuth_from_first_mapped_pair
    (inlines xlines x_coords y_coords unique_inlines unique_xlines : list Z)
    (min_il max_il min_xl max_xl : Z)
    (Hsize : 4 ≤ size (build_coord_map inlines xlines x_coords y_coords))
    (Hmin_il : py_min unique_inlines = Some min_il)
    (Hmax_il : py_max unique_inlines = Some max_il)
    (Hmin_xl : py_min unique_xlines = Some min_xl)
    (Hmax_xl : py_max unique_xlines = Some max_xl) :
  let coord_map := build_coord_map inlines xlines x_coords y_coords in
  let g := calculate_survey_geometry inlines xlines x_coords y_coords
             unique_inlines unique_xlines in
  (∀ pre xl post p1 p2,
     min_xl :: unique_xlines = pre ++ xl :: post →
     coord_map !! (min_il, xl) = Some p1 →
     coord_map !! (max_il, xl) = Some p2 →
     (∀ w, w ∈ pre → ¬ (is_Some (coord_map !! (min_il, w)) ∧
                        is_Some (coord_map !! (max_il, w)))) →
     inline_azimuth g = bearing (p2.1 - p1.1) (p2.2 - p1.2)) ∧
  (∀ pre il post p1 p2,
     min_il :: unique_inlines = pre ++ il :: post →
     coord_map !! (il, min_xl) = Some p1 →
     coord_map !! (il, max_xl) = Some p2 →
     (∀ w, w ∈ pre → ¬ (is_Some (coord_map !! (w, min_xl)) ∧
                        is_Some (coord_map !! (w, max_xl)))) →
     xline_azimuth g = bearing (p2.1 - p1.1) (p2.2 - p1.2)).
Proof.
  intros coord_map g. unfold g, calculate_survey_geometry.
  fold coord_map. rewrite decide_False by (unfold coord_map; lia).
  rewrite Hmin_il, Hmax_il, Hmin_xl, Hmax_xl.
  cbn [inline_azimuth xline_azimuth].
  split.
  - intros pre xl post p1 p2 Hsplit H1 H2 Hpre.
    rewrite (find_pair_first coord_map (fun xl => (min_il, xl))
              (fun xl => (max_il, xl)) _ _ pre xl post p1 p2 Hsplit H1 H2);
      [done|].
    intros w Hw. specialize (Hpre w Hw). apply not_true_is_false.
    intros Hb. apply Hpre. rewrite <- both_found_is_Some. done.
  - intros pre il post p1 p2 Hsplit H1 H2 Hpre.
    rewrite (find_pair_first coord_map (fun il => (il, min_xl))
              (fun il => (il, max_xl)) _ _ pre il post p1 p2 Hsplit H1 H2);
      [done|].
    intros w Hw. specialize (Hpre w Hw). apply not_true_is_false.
    intros Hb. apply Hpre. rewrite <- both_found_is_Some. done.
Qed.

Lemma azimuth_from_first_mapped_pair_witness :
  let inlines := [1; 1; 1; 2; 2; 2; 3; 3; 3]%Z in
  let xlines := [10; 20; 30; 10; 20; 30; 10; 20; 30]%Z in
  let x_coords := [100; 100; 100; 200; 200; 200; 300; 300; 300]%Z in
  let y_coords := [100; 0; 300; 100; 200; 300; 0; 200; 300]%Z in
  let coord_map := build_coord_map inlines xlines x_coords y_coords in
  let g := calculate_survey_geometry inlines xlines x_coords y_coords
             [1; 2; 3]%Z [10; 20; 30]%Z in
  (∀ pre xl post p1 p2,
     [10; 10; 20; 30]%Z = pre ++ xl :: post →
     coord_map !! (1, xl)%Z = Some p1 →
     coord_map !! (3, xl)%Z = Some p2 →
     (∀ w, w ∈ pre → ¬ (is_Some (coord_map !! (1, w)%Z) ∧
                        is_Some (coord_map !! (3, w)%Z))) →
     inline_azimuth g = bearing (p2.1 - p1.1) (p2.2 - p1.2)) ∧
  (∀ pre il post p1 p2,
     [1; 1; 2; 3]%Z = pre ++ il :: post →
     coord_map !! (il, 10)%Z = Some p1 →
     coord_map !! (il, 30)%Z = Some p2 →
     (∀ w, w ∈ pre → ¬ (is_Some (coord_map !! (w, 10)%Z) ∧
                        is_Some (coord_map !! (w, 30)%Z))) →
     xline_azimuth g = bearing (p2.1 - p1.1) (p2.2 - p1.2)).
Proof.
  apply (azimuth_from_first_mapped_pair
           [1; 1; 1; 2; 2; 2; 3; 3; 3]%Z [10; 20; 30; 10; 20; 30; 10; 20; 30]%Z
           [100; 100; 100; 200; 200; 200; 300; 300; 300]%Z
           [100; 0; 300; 100; 200; 300; 0; 200; 300]%Z
           [1; 2; 3]%Z [10; 20; 30]%Z 1 3 10 30).
  - vm_compute. lia.
  - reflexivity.
  - reflexivity.
  - reflexivity.
  - reflexivity.
Defined.
